(** * AbiGenerator: the TypeScript typings generator for contract ABIs

    A shallow embedding of
    [src/abi-types-generator/src/converters/typescript/abi-generator.ts].

    The class [AbiGenerator] keeps three string lists besides its context and
    writes to them from deeply nested calls, and it throws from several
    places.  The embedding threads the generator object (and, for [generate],
    the file system) through a state monad with exceptions; a throw keeps the
    state reached so far, as a JavaScript exception does. *)

From Stdlib Require Import ZArith Ascii.
From stdpp Require Import base option list strings pretty gmap.


(** ** JavaScript string operations used by the generator *)

Module Js.

(** [s.replace(/\'/g, '')] *)
Fixpoint removeQuotes (s : string) : string :=
  match s with
  | EmptyString => EmptyString
  | String c r =>
      if Ascii.eqb c "'"%char then removeQuotes r else String c (removeQuotes r)
  end.

(** [s.split(sep)] for a separator of one character; never the empty list. *)
Fixpoint split (sep : ascii) (s : string) : list string :=
  match s with
  | EmptyString => [EmptyString]
  | String c r =>
      if Ascii.eqb c sep then EmptyString :: split sep r
      else match split sep r with
           | [] => [String c EmptyString]
           | h :: t => String c h :: t
           end
  end.

(** [parts.join('')] *)
Definition join (parts : list string) : string :=
  foldr String.append EmptyString parts.

(** [s.substring(s.length - 1) === '/'] *)
Fixpoint endsWithSlash (s : string) : bool :=
  match s with
  | EmptyString => false
  | String c EmptyString => Ascii.eqb c "/"%char
  | String _ r => endsWithSlash r
  end.

(** Truthiness of a possibly absent string: [undefined] and [''] are falsy. *)
Definition truthy (o : option string) : bool :=
  match o with
  | Some s => negb (String.eqb s EmptyString)
  | None => false
  end.

(** [`${b}`] for a possibly absent boolean. *)
Definition showOptBool (o : option bool) : string :=
  match o with
  | Some true => "true"
  | Some false => "false"
  | None => "undefined"
  end.

(** [`${s}`] for a possibly absent string. *)
Definition showOptString (o : option string) : string :=
  match o with
  | Some s => s
  | None => "undefined"
  end.

Definition lf : string := String (ascii_of_nat 10) EmptyString.
Definition crlf : string := String (ascii_of_nat 13) lf.

End Js.

(** ** Data model *)

(** [AbiItemType]: the variant tag of an ABI item.  The switch of
    [buildAbiInterface] names three members; every other tag falls through. *)
Module AbiItemType.
Inductive t : Type :=
| constructor
| function
| event
| other (tag : string).

(** [`${abiItem.type}`] *)
Definition show (ty : t) : string :=
  match ty with
  | constructor => "constructor"
  | function => "function"
  | event => "event"
  | other tag => tag
  end.
End AbiItemType.

(** [AbiInput]; [components] is optional in the declaration and the code
    asserts it with [components!] when the type is the tuple tag. *)
#[warnings="-register-all"]
Inductive AbiInput : Type := mkAbiInput {
  in_name : string;
  in_type : string;
  in_indexed : option bool;
  in_components : option (list AbiInput)
}.

(** [AbiOutput]; the generator reads [name] and [type] only. *)
Record AbiOutput : Type := mkAbiOutput {
  out_name : string;
  out_type : string;
  out_components : option (list AbiInput)
}.

Record AbiItem : Type := mkAbiItem {
  item_type : AbiItemType.t;
  item_name : string;
  item_inputs : option (list AbiInput);
  item_outputs : option (list AbiOutput);
  item_payable : option bool;
  item_constant : option bool;
  item_stateMutability : option string
}.

(** [Provider]: the two supported values, and any other value the context
    may carry at run time (the [default:] branches of the code). *)
Module Provider.
Inductive t : Type :=
| web3
| ethers
| unsupported (tag : string).

Definition show (p : t) : string :=
  match p with
  | web3 => "web3"
  | ethers => "ethers"
  | unsupported tag => tag
  end.
End Provider.

(** prettier's [Options], with the fields the generator names. *)
Record Options : Type := mkOptions {
  parser : option string;
  trailingComma : option string;
  singleQuote : option bool;
  bracketSpacing : option bool;
  printWidth : option Z
}.

Definition setParser (p : string) (o : Options) : Options :=
  {| parser := Some p;
     trailingComma := trailingComma o;
     singleQuote := singleQuote o;
     bracketSpacing := bracketSpacing o;
     printWidth := printWidth o |}.

(** [GeneratorContext]: the object the caller hands to the constructor; the
    generator keeps a reference to it, so its updates are the caller's. *)
Record GeneratorContext : Type := mkContext {
  abiFileLocation : string;
  outputPathDirectory : option string;
  name : option string;
  provider : Provider.t;
  prettierOptions : option Options;
  watch : bool
}.

Record GenerateResponse : Type := mkResponse {
  outputLocation : string;
  abiJsonFileLocation : string
}.

(** What [JSON.parse] can hand to [getAbiJson], which casts it to [AbiItem[]]
    unchecked: an array of items, or one of the values below that are no
    array.  For these the loop header [i < abi.length] and the dispatch on
    [abi[i].type] are traced in [buildAbiInterface]. *)
Inductive NonArray : Type :=
| JsonNull
| JsonBool (b : bool)
| JsonNumber (n : Z)
| JsonString (s : string)
| JsonEmptyObject.

Inductive AbiJson : Type :=
| JsonArray (abi : list AbiItem)
| JsonOther (v : NonArray).

(** ** Errors *)

Inductive Error : Type :=
| OutputPathNotDirectory
    (* 'output path must be a directory' *)
| AbiFileNotFound (path : string)
    (* `can not find abi file ${path}` *)
| AbiFileNotJson (path : string)
    (* `Abi file ${path} is not a json file. Abi must be a json file.` *)
| UnknownProvider (tag : string)
    (* `${provider} is not a known supported provider` *)
| TypeError (what : string)
    (* raised by the JavaScript runtime on a property of undefined or null *)
| SyntaxError
    (* thrown by JSON.parse *)
| FormatError
    (* thrown by prettier.format *)
| FsError (path : string).
    (* thrown by fs.readFileSync, fs.writeFileSync or fs.watch *)

Definition isConfigurationError (e : Error) : bool :=
  match e with
  | OutputPathNotDirectory | UnknownProvider _ => true
  | _ => false
  end.

Definition isSourceError (e : Error) : bool :=
  match e with
  | AbiFileNotFound _ | AbiFileNotJson _ => true
  | _ => false
  end.

(** ** The monad: state with exceptions *)

Inductive Result (A : Type) : Type :=
| Ok (a : A)
| Throw (e : Error).
Arguments Ok {A} a.
Arguments Throw {A} e.

Definition M (S A : Type) : Type := S -> Result A * S.

Definition ret {S A} (a : A) : M S A := fun s => (Ok a, s).

Definition throw {S A} (e : Error) : M S A := fun s => (Throw e, s).

Definition bind {S A B} (m : M S A) (k : A -> M S B) : M S B :=
  fun s =>
    match m s with
    | (Ok a, s') => k a s'
    | (Throw e, s') => (Throw e, s')
    end.

Definition get {S} : M S S := fun s => (Ok s, s).

Definition modify {S} (f : S -> S) : M S unit := fun s => (Ok tt, f s).

(** [try { m } catch (error) { h }] *)
Definition tryCatch {S A} (m : M S A) (h : M S A) : M S A :=
  fun s =>
    match m s with
    | (Ok a, s') => (Ok a, s')
    | (Throw _, s') => h s'
    end.

Notation "'let*' x ':=' m 'in' k" := (bind m (fun x => k))
  (at level 10, x name, m at level 100, k at level 200).

Definition isOk {A} (r : Result A) : bool :=
  match r with Ok _ => true | Throw _ => false end.

(** ** Collaborators

    The generator calls helpers, the two provider factories, prettier, and
    Node's [path] and [JSON]; none of them is part of the file embedded here.
    They are parameters of the development: every theorem holds for whatever
    they compute. *)

(** [Web3Factory] and [EthersFactory], through the three methods called. *)
Record Factory : Type := mkFactory {
  (* buildWeb3Interfaces(abiName) / buildEthersInterfaces(abiName) *)
  f_buildInterfaces : string -> string;
  (* buildEventInterfaceProperties(abiItems) on an array of items *)
  f_buildEventInterfaceProperties : list AbiItem -> string;
  (* the same method handed a value that is no array; None when it throws *)
  f_buildEventInterfaceProperties_other : NonArray -> option string;
  (* buildMethodReturnContext(type, abiItem) *)
  f_buildMethodReturnContext : string -> AbiItem -> string
}.

Class Collaborators : Type := mkCollaborators {
  (* Helpers.capitalize *)
  capitalize : string -> string;
  (* TypeScriptHelpers.buildInterface(name, properties) *)
  buildInterface : string -> string -> string;
  (* TypeScriptHelpers.buildType(name, types) *)
  buildType : string -> list string -> string;
  (* TypeScriptHelpers.getSolidityTsType(type) *)
  getSolidityTsType : string -> string;
  (* SolidityType.tuple *)
  SolidityType_tuple : string;
  web3Factory : Factory;
  ethersFactory : Factory;
  (* prettier.format(source, options); None when it throws *)
  prettier_format : string -> Options -> option string;
  (* path.resolve(process.cwd(), joinPath) *)
  path_resolve : string -> string;
  path_dirname : string -> string;
  path_basename : string -> string;
  (* JSON.parse(text); None when it throws *)
  JSON_parse : string -> option AbiJson
}.

(** ** The generator object and the world it runs in *)

Record AbiGenerator : Type := mkGenerator {
  context : GeneratorContext;
  parametersAndReturnTypeInterfaces : list string;
  events : list string;
  methodNames : list string
}.

(** [new AbiGenerator(context)]: the three lists start empty. *)
Definition newAbiGenerator (ctx : GeneratorContext) : AbiGenerator :=
  {| context := ctx;
     parametersAndReturnTypeInterfaces := [];
     events := [];
     methodNames := [] |}.

Definition setContext (c : GeneratorContext) (g : AbiGenerator) : AbiGenerator :=
  {| context := c;
     parametersAndReturnTypeInterfaces := parametersAndReturnTypeInterfaces g;
     events := events g;
     methodNames := methodNames g |}.

Definition pushInterface (text : string) (g : AbiGenerator) : AbiGenerator :=
  {| context := context g;
     parametersAndReturnTypeInterfaces :=
       parametersAndReturnTypeInterfaces g ++ [text];
     events := events g;
     methodNames := methodNames g |}.

Definition pushEvent (n : string) (g : AbiGenerator) : AbiGenerator :=
  {| context := context g;
     parametersAndReturnTypeInterfaces := parametersAndReturnTypeInterfaces g;
     events := events g ++ [n];
     methodNames := methodNames g |}.

Definition pushMethodName (n : string) (g : AbiGenerator) : AbiGenerator :=
  {| context := context g;
     parametersAndReturnTypeInterfaces := parametersAndReturnTypeInterfaces g;
     events := events g;
     methodNames := methodNames g ++ [n] |}.

(** The accumulator state of a generator. *)
Definition accumulators (g : AbiGenerator) : list string * list string * list string :=
  (parametersAndReturnTypeInterfaces g, events g, methodNames g).

Inductive FsNode : Type :=
| Dir
| File (content : string).

Inductive IoEvent : Type :=
| IoExists (path : string)
| IoLstat (path : string)
| IoRead (path : string)
| IoWrite (path : string)
| IoWatch (path : string).

(** The file system (keyed by resolved path), the watchers registered with
    [fs.watch], the lines logged, and the file-system calls made so far. *)
Record World : Type := mkWorld {
  files : gmap string FsNode;
  watchers : list string;
  logged : list string;
  trace : list IoEvent
}.

Definition record (ev : IoEvent) (w : World) : World :=
  {| files := files w;
     watchers := watchers w;
     logged := logged w;
     trace := trace w ++ [ev] |}.

Definition isWrite (ev : IoEvent) : bool :=
  match ev with IoWrite _ => true | _ => false end.

Definition isRead (ev : IoEvent) : bool :=
  match ev with IoRead _ => true | _ => false end.

(** ** The methods of [AbiGenerator] *)

Section Generator.
Context `{Collaborators}.

(** *** File system and logger, as the generator calls them *)

Definition existsSync (p : string) : M World bool :=
  fun w =>
    (Ok (bool_decide (is_Some (files w !! path_resolve p))), record (IoExists p) w).

(** [fs.lstatSync(p).isDirectory()] *)
Definition lstatIsDirectory (p : string) : M World bool :=
  fun w =>
    match files w !! path_resolve p with
    | Some Dir => (Ok true, record (IoLstat p) w)
    | Some (File _) => (Ok false, record (IoLstat p) w)
    | None => (Throw (FsError p), record (IoLstat p) w)
    end.

Definition readFileSync (p : string) : M World string :=
  fun w =>
    match files w !! path_resolve p with
    | Some (File text) => (Ok text, record (IoRead p) w)
    | _ => (Throw (FsError p), record (IoRead p) w)
    end.

(** [fs.writeFileSync(p, text, { mode: 0o755 })]: refused on a directory. *)
Definition writeFileSync (p text : string) : M World unit :=
  fun w =>
    match files w !! path_resolve p with
    | Some Dir => (Throw (FsError p), record (IoWrite p) w)
    | _ =>
        (Ok tt,
         {| files := <[path_resolve p := File text]> (files w);
            watchers := watchers w;
            logged := logged w;
            trace := trace w ++ [IoWrite p] |})
    end.

(** [fs.watch(p, listener)]: the listener is registered, not run. *)
Definition fsWatch (p : string) : M World unit :=
  fun w =>
    match files w !! path_resolve p with
    | Some _ =>
        (Ok tt,
         {| files := files w;
            watchers := watchers w ++ [path_resolve p];
            logged := logged w;
            trace := trace w ++ [IoWatch p] |})
    | None => (Throw (FsError p), record (IoWatch p) w)
    end.

(** [Logger.error(line)] and [Logger.log(line)] *)
Definition loggerLog (line : string) : M World unit :=
  modify (fun w =>
    {| files := files w;
       watchers := watchers w;
       logged := logged w ++ [line];
       trace := trace w |}).

(** A method of the generator run inside [generate]. *)
Definition onThis {A} (m : M AbiGenerator A) : M (AbiGenerator * World) A :=
  fun s => let (r, g') := m (fst s) in (r, (g', snd s)).

(** A call into [fs] or [Logger] made inside [generate]. *)
Definition onWorld {A} (m : M World A) : M (AbiGenerator * World) A :=
  fun s => let (r, w') := m (snd s) in (r, (fst s, w')).

(** *** Names and paths read off the context *)

Definition buildExecutingPath (joinPath : string) : string :=
  path_resolve joinPath.

Definition getAbiFileFullPathLocation (c : GeneratorContext) : string :=
  buildExecutingPath (abiFileLocation c).

Definition getOutputPathDirectory (c : GeneratorContext) : string :=
  match outputPathDirectory c with
  | Some d => if Js.truthy (Some d) then d
              else path_dirname (getAbiFileFullPathLocation c)
  | None => path_dirname (getAbiFileFullPathLocation c)
  end.

Definition getAbiFileLocationRawName (c : GeneratorContext) : string :=
  match Js.split "."%char (path_basename (abiFileLocation c)) with
  | h :: _ => h
  | [] => "undefined" (* not reached: split returns at least one part *)
  end.

Definition formatAbiName (n : string) : string :=
  Js.join (map capitalize
    (Js.split "."%char
       (Js.join (map capitalize (Js.split "-"%char n))))).

Definition getAbiName (c : GeneratorContext) : string :=
  match name c with
  | Some n => if Js.truthy (Some n) then formatAbiName n
              else formatAbiName (getAbiFileLocationRawName c)
  | None => formatAbiName (getAbiFileLocationRawName c)
  end.

Definition buildOutputLocation (c : GeneratorContext) : string :=
  let name :=
    match name c with
    | Some n => if Js.truthy (Some n) then n else getAbiFileLocationRawName c
    | None => getAbiFileLocationRawName c
    end in
  let outputPathDirectory := getOutputPathDirectory c in
  if Js.endsWithSlash outputPathDirectory
  then outputPathDirectory +:+ name +:+ ".ts"
  else buildExecutingPath (outputPathDirectory +:+ "/" +:+ name +:+ ".ts").

(** *** State and context updates *)

Definition clearAllQuotesFromContextInfo : M AbiGenerator unit :=
  modify (fun g =>
    let c := context g in
    let c1 :=
      {| abiFileLocation := Js.removeQuotes (abiFileLocation c);
         outputPathDirectory := outputPathDirectory c;
         name := name c;
         provider := provider c;
         prettierOptions := prettierOptions c;
         watch := watch c |} in
    let c2 :=
      match outputPathDirectory c1 with
      | Some d =>
          if Js.truthy (Some d)
          then {| abiFileLocation := abiFileLocation c1;
                  outputPathDirectory := Some (Js.removeQuotes d);
                  name := name c1;
                  provider := provider c1;
                  prettierOptions := prettierOptions c1;
                  watch := watch c1 |}
          else c1
      | None => c1
      end in
    setContext c2 g).

Definition clearState : M AbiGenerator unit :=
  modify (fun g =>
    {| context := context g;
       parametersAndReturnTypeInterfaces := [];
       events := [];
       methodNames := [] |}).

Definition getDefaultPrettierOptions : Options :=
  {| parser := Some "typescript";
     trailingComma := Some "es5";
     singleQuote := Some true;
     bracketSpacing := Some true;
     printWidth := Some 80%Z |}.

(** [getPrettierOptions]: the caller's options object gets its parser
    overwritten in place and is returned. *)
Definition getPrettierOptions : M AbiGenerator Options :=
  let* g := get in
  match prettierOptions (context g) with
  | Some o =>
      let o' := setParser "typescript" o in
      let c := context g in
      let* _ := modify (setContext
        {| abiFileLocation := abiFileLocation c;
           outputPathDirectory := outputPathDirectory c;
           name := name c;
           provider := provider c;
           prettierOptions := Some o';
           watch := watch c |}) in
      ret o'
  | None => ret getDefaultPrettierOptions
  end.

(** *** Building the declarations *)

(** [inputName]: the name of input [i], [parameter${i}] when it is empty
    (the code repeats this in [buildInterfacePropertyDocs] and
    [buildParameters]). *)
Definition inputNameAt (i : nat) (input : AbiInput) : string :=
  if Nat.eqb (String.length (in_name input)) 0 then "parameter" +:+ pretty i
  else in_name input.

(** The loop of [buildInterfacePropertyDocs], from index [i] on. *)
Fixpoint paramsDocsFrom (i : nat) (inputs : list AbiInput) (paramsDocs : string)
  : string :=
  match inputs with
  | [] => paramsDocs
  | x :: rest =>
      let inputName := inputNameAt i x in
      paramsDocsFrom (S i) rest
        (paramsDocs +:+ Js.crlf +:+ "* @param " +:+ inputName +:+ " Type: "
           +:+ in_type x +:+ ", Indexed: "
           +:+ match in_indexed x with Some true => "true" | _ => "false" end)
  end.

Definition buildInterfacePropertyDocs (abiItem : AbiItem) : string :=
  let paramsDocs :=
    match item_inputs abiItem with
    | Some inputs => paramsDocsFrom 0 inputs ""
    | None => ""
    end in
  Js.lf +:+ "         /**" +:+ Js.lf
  +:+ "            * Payable: " +:+ Js.showOptBool (item_payable abiItem) +:+ Js.lf
  +:+ "            * Constant: " +:+ Js.showOptBool (item_constant abiItem) +:+ Js.lf
  +:+ "            * StateMutability: "
  +:+ Js.showOptString (item_stateMutability abiItem) +:+ Js.lf
  +:+ "            * Type: " +:+ AbiItemType.show (item_type abiItem) +:+ " "
  +:+ paramsDocs +:+ Js.lf
  +:+ "          */" +:+ Js.lf
  +:+ "        ".

Definition buildMethodReturnContext (type : string) (abiItem : AbiItem)
  : M AbiGenerator string :=
  let* g := get in
  match provider (context g) with
  | Provider.web3 => ret (f_buildMethodReturnContext web3Factory type abiItem)
  | Provider.ethers => ret (f_buildMethodReturnContext ethersFactory type abiItem)
  | Provider.unsupported tag => throw (UnknownProvider tag)
  end.

(** One step of the loops that build the fields of an auxiliary interface:
    [properties += `${name}: ${getSolidityTsType(type)};`]. *)
Definition addProperty (properties fieldName fieldType : string) : string :=
  properties +:+ fieldName +:+ ": " +:+ getSolidityTsType fieldType +:+ ";".

Definition buildTupleParametersInterface (name : string) (abiInput : AbiInput)
  : M AbiGenerator string :=
  let interfaceName := capitalize name +:+ "Request" in
  match in_components abiInput with
  | None => throw (TypeError "components")
  | Some components =>
      let properties :=
        foldl (fun properties c => addProperty properties (in_name c) (in_type c))
          "" components in
      let* _ := modify (pushInterface (buildInterface interfaceName properties)) in
      ret interfaceName
  end.

(** The loop of [buildParameters], from index [i] on. *)
Fixpoint buildParametersFrom (itemName : string) (i : nat)
  (inputs : list AbiInput) (input : string) : M AbiGenerator string :=
  match inputs with
  | [] => ret input
  | x :: rest =>
      let input := if Nat.ltb 1 (String.length input) then input +:+ ", " else input in
      let inputName := inputNameAt i x in
      if String.eqb (in_type x) SolidityType_tuple
      then
        let* ref := buildTupleParametersInterface itemName x in
        buildParametersFrom itemName (S i) rest
          (input +:+ inputName +:+ ": " +:+ ref)
      else
        buildParametersFrom itemName (S i) rest
          (input +:+ inputName +:+ ": " +:+ getSolidityTsType (in_type x))
  end.

Definition buildParameters (abiItem : AbiItem) : M AbiGenerator string :=
  let* input :=
    match item_inputs abiItem with
    | Some inputs => buildParametersFrom (item_name abiItem) 0 inputs "("
    | None => ret "("
    end in
  ret (input +:+ ")").

Definition buildPropertyReturnTypeInterface (abiItem : AbiItem)
  : M AbiGenerator string :=
  match item_outputs abiItem with
  | None | Some [] => buildMethodReturnContext "void" abiItem
  | Some [output] =>
      buildMethodReturnContext (getSolidityTsType (out_type output)) abiItem
  | Some outputs =>
      let interfaceName := capitalize (item_name abiItem) +:+ "Response" in
      let ouputProperties :=
        foldl (fun ouputProperties output =>
                 addProperty ouputProperties (out_name output) (out_type output))
          "" outputs in
      let* _ :=
        modify (pushInterface (buildInterface interfaceName ouputProperties)) in
      buildMethodReturnContext interfaceName abiItem
  end.

Definition buildParametersAndReturnTypes (abiItem : AbiItem)
  : M AbiGenerator string :=
  let* parameters := buildParameters abiItem in
  let* returnType := buildPropertyReturnTypeInterface abiItem in
  ret (parameters +:+ returnType).

(** The loop of [buildAbiInterface] over the remaining items. *)
Fixpoint buildAbiInterfaceFrom (abi : list AbiItem) (properties : string)
  : M AbiGenerator string :=
  match abi with
  | [] => ret properties
  | item :: rest =>
      match item_type item with
      | AbiItemType.constructor =>
          let properties := properties +:+ buildInterfacePropertyDocs item in
          let* _ := modify (pushMethodName "new") in
          let* sig := buildParametersAndReturnTypes item in
          buildAbiInterfaceFrom rest (properties +:+ "'new'" +:+ sig +:+ ";")
      | AbiItemType.function =>
          let properties := properties +:+ buildInterfacePropertyDocs item in
          let* _ := modify (pushMethodName (item_name item)) in
          let* sig := buildParametersAndReturnTypes item in
          buildAbiInterfaceFrom rest
            (properties +:+ item_name item +:+ sig +:+ ";")
      | AbiItemType.event =>
          let* _ := modify (pushEvent (item_name item)) in
          buildAbiInterfaceFrom rest properties
      | AbiItemType.other _ => buildAbiInterfaceFrom rest properties
      end
  end.

(** [buildAbiInterface(abi)].  On a value that is no array: [null.length]
    throws; a boolean, a number and [{}] have no [length], so the loop body
    never runs; a string has one, but its characters have no [type], so no
    case of the switch matches. *)
Definition buildAbiInterface (abi : AbiJson) : M AbiGenerator string :=
  let* properties :=
    match abi with
    | JsonArray items => buildAbiInterfaceFrom items ""
    | JsonOther JsonNull => throw (TypeError "length")
    | JsonOther _ => ret ""
    end in
  let* g := get in
  ret (buildInterface (getAbiName (context g)) properties).

Definition buildMethodNamesType : M AbiGenerator string :=
  let* g := get in
  ret (buildType (getAbiName (context g) +:+ "MethodNames") (methodNames g)).

Definition buildParametersAndReturnTypeInterfaces : M AbiGenerator string :=
  let* g := get in
  ret (foldl (fun objectOutputReturnType typeInterface =>
                objectOutputReturnType +:+ typeInterface)
         "" (parametersAndReturnTypeInterfaces g)).

Definition buildEventsType : M AbiGenerator string :=
  let* g := get in
  ret (buildType (getAbiName (context g) +:+ "Events") (events g)).

(** The factory's event properties for whatever [getAbiJson] returned. *)
Definition eventInterfaceProperties (f : Factory) (abiItems : AbiJson)
  : M AbiGenerator string :=
  match abiItems with
  | JsonArray items => ret (f_buildEventInterfaceProperties f items)
  | JsonOther v =>
      match f_buildEventInterfaceProperties_other f v with
      | Some text => ret text
      | None => throw (TypeError "abiItems")
      end
  end.

Definition buildEventsInterface (abiItems : AbiJson) : M AbiGenerator string :=
  let* g := get in
  let eventsInterfaceName := getAbiName (context g) +:+ "EventsContext" in
  match provider (context g) with
  | Provider.web3 =>
      let* props := eventInterfaceProperties web3Factory abiItems in
      ret (buildInterface eventsInterfaceName props)
  | Provider.ethers =>
      let* props := eventInterfaceProperties ethersFactory abiItems in
      ret (buildInterface eventsInterfaceName props)
  | Provider.unsupported tag => throw (UnknownProvider tag)
  end.

Definition buildFullTypings (abi : AbiJson) (abiTypedInterface : string)
  : M AbiGenerator string :=
  let* g := get in
  let* typings :=
    match provider (context g) with
    | Provider.web3 =>
        ret ("" +:+ f_buildInterfaces web3Factory (getAbiName (context g)))
    | Provider.ethers =>
        ret ("" +:+ f_buildInterfaces ethersFactory (getAbiName (context g)))
    | Provider.unsupported tag => throw (UnknownProvider tag)
    end in
  let* eventsType := buildEventsType in
  let* eventsInterface := buildEventsInterface abi in
  let* methodNamesType := buildMethodNamesType in
  let* interfaces := buildParametersAndReturnTypeInterfaces in
  ret (typings +:+ eventsType +:+ eventsInterface +:+ methodNamesType
         +:+ interfaces +:+ abiTypedInterface).

(** *** Loading, formatting, writing *)

Definition isDirectory (pathValue : string) : M World bool :=
  let* found := existsSync pathValue in
  if found then lstatIsDirectory pathValue else ret false.

Definition getAbiJson : M (AbiGenerator * World) AbiJson :=
  let* s := get in
  let abiFileFullPath := getAbiFileFullPathLocation (context (fst s)) in
  let* found := onWorld (existsSync abiFileFullPath) in
  if negb found then throw (AbiFileNotFound abiFileFullPath)
  else
    tryCatch
      (let* text := onWorld (readFileSync abiFileFullPath) in
       match JSON_parse text with
       | Some result => ret result
       | None => throw SyntaxError
       end)
      (throw (AbiFileNotJson abiFileFullPath)).

Definition setWatch (b : bool) (g : AbiGenerator) : AbiGenerator :=
  let c := context g in
  setContext
    {| abiFileLocation := abiFileLocation c;
       outputPathDirectory := outputPathDirectory c;
       name := name c;
       provider := provider c;
       prettierOptions := prettierOptions c;
       watch := b |} g.

(** [watchForChanges]: the flag is cleared, then the listener (which calls
    [generate] again when the file changes) is registered. *)
Definition watchForChanges : M (AbiGenerator * World) unit :=
  let* _ := onThis (modify (setWatch false)) in
  let* s := get in
  onWorld (fsWatch (getAbiFileFullPathLocation (context (fst s)))).

(** [prettier.format(source, options)] *)
Definition prettierFormat (source : string) (options : Options)
  : M (AbiGenerator * World) string :=
  match prettier_format source options with
  | Some text => ret text
  | None => throw FormatError
  end.

Definition generate : M (AbiGenerator * World) GenerateResponse :=
  let* _ := onThis clearAllQuotesFromContextInfo in
  let* s := get in
  let* isDir := onWorld (isDirectory (getOutputPathDirectory (context (fst s)))) in
  if negb isDir then throw OutputPathNotDirectory
  else
    let* abi := getAbiJson in
    let* abiTypedInterface := onThis (buildAbiInterface abi) in
    let* fullTypings := onThis (buildFullTypings abi abiTypedInterface) in
    let* fullTypingsFormatted :=
      tryCatch
        (let* options := onThis getPrettierOptions in
         prettierFormat fullTypings options)
        (let* _ := onWorld (loggerLog
           "Your prettier options were not valid so falling back to default one.") in
         let* _ := onWorld (loggerLog "") in
         prettierFormat fullTypings getDefaultPrettierOptions) in
    let* s := get in
    let outputLocation := buildOutputLocation (context (fst s)) in
    let* _ := onWorld (writeFileSync outputLocation fullTypingsFormatted) in
    let* _ := onThis clearState in
    let* s := get in
    let* _ := if watch (context (fst s)) then watchForChanges else ret tt in
    let* s := get in
    ret {| outputLocation := outputLocation;
           abiJsonFileLocation := getAbiFileFullPathLocation (context (fst s)) |}.

End Generator.

(** ** Vocabulary of the statements *)

Section Vocabulary.
Context `{Collaborators}.

(** Hoare triples over the monad; the postcondition sees a throw too. *)
Definition hoare {S A} (P : S -> Prop) (m : M S A)
  (Q : Result A -> S -> Prop) : Prop :=
  forall s, P s -> Q (fst (m s)) (snd (m s)).

(** [m] keeps the invariant [I], whether it returns or throws. *)
Definition keeps {S A} (I : S -> Prop) (m : M S A) : Prop :=
  hoare I m (fun _ s => I s).

(** Whatever [m] throws satisfies [P]. *)
Definition raises {S A} (P : Error -> Prop) (m : M S A) : Prop :=
  forall s, match fst (m s) with Throw e => P e | Ok _ => True end.

(** The generator with [ds] pushed, in order, onto its interface texts. *)
Definition addInterfaces (ds : list string) (g : AbiGenerator) : AbiGenerator :=
  {| context := context g;
     parametersAndReturnTypeInterfaces := parametersAndReturnTypeInterfaces g ++ ds;
     events := events g;
     methodNames := methodNames g |}.

Definition addEvents (ns : list string) (g : AbiGenerator) : AbiGenerator :=
  {| context := context g;
     parametersAndReturnTypeInterfaces := parametersAndReturnTypeInterfaces g;
     events := events g ++ ns;
     methodNames := methodNames g |}.

Definition addMethodNames (ns : list string) (g : AbiGenerator) : AbiGenerator :=
  {| context := context g;
     parametersAndReturnTypeInterfaces := parametersAndReturnTypeInterfaces g;
     events := events g;
     methodNames := methodNames g ++ ns |}.

Definition withProvider (p : Provider.t) (g : AbiGenerator) : AbiGenerator :=
  let c := context g in
  setContext
    {| abiFileLocation := abiFileLocation c;
       outputPathDirectory := outputPathDirectory c;
       name := name c;
       provider := p;
       prettierOptions := prettierOptions c;
       watch := watch c |} g.

(** The factory a supported provider selects. *)
Definition factoryOf (p : Provider.t) : option Factory :=
  match p with
  | Provider.web3 => Some web3Factory
  | Provider.ethers => Some ethersFactory
  | Provider.unsupported _ => None
  end.

Definition isTuple (x : AbiInput) : bool :=
  String.eqb (in_type x) SolidityType_tuple.

(** One field of an auxiliary interface. *)
Definition field (fieldName fieldType : string) : string :=
  fieldName +:+ ": " +:+ getSolidityTsType fieldType +:+ ";".

Definition componentFields (components : list AbiInput) : string :=
  Js.join (map (fun c => field (in_name c) (in_type c)) components).

Definition outputFields (outputs : list AbiOutput) : string :=
  Js.join (map (fun o => field (out_name o) (out_type o)) outputs).

Definition requestName (itemName : string) : string :=
  capitalize itemName +:+ "Request".

Definition responseName (itemName : string) : string :=
  capitalize itemName +:+ "Response".

(** The request interface of one composite input of the item [itemName]. *)
Definition requestInterface (itemName : string) (x : AbiInput) : string :=
  buildInterface (requestName itemName)
    (componentFields (default [] (in_components x))).

(** The request interfaces of an input list: one per composite input. *)
Definition requestInterfaces (itemName : string) (inputs : list AbiInput)
  : list string :=
  map (requestInterface itemName) (filter (fun x => isTuple x = true) inputs).

(** A composite input carries its components. *)
Definition wellFormedInput (x : AbiInput) : Prop :=
  isTuple x = true -> is_Some (in_components x).

Definition inputsOf (item : AbiItem) : list AbiInput :=
  default [] (item_inputs item).

Definition outputsOf (item : AbiItem) : list AbiOutput :=
  default [] (item_outputs item).

Definition isCallable (item : AbiItem) : bool :=
  match item_type item with
  | AbiItemType.constructor | AbiItemType.function => true
  | _ => false
  end.

(** The items [buildAbiInterface] builds a signature for have well-formed inputs. *)
Definition wellFormedAbi (abi : list AbiItem) : Prop :=
  Forall (fun item => isCallable item = true ->
                      Forall wellFormedInput (inputsOf item)) abi.

(** The text of one parameter and of a parameter list. *)
Definition parameterEntry (itemName : string) (i : nat) (x : AbiInput) : string :=
  (if Nat.eqb (String.length (in_name x)) 0 then "parameter" +:+ pretty i
   else in_name x)
  +:+ ": "
  +:+ (if isTuple x then requestName itemName else getSolidityTsType (in_type x)).

Fixpoint entriesFrom (itemName : string) (i : nat) (inputs : list AbiInput)
  : list string :=
  match inputs with
  | [] => []
  | x :: rest => parameterEntry itemName i x :: entriesFrom itemName (S i) rest
  end.

(** The separator rule of [buildParameters]: a comma unless the text so far
    is the opening parenthesis alone. *)
Fixpoint appendEntries (input : string) (entries : list string) : string :=
  match entries with
  | [] => input
  | e :: rest =>
      appendEntries
        ((if Nat.ltb 1 (String.length input) then input +:+ ", " else input) +:+ e)
        rest
  end.

Fixpoint joinWith (sep : string) (parts : list string) : string :=
  match parts with
  | [] => ""
  | [x] => x
  | x :: rest => x +:+ sep +:+ joinWith sep rest
  end.

(** The response interface of an item with two or more outputs. *)
Definition responseInterfaces (item : AbiItem) : list string :=
  match outputsOf item with
  | _ :: _ :: _ =>
      [buildInterface (responseName (item_name item)) (outputFields (outputsOf item))]
  | _ => []
  end.

(** What one run over [abi] adds to the three lists. *)
Definition auxiliaryInterfaces (abi : list AbiItem) : list string :=
  flat_map (fun item =>
    if isCallable item
    then requestInterfaces (item_name item) (inputsOf item) ++ responseInterfaces item
    else []) abi.

Definition eventNamesOf (abi : list AbiItem) : list string :=
  flat_map (fun item =>
    match item_type item with
    | AbiItemType.event => [item_name item]
    | _ => []
    end) abi.

Definition methodNamesOf (abi : list AbiItem) : list string :=
  flat_map (fun item =>
    match item_type item with
    | AbiItemType.constructor => ["new"]
    | AbiItemType.function => [item_name item]
    | _ => []
    end) abi.

(** The generator with all three lists extended. *)
Definition extend (ds es ms : list string) (g : AbiGenerator) : AbiGenerator :=
  {| context := context g;
     parametersAndReturnTypeInterfaces := parametersAndReturnTypeInterfaces g ++ ds;
     events := events g ++ es;
     methodNames := methodNames g ++ ms |}.

(** Two results of one computation run under the two providers: both
    return, with related values, or both throw the same error. *)
Definition related {A} (R : A -> A -> Prop) (r1 r2 : Result A) : Prop :=
  match r1, r2 with
  | Ok a, Ok b => R a b
  | Throw e1, Throw e2 => e1 = e2
  | _, _ => False
  end.

(** [m1] run with provider web3 and [m2] run on the same generator with
    provider ethers end in the same generator up to the provider, with
    related results. *)
Definition agree {A} (R : A -> A -> Prop) (m1 m2 : M AbiGenerator A) : Prop :=
  forall g,
    provider (context g) = Provider.web3 ->
    snd (m2 (withProvider Provider.ethers g))
    = withProvider Provider.ethers (snd (m1 g))
    /\ provider (context (snd (m1 g))) = Provider.web3
    /\ related R (fst (m1 g)) (fst (m2 (withProvider Provider.ethers g))).

(** The context [c] of a generator that was handed [c0]: paths stripped of
    quotes, name and provider as given, and the stated formatter options and
    watch flag. *)
Definition contextAfter (c0 : GeneratorContext) (po : option Options) (wa : bool)
  (c : GeneratorContext) : Prop :=
  abiFileLocation c = Js.removeQuotes (abiFileLocation c0)
  /\ outputPathDirectory c = Js.removeQuotes <$> outputPathDirectory c0
  /\ name c = name c0
  /\ provider c = provider c0
  /\ prettierOptions c = po
  /\ watch c = wa.

(** Since the world had files [fs0] and trace [tr0], no file was written:
    the files are the same and the trace grew by calls that are no write. *)
Definition noWriteSince (fs0 : gmap string FsNode) (tr0 : list IoEvent)
  (w : World) : Prop :=
  files w = fs0
  /\ exists new, trace w = tr0 ++ new /\ Forall (fun ev => isWrite ev = false) new.

(** Successive runs of [generate] on one generator, the world of each run
    being whatever it is by then; [None] as soon as a run throws. *)
Fixpoint runAll (g : AbiGenerator) (worlds : list World) : option AbiGenerator :=
  match worlds with
  | [] => Some g
  | w :: rest =>
      match generate (g, w) with
      | (Ok _, (g', _)) => runAll g' rest
      | (Throw _, _) => None
      end
  end.

(** *** The stages of [generate]

    The body of [generate], cut where one stage ends and the next starts, so
    that each stage can be stated on its own ([generate_stages] below shows
    that [generate] is their composition). *)

Definition fallbackMessage : string :=
  "Your prettier options were not valid so falling back to default one.".

(** Formatting: the [try]/[catch] around [prettier.format]. *)
Definition formatTypings (fullTypings : string) : M (AbiGenerator * World) string :=
  tryCatch
    (let* options := onThis getPrettierOptions in
     prettierFormat fullTypings options)
    (let* _ := onWorld (loggerLog fallbackMessage) in
     let* _ := onWorld (loggerLog "") in
     prettierFormat fullTypings getDefaultPrettierOptions).

(** Writing, clearing the state, registering the watcher, answering. *)
Definition writeAndFinish (fullTypingsFormatted : string)
  : M (AbiGenerator * World) GenerateResponse :=
  let* s := get in
  let outputLocation := buildOutputLocation (context (fst s)) in
  let* _ := onWorld (writeFileSync outputLocation fullTypingsFormatted) in
  let* _ := onThis clearState in
  let* s := get in
  let* _ := if watch (context (fst s)) then watchForChanges else ret tt in
  let* s := get in
  ret {| outputLocation := outputLocation;
         abiJsonFileLocation := getAbiFileFullPathLocation (context (fst s)) |}.

(** Everything before the formatting: the quotes cleared, the output
    directory checked, the ABI loaded, and the typings built. *)
Definition loadAndBuild : M (AbiGenerator * World) string :=
  let* _ := onThis clearAllQuotesFromContextInfo in
  let* s := get in
  let* isDir := onWorld (isDirectory (getOutputPathDirectory (context (fst s)))) in
  if negb isDir then throw OutputPathNotDirectory
  else
    let* abi := getAbiJson in
    let* abiTypedInterface := onThis (buildAbiInterface abi) in
    onThis (buildFullTypings abi abiTypedInterface).

(** The run of [generate] on [g] in [w] gets as far as the formatting: all
    that comes before it returned. *)
Definition formattingReached (g : AbiGenerator) (w : World) : bool :=
  isOk (fst (loadAndBuild (g, w))).

(** Everything after the ABI is loaded. *)
Definition buildAndWrite (abi : AbiJson) : M (AbiGenerator * World) GenerateResponse :=
  let* abiTypedInterface := onThis (buildAbiInterface abi) in
  let* fullTypings := onThis (buildFullTypings abi abiTypedInterface) in
  let* fullTypingsFormatted := formatTypings fullTypings in
  writeAndFinish fullTypingsFormatted.

(** The options [getPrettierOptions] answers for a context, and the
    generator it leaves. *)
Definition formatterOptions (c : GeneratorContext) : Options :=
  match prettierOptions c with
  | Some o => setParser "typescript" o
  | None => getDefaultPrettierOptions
  end.

Definition parserForced (g : AbiGenerator) : AbiGenerator :=
  let c := context g in
  setContext
    {| abiFileLocation := abiFileLocation c;
       outputPathDirectory := outputPathDirectory c;
       name := name c;
       provider := provider c;
       prettierOptions := setParser "typescript" <$> prettierOptions c;
       watch := watch c |} g.

(** The generator with its three lists emptied. *)
Definition cleared (g : AbiGenerator) : AbiGenerator :=
  {| context := context g;
     parametersAndReturnTypeInterfaces := [];
     events := [];
     methodNames := [] |}.

(** The world after lines were logged, a file was written, a watcher was
    registered. *)
Definition logLines (lines : list string) (w : World) : World :=
  {| files := files w;
     watchers := watchers w;
     logged := logged w ++ lines;
     trace := trace w |}.

Definition written (p text : string) (w : World) : World :=
  {| files := <[path_resolve p := File text]> (files w);
     watchers := watchers w;
     logged := logged w;
     trace := trace w ++ [IoWrite p] |}.

Definition watched (p : string) (w : World) : World :=
  {| files := files w;
     watchers := watchers w ++ [path_resolve p];
     logged := logged w;
     trace := trace w ++ [IoWatch p] |}.

(** The world after the output directory was inspected and the ABI file
    read, for a generator whose quotes are cleared. *)
Definition loadedWorld (c : GeneratorContext) (w : World) : World :=
  let d := getOutputPathDirectory c in
  let p := getAbiFileFullPathLocation c in
  record (IoRead p) (record (IoExists p) (record (IoLstat d) (record (IoExists d) w))).

(** A string without the single-quote character. *)
Fixpoint quoteFree (s : string) : bool :=
  match s with
  | EmptyString => true
  | String c r => negb (Ascii.eqb c "'"%char) && quoteFree r
  end.

(** [c] does not occur in [s]. *)
Fixpoint without (c : ascii) (s : string) : bool :=
  match s with
  | EmptyString => true
  | String x r => negb (Ascii.eqb x c) && without c r
  end.

(** The items the switch of [buildAbiInterface] has a case for. *)
Definition hasCase (item : AbiItem) : bool :=
  match item_type item with
  | AbiItemType.other _ => false
  | _ => true
  end.

(** [g'] is [g] with entries appended to its three lists, nothing else
    changed. *)
Definition grows (g g' : AbiGenerator) : Prop :=
  exists ds es ms, g' = extend ds es ms g.

(** The type named in the return expression of an item. *)
Definition returnTypeName (item : AbiItem) : string :=
  match outputsOf item with
  | [] => "void"
  | [o] => getSolidityTsType (out_type o)
  | _ => responseName (item_name item)
  end.

(** The signature of a callable item under the factory [F], and the
    property the item contributes to the main interface. *)
Definition signatureOf (F : Factory) (item : AbiItem) : string :=
  ("(" +:+ joinWith ", " (entriesFrom (item_name item) 0 (inputsOf item)) +:+ ")")
  +:+ f_buildMethodReturnContext F (returnTypeName item) item.

Definition propertyOf (F : Factory) (item : AbiItem) : string :=
  match item_type item with
  | AbiItemType.constructor =>
      buildInterfacePropertyDocs item +:+ "'new'" +:+ signatureOf F item +:+ ";"
  | AbiItemType.function =>
      buildInterfacePropertyDocs item +:+ item_name item
      +:+ signatureOf F item +:+ ";"
  | _ => ""
  end.

(** A result that is a throw of a source-format error. *)
Definition throwsSourceError {A} (r : Result A) : bool :=
  match r with
  | Throw e => isSourceError e
  | Ok _ => false
  end.

Definition throwsConfigurationError {A} (r : Result A) : bool :=
  match r with
  | Throw e => isConfigurationError e
  | Ok _ => false
  end.

End Vocabulary.

(** Well-formedness of a concrete input list or item list, by evaluation. *)
Ltac solve_wellFormed :=
  repeat match goal with
  | |- wellFormedAbi _ => unfold wellFormedAbi
  | |- Forall _ _ => constructor
  | |- wellFormedInput _ =>
      let E := fresh "E" in
      intros E; first [ eexists; reflexivity | vm_compute in E; discriminate E ]
  | |- _ -> _ => intros _
  | |- _ => progress cbv beta
  end.

(** ** A concrete set of collaborators

    The theorems below hold for every [Collaborators]; to run the model on
    concrete inputs one instance is fixed here. *)

Module Sample.

(** Modelled from the spec: [Helpers.capitalize] is not among the sources;
    the spec gives "first character uppercased, rest untouched". *)
Definition capitalize (s : string) : string :=
  match s with
  | EmptyString => EmptyString
  | String c r =>
      let n := nat_of_ascii c in
      if Nat.leb 97 n && Nat.leb n 122 then String (ascii_of_nat (n - 32)) r
      else String c r
  end.

(** Modelled from the spec: [TypeScriptHelpers.buildInterface] is not among
    the sources and the spec fixes no text for it; this instance wraps the
    name and the properties so that both stay readable in an output. *)
Definition buildInterface (name properties : string) : string :=
  "interface " +:+ name +:+ " { " +:+ properties +:+ " } ".

(** Modelled from the spec: [TypeScriptHelpers.buildType] is not among the
    sources and the spec fixes no text for it; this instance lists the
    names, each followed by a bar. *)
Definition buildType (name : string) (types : list string) : string :=
  "type " +:+ name +:+ " = "
  +:+ foldr (fun t acc => "'" +:+ t +:+ "' | " +:+ acc) "never; " types.

(** Modelled from the spec: [TypeScriptHelpers.getSolidityTsType] is not
    among the sources; the spec maps bool to boolean, address and string to
    string, and every unrecognised tag to the fallback any.  Only these tags
    are used below. *)
Definition getSolidityTsType (type : string) : string :=
  if String.eqb type "bool" then "boolean"
  else if String.eqb type "address" then "string"
  else if String.eqb type "string" then "string"
  else "any".

(** Modelled from the spec: the two factories are not among the sources; the
    spec leaves their shapes to the provider.  Each instance marks its text
    with the provider and lists the names of the event items. *)
Definition eventNames (abiItems : list AbiItem) : string :=
  foldr (fun item acc =>
           match item_type item with
           | AbiItemType.event => item_name item +:+ ": Event; " +:+ acc
           | _ => acc
           end) "" abiItems.

Definition web3Factory : Factory :=
  {| f_buildInterfaces := fun abiName => "/* web3 " +:+ abiName +:+ " */ ";
     f_buildEventInterfaceProperties := eventNames;
     f_buildEventInterfaceProperties_other := fun _ => Some "";
     f_buildMethodReturnContext :=
       fun type _ => ": MethodReturnContext<" +:+ type +:+ ">" |}.

Definition ethersFactory : Factory :=
  {| f_buildInterfaces := fun abiName => "/* ethers " +:+ abiName +:+ " */ ";
     f_buildEventInterfaceProperties := eventNames;
     f_buildEventInterfaceProperties_other := fun _ => Some "";
     f_buildMethodReturnContext :=
       fun type _ => ": Promise<" +:+ type +:+ ">" |}.

(** Node's [path.resolve(process.cwd(), p)] for the working directory
    [/work], on paths without [.] or [..] segments. *)
Definition path_resolve (p : string) : string :=
  match p with
  | String c _ => if Ascii.eqb c "/"%char then p else "/work/" +:+ p
  | EmptyString => "/work"
  end.

(** The segments of a path, and [path.dirname] and [path.basename] for
    absolute paths of at least two segments without a trailing slash. *)
Definition segments (p : string) : list string := Js.split "/"%char p.

Fixpoint joinSegments (l : list string) : string :=
  match l with
  | [] => ""
  | [x] => x
  | x :: r => x +:+ "/" +:+ joinSegments r
  end.

Definition path_dirname (p : string) : string :=
  joinSegments (removelast (segments p)).

Definition path_basename (p : string) : string :=
  List.last (segments p) "".

(** The texts of the files used below, and what [JSON.parse] makes of them.
    [abiText] stands for the serialisation of [abiItems]. *)
Definition transfer : AbiItem :=
  {| item_type := AbiItemType.function;
     item_name := "transfer";
     item_inputs := Some [ mkAbiInput "to" "address" None None;
                           mkAbiInput "" "bool" None None ];
     item_outputs := Some [ mkAbiOutput "" "bool" None ];
     item_payable := Some false;
     item_constant := Some false;
     item_stateMutability := Some "nonpayable" |}.

Definition Transfer : AbiItem :=
  {| item_type := AbiItemType.event;
     item_name := "Transfer";
     item_inputs := Some [ mkAbiInput "from" "address" (Some true) None ];
     item_outputs := None;
     item_payable := None;
     item_constant := None;
     item_stateMutability := None |}.

Definition abiItems : list AbiItem := [transfer; Transfer].

Definition abiText : string := "[ transfer, Transfer ]".

Definition eventsText : string := "[ Transfer ]".

Definition JSON_parse (text : string) : option AbiJson :=
  if String.eqb text "{}" then Some (JsonOther JsonEmptyObject)
  else if String.eqb text "null" then Some (JsonOther JsonNull)
  else if String.eqb text "[]" then Some (JsonArray [])
  else if String.eqb text abiText then Some (JsonArray abiItems)
  else if String.eqb text eventsText then Some (JsonArray [Transfer])
  else None.

(** prettier, as the identity on every source when the parser is set. *)
Definition prettier_format (source : string) (options : Options)
  : option string :=
  match parser options with
  | Some _ => Some source
  | None => None
  end.

#[export] Instance collaborators : Collaborators :=
  mkCollaborators capitalize buildInterface buildType getSolidityTsType
    "tuple" web3Factory ethersFactory prettier_format
    path_resolve path_dirname path_basename JSON_parse.

Definition ctx (p : Provider.t) : GeneratorContext :=
  {| abiFileLocation := "'abis/token.json'";
     outputPathDirectory := Some "/out";
     name := None;
     provider := p;
     prettierOptions := None;
     watch := false |}.

Definition world (text : string) : World :=
  {| files := {[ "/out" := Dir; "/work/abis/token.json" := File text ]};
     watchers := [];
     logged := [];
     trace := [] |}.

(** The same world with a directory where the output file should go. *)
Definition blockedWorld (text : string) : World :=
  {| files := {[ "/out" := Dir; "/out/token.ts" := Dir;
                 "/work/abis/token.json" := File text ]};
     watchers := [];
     logged := [];
     trace := [] |}.

(** A world without the ABI file. *)
Definition emptyWorld : World :=
  {| files := {[ "/out" := Dir ]};
     watchers := [];
     logged := [];
     trace := [] |}.

Definition ctxWithOptions : GeneratorContext :=
  {| abiFileLocation := "abis/token.json";
     outputPathDirectory := Some "/out";
     name := None;
     provider := Provider.web3;
     prettierOptions := Some (mkOptions (Some "babel") None None None None);
     watch := true |}.

(** A composite input whose only component is composite itself. *)
Definition nested : AbiInput :=
  mkAbiInput "order" "tuple" None
    (Some [ mkAbiInput "maker" "tuple" None
              (Some [ mkAbiInput "account" "address" None None ]) ]).

Definition pair : AbiInput :=
  mkAbiInput "pair" "tuple" None
    (Some [ mkAbiInput "left" "address" None None;
            mkAbiInput "right" "bool" None None ]).

(** A function with two composite inputs and three outputs. *)
Definition swap : AbiItem :=
  {| item_type := AbiItemType.function;
     item_name := "swap";
     item_inputs := Some [ pair; mkAbiInput "" "bool" None None; nested ];
     item_outputs := Some [ mkAbiOutput "ok" "bool" None;
                            mkAbiOutput "to" "address" None;
                            mkAbiOutput "memo" "string" None ];
     item_payable := Some false;
     item_constant := Some false;
     item_stateMutability := Some "nonpayable" |}.


(** A world without the output directory. *)
Definition noDirectoryWorld : World :=
  {| files := {[ "/work/abis/token.json" := File abiText ]};
     watchers := [];
     logged := [];
     trace := [] |}.

(** prettier refusing options whose trailing-comma setting it does not know. *)
Definition strictPrettier (source : string) (options : Options) : option string :=
  match trailingComma options with
  | Some t =>
      if String.eqb t "es5" || String.eqb t "none" || String.eqb t "all"
      then Some source
      else None
  | None => Some source
  end.

Definition strictCollaborators : Collaborators :=
  mkCollaborators capitalize buildInterface buildType getSolidityTsType
    "tuple" web3Factory ethersFactory strictPrettier
    path_resolve path_dirname path_basename JSON_parse.

(** prettier refusing every source. *)
Definition brokenCollaborators : Collaborators :=
  mkCollaborators capitalize buildInterface buildType getSolidityTsType
    "tuple" web3Factory ethersFactory (fun _ _ => None)
    path_resolve path_dirname path_basename JSON_parse.

Definition ctxUnknownOptions : GeneratorContext :=
  {| abiFileLocation := "abis/token.json";
     outputPathDirectory := Some "/out";
     name := None;
     provider := Provider.web3;
     prettierOptions :=
       Some (mkOptions None (Some "sometimes") None None None);
     watch := false |}.

(** The typings of the ABI that holds the event [Transfer] alone. *)
Definition eventsMain : string := "interface Token {  } ".

Definition eventsTypings : string :=
  "/* web3 Token */ type TokenEvents = 'Transfer' | never; interface TokenEventsContext { Transfer: Event;  } type TokenMethodNames = never; interface Token {  } ".

(** A function whose second composite input carries no components. *)
Definition malformed : AbiItem :=
  {| item_type := AbiItemType.function;
     item_name := "swap";
     item_inputs := Some [ pair; mkAbiInput "order" "tuple" None None; nested ];
     item_outputs := None;
     item_payable := None;
     item_constant := None;
     item_stateMutability := None |}.

End Sample.

(** * Properties *)

(** ** Strings *)

Lemma string_app_cons (c : ascii) (a b : string) :
  String c a +:+ b = String c (a +:+ b).
Proof. reflexivity. Qed.

Lemma string_app_nil_l (a : string) : "" +:+ a = a.
Proof. reflexivity. Qed.

Lemma string_app_assoc (a b c : string) : (a +:+ b) +:+ c = a +:+ (b +:+ c).
Proof.
  induction a as [|x a IH]; [reflexivity|].
  rewrite !string_app_cons. now f_equal.
Qed.

Lemma string_app_nil_r (a : string) : a +:+ "" = a.
Proof.
  induction a as [|x a IH]; [reflexivity|].
  rewrite string_app_cons. now f_equal.
Qed.

Lemma string_length_app (a b : string) :
  String.length (a +:+ b) = String.length a + String.length b.
Proof.
  induction a as [|x a IH]; [reflexivity|].
  rewrite string_app_cons. simpl. now f_equal.
Qed.

Lemma removeQuotes_idempotent (s : string) :
  Js.removeQuotes (Js.removeQuotes s) = Js.removeQuotes s.
Proof.
  induction s as [|c s IH]; simpl; [reflexivity|].
  destruct (Ascii.eqb c "'") eqn:E; simpl; [assumption|].
  now rewrite E, IH.
Qed.

(** ** The monad *)

Section MonadLaws.
Context {S : Type}.

Lemma bind_ok {A B} (m : M S A) (k : A -> M S B) s a s' :
  m s = (Ok a, s') -> bind m k s = k a s'.
Proof. intros E. unfold bind. now rewrite E. Qed.

Lemma bind_throw {A B} (m : M S A) (k : A -> M S B) s e s' :
  m s = (Throw e, s') -> bind m k s = (Throw e, s').
Proof. intros E. unfold bind. now rewrite E. Qed.

Lemma bind_ok_inv {A B} (m : M S A) (k : A -> M S B) s b s' :
  bind m k s = (Ok b, s') ->
  exists a s1, m s = (Ok a, s1) /\ k a s1 = (Ok b, s').
Proof.
  unfold bind. destruct (m s) as [[a|e] s1]; intros E; [eauto | discriminate].
Qed.

Lemma hoare_ret {A} (P : S -> Prop) (a : A) (Q : Result A -> S -> Prop) :
  (forall s, P s -> Q (Ok a) s) -> hoare P (ret a) Q.
Proof. intros HQ s Hs. now apply HQ. Qed.

Lemma hoare_throw {A} (P : S -> Prop) e (Q : Result A -> S -> Prop) :
  (forall s, P s -> Q (Throw e) s) -> hoare P (throw e) Q.
Proof. intros HQ s Hs. now apply HQ. Qed.

Lemma hoare_bind {A B} (P : S -> Prop) (m : M S A) (k : A -> M S B)
  (R : Result A -> S -> Prop) (Q : Result B -> S -> Prop) :
  hoare P m R ->
  (forall a, hoare (R (Ok a)) (k a) Q) ->
  (forall e s, R (Throw e) s -> Q (Throw e) s) ->
  hoare P (bind m k) Q.
Proof.
  intros Hm Hk He s Hs. specialize (Hm s Hs). unfold bind.
  destruct (m s) as [[a|e] s1]; simpl in Hm.
  - now apply Hk.
  - now apply He.
Qed.

Lemma hoare_tryCatch {A} (P : S -> Prop) (m h : M S A)
  (R : S -> Prop) (Q : Result A -> S -> Prop) :
  hoare P m (fun r s => match r with Ok a => Q (Ok a) s | Throw _ => R s end) ->
  hoare R h Q ->
  hoare P (tryCatch m h) Q.
Proof.
  intros Hm Hh s Hs. specialize (Hm s Hs). unfold tryCatch.
  destruct (m s) as [[a|e] s1]; simpl in Hm; [assumption | now apply Hh].
Qed.

Lemma hoare_weaken {A} (P P' : S -> Prop) (m : M S A)
  (Q Q' : Result A -> S -> Prop) :
  hoare P' m Q' ->
  (forall s, P s -> P' s) ->
  (forall r s, Q' r s -> Q r s) ->
  hoare P m Q.
Proof. intros Hm HP HQ s Hs. apply HQ, Hm, HP, Hs. Qed.

End MonadLaws.

(** ** Auxiliary interfaces *)

Section Builders.
Context `{Collaborators}.

Lemma addInterfaces_nil g : addInterfaces [] g = g.
Proof. destruct g. unfold addInterfaces. simpl. now rewrite app_nil_r. Qed.

Lemma addInterfaces_app ds es g :
  addInterfaces es (addInterfaces ds g) = addInterfaces (ds ++ es) g.
Proof. unfold addInterfaces. simpl. now rewrite app_assoc. Qed.

Lemma foldl_addProperty {X} (nameOf typeOf : X -> string) (l : list X) acc :
  foldl (fun properties c => addProperty properties (nameOf c) (typeOf c)) acc l
  = acc +:+ Js.join (map (fun c => field (nameOf c) (typeOf c)) l).
Proof.
  revert acc. induction l as [|c l IH]; intros acc; simpl.
  - now rewrite string_app_nil_r.
  - rewrite IH. unfold addProperty, field. now rewrite !string_app_assoc.
Qed.

(** What [buildTupleParametersInterface] does on a composite input that
    carries its components. *)
Lemma buildTupleParametersInterface_spec n x cs g :
  in_components x = Some cs ->
  buildTupleParametersInterface n x g
  = (Ok (requestName n),
     addInterfaces [buildInterface (requestName n) (componentFields cs)] g).
Proof.
  intros E. unfold buildTupleParametersInterface. rewrite E.
  unfold bind, modify, ret. simpl. now rewrite foldl_addProperty.
Qed.

Lemma buildTupleParametersInterface_missing n x g :
  in_components x = None ->
  buildTupleParametersInterface n x g = (Throw (TypeError "components"), g).
Proof. intros E. unfold buildTupleParametersInterface. now rewrite E. Qed.

Lemma requestInterfaces_cons_tuple n x xs :
  isTuple x = true ->
  requestInterfaces n (x :: xs) = requestInterface n x :: requestInterfaces n xs.
Proof.
  intros E. unfold requestInterfaces. now rewrite filter_cons_True.
Qed.

Lemma requestInterfaces_cons_other n x xs :
  isTuple x = false ->
  requestInterfaces n (x :: xs) = requestInterfaces n xs.
Proof.
  intros E. unfold requestInterfaces.
  rewrite filter_cons_False; [reflexivity | congruence].
Qed.

(** The loop of [buildParameters]: its text and its effect on the state. *)
Lemma buildParametersFrom_spec n xs :
  Forall wellFormedInput xs ->
  forall i input g,
    buildParametersFrom n i xs input g
    = (Ok (appendEntries input (entriesFrom n i xs)),
       addInterfaces (requestInterfaces n xs) g).
Proof.
  induction 1 as [|x xs Hx _ IH]; intros i input g.
  - simpl. now rewrite addInterfaces_nil.
  - simpl. unfold parameterEntry, inputNameAt.
    destruct (isTuple x) eqn:T; unfold isTuple in T; rewrite T.
    + destruct (Hx T) as [cs Ecs].
      erewrite bind_ok by (apply buildTupleParametersInterface_spec, Ecs).
      rewrite IH, addInterfaces_app.
      rewrite requestInterfaces_cons_tuple by exact T.
      unfold requestInterface. now rewrite Ecs.
    + rewrite IH. now rewrite requestInterfaces_cons_other by exact T.
Qed.

Lemma appendEntries_later input es :
  1 < String.length input ->
  appendEntries input es = input +:+ Js.join (map (fun e => ", " +:+ e) es).
Proof.
  revert input. induction es as [|e es IH]; intros input Hlen; simpl.
  - now rewrite string_app_nil_r.
  - destruct (Nat.ltb_spec 1 (String.length input)) as [_|?]; [|lia].
    rewrite IH.
    + now rewrite !string_app_assoc.
    + rewrite !string_length_app. lia.
Qed.

Lemma joinWith_cons sep e es :
  joinWith sep (e :: es) = e +:+ Js.join (map (fun x => sep +:+ x) es).
Proof.
  revert e. induction es as [|e' es IH]; intros e.
  - simpl. now rewrite string_app_nil_r.
  - change (joinWith sep (e :: e' :: es)) with (e +:+ sep +:+ joinWith sep (e' :: es)).
    rewrite IH. simpl. now rewrite !string_app_assoc.
Qed.

Lemma appendEntries_open es :
  Forall (fun e => 0 < String.length e) es ->
  appendEntries "(" es = "(" +:+ joinWith ", " es.
Proof.
  destruct 1 as [|e es He _]; [reflexivity|].
  rewrite joinWith_cons. cbn [appendEntries String.length Nat.ltb Nat.leb].
  rewrite appendEntries_later.
  - now rewrite string_app_assoc.
  - rewrite string_length_app. simpl. lia.
Qed.

Lemma parameterEntry_nonempty n i x : 0 < String.length (parameterEntry n i x).
Proof.
  unfold parameterEntry. rewrite !string_length_app. simpl. lia.
Qed.

Lemma entriesFrom_nonempty n xs i :
  Forall (fun e => 0 < String.length e) (entriesFrom n i xs).
Proof.
  revert i. induction xs as [|x xs IH]; intros i; simpl; constructor.
  - apply parameterEntry_nonempty.
  - apply IH.
Qed.

Lemma entriesFrom_lookup n xs k i :
  entriesFrom n k xs !! i = parameterEntry n (k + i) <$> xs !! i.
Proof.
  revert k i. induction xs as [|x xs IH]; intros k i; [reflexivity|].
  destruct i as [|i]; simpl.
  - now rewrite Nat.add_0_r.
  - rewrite IH. now rewrite Nat.add_succ_r.
Qed.

End Builders.

(** ** Parameters, composite inputs and return types *)

Section Signatures.
Context `{Collaborators}.

Lemma buildMethodReturnContext_known F type item g :
  factoryOf (provider (context g)) = Some F ->
  buildMethodReturnContext type item g
  = (Ok (f_buildMethodReturnContext F type item), g).
Proof.
  unfold buildMethodReturnContext, bind, get, factoryOf.
  destruct (provider (context g)); intros E; inversion E; reflexivity.
Qed.

Lemma buildMethodReturnContext_unsupported tag type item g :
  provider (context g) = Provider.unsupported tag ->
  buildMethodReturnContext type item g = (Throw (UnknownProvider tag), g).
Proof.
  intros E. unfold buildMethodReturnContext, bind, get. now rewrite E.
Qed.

Lemma buildParameters_spec item g :
  Forall wellFormedInput (inputsOf item) ->
  buildParameters item g
  = (Ok ("(" +:+ joinWith ", " (entriesFrom (item_name item) 0 (inputsOf item))
           +:+ ")"),
     addInterfaces (requestInterfaces (item_name item) (inputsOf item)) g).
Proof.
  intros Hwf. unfold buildParameters, inputsOf in *.
  destruct (item_inputs item) as [inputs|]; simpl in *.
  - erewrite bind_ok by (apply buildParametersFrom_spec, Hwf).
    unfold ret. rewrite appendEntries_open by apply entriesFrom_nonempty.
    now rewrite string_app_assoc.
  - unfold bind, ret. now rewrite addInterfaces_nil.
Qed.


(** C6 (amended).  Expanding a composite input maps every component, whether
    or not its own type is composite, through [getSolidityTsType] on its type
    tag; there is no recursive call, and exactly one declaration is appended
    whatever the components contain. *)
Theorem composite_components_are_mapped_not_expanded n x cs g :
  in_components x = Some cs ->
  buildTupleParametersInterface n x g
  = (Ok (capitalize n +:+ "Request"),
     addInterfaces
       [buildInterface (capitalize n +:+ "Request")
          (Js.join (map (fun c => in_name c +:+ ": "
                                  +:+ getSolidityTsType (in_type c) +:+ ";") cs))]
       g)
  /\ length (parametersAndReturnTypeInterfaces
               (snd (buildTupleParametersInterface n x g)))
     = S (length (parametersAndReturnTypeInterfaces g)).
Proof.
  intros E. rewrite (buildTupleParametersInterface_spec n x cs g E).
  split; [reflexivity|]. simpl. rewrite length_app. simpl. lia.
Qed.

(** C7.  With a supported provider, the return expression of an item is the
    provider's wrapping of [void] when there is no output, of the mapped type
    of the output when there is exactly one, and of the name
    [capitalize item.name + "Response"] when there are two or more; in the
    last case exactly one response interface of that name, with one field per
    output in output order, is appended to the accumulator, and in the first
    two cases the accumulator is left as it was. *)
Theorem return_type_follows_output_count (item : AbiItem) F g :
  factoryOf (provider (context g)) = Some F ->
  (outputsOf item = [] ->
     buildPropertyReturnTypeInterface item g
     = (Ok (f_buildMethodReturnContext F "void" item), g))
  /\ (forall o, item_outputs item = Some [o] ->
        buildPropertyReturnTypeInterface item g
        = (Ok (f_buildMethodReturnContext F (getSolidityTsType (out_type o)) item),
           g))
  /\ (forall outputs, item_outputs item = Some outputs -> 2 <= length outputs ->
        buildPropertyReturnTypeInterface item g
        = (Ok (f_buildMethodReturnContext F
                 (capitalize (item_name item) +:+ "Response") item),
           addInterfaces
             [buildInterface (capitalize (item_name item) +:+ "Response")
                (Js.join (map (fun o => out_name o +:+ ": "
                                        +:+ getSolidityTsType (out_type o) +:+ ";")
                            outputs))]
             g)).
Proof.
  intros HF. unfold buildPropertyReturnTypeInterface, outputsOf.
  split; [|split].
  - destruct (item_outputs item) as [[|o os]|]; simpl; intros E;
      try discriminate; now apply buildMethodReturnContext_known.
  - intros o E. rewrite E. now apply buildMethodReturnContext_known.
  - intros outputs E Hlen. rewrite E.
    destruct outputs as [|o1 [|o2 os]]; simpl in Hlen; try lia.
    unfold bind at 1. unfold modify.
    rewrite (buildMethodReturnContext_known F) by exact HF.
    now rewrite foldl_addProperty.
Qed.

(** C2, at the failing input.  For a function with two outputs whose names
    are empty, the fields of the response interface keep the empty names:
    each field is [": " + type + ";"], and no [parameter0] or [parameter1] is
    generated. *)
Theorem unnamed_outputs_keep_empty_field_names g :
  parametersAndReturnTypeInterfaces
    (snd (buildPropertyReturnTypeInterface
            {| item_type := AbiItemType.function;
               item_name := "f";
               item_inputs := Some [];
               item_outputs := Some [ mkAbiOutput "" "uint256" None;
                                      mkAbiOutput "" "bool" None ];
               item_payable := None;
               item_constant := None;
               item_stateMutability := None |}
            g))
  = parametersAndReturnTypeInterfaces g
    ++ [ buildInterface (capitalize "f" +:+ "Response")
           (": " +:+ getSolidityTsType "uint256" +:+ ";"
            +:+ ": " +:+ getSolidityTsType "bool" +:+ ";") ].
Proof.
  unfold buildPropertyReturnTypeInterface. cbn [item_outputs item_name].
  unfold bind at 1. unfold modify.
  unfold buildMethodReturnContext, bind, get.
  cbn [foldl out_name out_type]. unfold addProperty.
  rewrite !string_app_nil_l, !string_app_assoc.
  destruct (provider (context (pushInterface _ g))); reflexivity.
Qed.

(** X1.  The parameter list of an item: the entries in input order, separated by
    commas, and an input whose name is empty is called [parameter] followed
    by its zero-based position in the item's inputs. *)
Theorem unnamed_input_is_named_by_position (item : AbiItem) g :
  Forall wellFormedInput (inputsOf item) ->
  fst (buildParameters item g)
  = Ok ("(" +:+ joinWith ", " (entriesFrom (item_name item) 0 (inputsOf item))
          +:+ ")")
  /\ (forall i x,
        inputsOf item !! i = Some x -> in_name x = "" ->
        entriesFrom (item_name item) 0 (inputsOf item) !! i
        = Some ("parameter" +:+ pretty i +:+ ": "
                +:+ (if isTuple x then capitalize (item_name item) +:+ "Request"
                     else getSolidityTsType (in_type x)))).
Proof.
  intros Hwf. rewrite (buildParameters_spec item g Hwf). split; [reflexivity|].
  intros i x Hx Hname. rewrite entriesFrom_lookup, Hx. simpl.
  unfold parameterEntry. rewrite Hname. simpl.
  now rewrite string_app_assoc.
Qed.

End Signatures.

(** ** One run over the ABI: what it adds to the accumulator *)

Section Run.
Context `{Collaborators}.

Lemma extend_nil g : extend [] [] [] g = g.
Proof. destruct g. unfold extend. simpl. now rewrite !app_nil_r. Qed.

Lemma extend_extend a b c a' b' c' g :
  extend a' b' c' (extend a b c g) = extend (a ++ a') (b ++ b') (c ++ c') g.
Proof. unfold extend. simpl. now rewrite !app_assoc. Qed.

Lemma addInterfaces_extend ds g : addInterfaces ds g = extend ds [] [] g.
Proof. unfold addInterfaces, extend. now rewrite !app_nil_r. Qed.

Lemma pushMethodName_extend n g : pushMethodName n g = extend [] [] [n] g.
Proof. unfold pushMethodName, extend. now rewrite !app_nil_r. Qed.

Lemma pushEvent_extend n g : pushEvent n g = extend [] [n] [] g.
Proof. unfold pushEvent, extend. now rewrite !app_nil_r. Qed.

Lemma foldl_append acc (l : list string) :
  foldl (fun a t => a +:+ t) acc l = acc +:+ Js.join l.
Proof.
  revert acc. induction l as [|t l IH]; intros acc; simpl.
  - now rewrite string_app_nil_r.
  - rewrite IH. now rewrite string_app_assoc.
Qed.

Lemma buildPropertyReturnTypeInterface_ok F item g :
  factoryOf (provider (context g)) = Some F ->
  exists text,
    buildPropertyReturnTypeInterface item g
    = (Ok text, addInterfaces (responseInterfaces item) g).
Proof.
  intros HF.
  unfold buildPropertyReturnTypeInterface, responseInterfaces, responseName,
    outputFields, outputsOf.
  destruct (item_outputs item) as [[|o1 [|o2 os]]|]; cbn [default];
    rewrite ?addInterfaces_nil;
    try (eexists; apply buildMethodReturnContext_known; exact HF).
  unfold bind at 1. unfold modify.
  rewrite (buildMethodReturnContext_known F) by exact HF.
  rewrite foldl_addProperty. eauto.
Qed.

Lemma buildParametersAndReturnTypes_ok F item g :
  factoryOf (provider (context g)) = Some F ->
  Forall wellFormedInput (inputsOf item) ->
  exists sig,
    buildParametersAndReturnTypes item g
    = (Ok sig,
       addInterfaces
         (requestInterfaces (item_name item) (inputsOf item)
            ++ responseInterfaces item) g).
Proof.
  intros HF Hwf. unfold buildParametersAndReturnTypes.
  erewrite bind_ok by (apply buildParameters_spec, Hwf).
  destruct (buildPropertyReturnTypeInterface_ok F item
              (addInterfaces (requestInterfaces (item_name item) (inputsOf item)) g)
              HF) as [text E].
  erewrite bind_ok by exact E. unfold ret.
  rewrite addInterfaces_app. eauto.
Qed.

Lemma buildAbiInterfaceFrom_ok F abi :
  wellFormedAbi abi ->
  forall properties g,
    factoryOf (provider (context g)) = Some F ->
    exists text,
      buildAbiInterfaceFrom abi properties g
      = (Ok text,
         extend (auxiliaryInterfaces abi) (eventNamesOf abi) (methodNamesOf abi) g).
Proof.
  induction 1 as [|item abi Hitem _ IH]; intros properties g HF.
  - simpl. rewrite extend_nil. eauto.
  - simpl. unfold isCallable in *.
    destruct (item_type item) eqn:T.
    + unfold bind at 1. unfold modify.
      destruct (buildParametersAndReturnTypes_ok F item (pushMethodName "new" g)
                  HF (Hitem eq_refl)) as [sig E].
      erewrite bind_ok by exact E.
      edestruct IH as [text Et]; [|rewrite Et].
      { exact HF. }
      rewrite addInterfaces_extend, pushMethodName_extend, !extend_extend.
      simpl. eauto.
    + unfold bind at 1. unfold modify.
      destruct (buildParametersAndReturnTypes_ok F item
                  (pushMethodName (item_name item) g)
                  HF (Hitem eq_refl)) as [sig E].
      erewrite bind_ok by exact E.
      edestruct IH as [text Et]; [|rewrite Et].
      { exact HF. }
      rewrite addInterfaces_extend, pushMethodName_extend, !extend_extend.
      simpl. eauto.
    + unfold bind at 1. unfold modify.
      edestruct IH as [text Et]; [|rewrite Et].
      { exact HF. }
      rewrite pushEvent_extend, !extend_extend. simpl. eauto.
    + simpl. apply IH, HF.
Qed.

End Run.

Section FullTypings.
Context `{Collaborators}.

Lemma factoryOf_extend ds es ms g :
  provider (context (extend ds es ms g)) = provider (context g).
Proof. reflexivity. Qed.

(** A sequence without function or constructor items, the empty one
    included, is well formed whatever its items hold. *)
Lemma wellFormedAbi_no_callable (abi : list AbiItem) :
  Forall (fun item => isCallable item = false) abi -> wellFormedAbi abi.
Proof.
  unfold wellFormedAbi. induction 1 as [|item abi E _ IH]; constructor.
  - intros E'. congruence.
  - exact IH.
Qed.

(** C9.  For every ABI item sequence (with a supported provider, and with
    the components present on the composite inputs of its callable items),
    building does not fail, and the text built is the provider preamble, one
    event-name type over the names of the event items, the event-context
    interface, one method-name type over the names of the callable items (a
    constructor counts as 'new'), the auxiliary interfaces, and the main
    interface, in this order.  A sequence with no function, constructor or
    event item gives both name types the empty list. *)
Theorem full_typings_declare_one_name_type_each ctx F (abi : list AbiItem) :
  factoryOf (provider ctx) = Some F ->
  wellFormedAbi abi ->
  (exists properties,
     let built :=
       {| context := ctx;
          parametersAndReturnTypeInterfaces := auxiliaryInterfaces abi;
          events := eventNamesOf abi;
          methodNames := methodNamesOf abi |} in
     let main := buildInterface (getAbiName ctx) properties in
     buildAbiInterface (JsonArray abi) (newAbiGenerator ctx) = (Ok main, built)
     /\ buildFullTypings (JsonArray abi) main built
        = (Ok (f_buildInterfaces F (getAbiName ctx)
               +:+ buildType (getAbiName ctx +:+ "Events") (eventNamesOf abi)
               +:+ buildInterface (getAbiName ctx +:+ "EventsContext")
                     (f_buildEventInterfaceProperties F abi)
               +:+ buildType (getAbiName ctx +:+ "MethodNames") (methodNamesOf abi)
               +:+ Js.join (auxiliaryInterfaces abi)
               +:+ main),
           built))
  /\ (Forall (fun item => exists tag, item_type item = AbiItemType.other tag) abi ->
      eventNamesOf abi = [] /\ methodNamesOf abi = []
      /\ auxiliaryInterfaces abi = []).
Proof.
  intros HF Hwf. split.
  - destruct (buildAbiInterfaceFrom_ok F abi Hwf "" (newAbiGenerator ctx) HF)
      as [properties E].
    exists properties. cbv zeta. split.
    + unfold buildAbiInterface. erewrite bind_ok by exact E.
      unfold bind, get, ret. reflexivity.
    + unfold factoryOf in HF.
      destruct (provider ctx) eqn:P; inversion HF; subst F;
        unfold buildFullTypings, buildEventsType, buildEventsInterface,
          buildMethodNamesType, buildParametersAndReturnTypeInterfaces,
          eventInterfaceProperties, bind, get, ret;
        repeat first [rewrite P | progress simpl];
        now rewrite foldl_append, !string_app_nil_l.
  - intros Hother. clear Hwf. induction Hother as [|item abi' [tag E] _ IH]; [easy|].
    destruct IH as (IH1 & IH2 & IH3).
    unfold eventNamesOf, methodNamesOf, auxiliaryInterfaces, isCallable in *.
    cbn [flat_map]. now rewrite E, IH1, IH2, IH3.
Qed.

End FullTypings.

(** ** Switching the provider *)

Section ProviderSwitch.
Context `{Collaborators}.

Lemma agree_ret {A} (R : A -> A -> Prop) a b :
  R a b -> agree R (ret a) (ret b).
Proof. intros HR g Hg. simpl. auto. Qed.

Lemma agree_throw {A} (R : A -> A -> Prop) e :
  agree R (throw e) (throw e).
Proof. intros g Hg. simpl. auto. Qed.

Lemma agree_bind {A B} (R : A -> A -> Prop) (R' : B -> B -> Prop)
  (m1 m2 : M AbiGenerator A) (k1 k2 : A -> M AbiGenerator B) :
  agree R m1 m2 ->
  (forall a b, R a b -> agree R' (k1 a) (k2 b)) ->
  agree R' (bind m1 k1) (bind m2 k2).
Proof.
  intros Hm Hk g Hg. destruct (Hm g Hg) as (Hs & Hp & Hr). unfold bind.
  destruct (m1 g) as [[a|e] g1], (m2 (withProvider Provider.ethers g)) as [[b|e'] g2];
    simpl in *; try contradiction; subst.
  - now apply Hk.
  - auto.
Qed.

Lemma agree_modify (f : AbiGenerator -> AbiGenerator) :
  (forall g, f (withProvider Provider.ethers g) = withProvider Provider.ethers (f g)) ->
  (forall g, provider (context (f g)) = provider (context g)) ->
  agree (fun _ _ => True) (modify f) (modify f).
Proof.
  intros Hf Hp g Hg. unfold modify. simpl. rewrite Hf, Hp. auto.
Qed.

Lemma agree_weaken {A} (R R' : A -> A -> Prop) m1 m2 :
  (forall a b, R a b -> R' a b) -> agree R m1 m2 -> agree R' m1 m2.
Proof.
  intros HR Hm g Hg. destruct (Hm g Hg) as (Hs & Hp & Hr).
  split; [assumption|]. split; [assumption|].
  unfold related in *.
  destruct (fst (m1 g)), (fst (m2 (withProvider Provider.ethers g))); auto.
Qed.

Lemma agree_buildMethodReturnContext type1 type2 item :
  agree (fun _ _ => True)
    (buildMethodReturnContext type1 item) (buildMethodReturnContext type2 item).
Proof.
  intros g Hg. unfold buildMethodReturnContext, bind, get. simpl.
  rewrite Hg. simpl. auto.
Qed.

Lemma agree_buildTupleParametersInterface n x :
  agree eq (buildTupleParametersInterface n x) (buildTupleParametersInterface n x).
Proof.
  unfold buildTupleParametersInterface.
  destruct (in_components x) as [cs|]; [|apply agree_throw].
  eapply agree_bind.
  - apply agree_modify; reflexivity.
  - intros _ _ _. now apply agree_ret.
Qed.

Lemma agree_buildParametersFrom n xs :
  forall i input,
    agree eq (buildParametersFrom n i xs input) (buildParametersFrom n i xs input).
Proof.
  induction xs as [|x xs IH]; intros i input; simpl.
  - now apply agree_ret.
  - destruct (String.eqb (in_type x) SolidityType_tuple); [|apply IH].
    eapply agree_bind; [apply agree_buildTupleParametersInterface|].
    intros ref ? <-. apply IH.
Qed.

Lemma agree_buildParameters item :
  agree eq (buildParameters item) (buildParameters item).
Proof.
  unfold buildParameters. eapply agree_bind.
  - destruct (item_inputs item).
    + apply agree_buildParametersFrom.
    + now apply agree_ret.
  - intros input ? <-. now apply agree_ret.
Qed.

Lemma agree_buildPropertyReturnTypeInterface item :
  agree (fun _ _ => True)
    (buildPropertyReturnTypeInterface item) (buildPropertyReturnTypeInterface item).
Proof.
  unfold buildPropertyReturnTypeInterface.
  destruct (item_outputs item) as [[|o1 [|o2 os]]|];
    try apply agree_buildMethodReturnContext.
  eapply agree_bind.
  - apply agree_modify; reflexivity.
  - intros _ _ _. apply agree_buildMethodReturnContext.
Qed.

Lemma agree_buildParametersAndReturnTypes item :
  agree (fun _ _ => True)
    (buildParametersAndReturnTypes item) (buildParametersAndReturnTypes item).
Proof.
  unfold buildParametersAndReturnTypes.
  eapply agree_bind; [apply agree_buildParameters|].
  intros parameters ? <-.
  eapply agree_bind; [apply agree_buildPropertyReturnTypeInterface|].
  intros r1 r2 _. now apply agree_ret.
Qed.

Lemma agree_buildAbiInterfaceFrom abi :
  forall properties1 properties2,
    agree (fun _ _ => True)
      (buildAbiInterfaceFrom abi properties1) (buildAbiInterfaceFrom abi properties2).
Proof.
  induction abi as [|item abi IH]; intros p1 p2; simpl.
  - now apply agree_ret.
  - destruct (item_type item).
    + eapply agree_bind; [apply agree_modify; reflexivity|]. intros _ _ _.
      eapply agree_bind; [apply agree_buildParametersAndReturnTypes|].
      intros s1 s2 _. apply IH.
    + eapply agree_bind; [apply agree_modify; reflexivity|]. intros _ _ _.
      eapply agree_bind; [apply agree_buildParametersAndReturnTypes|].
      intros s1 s2 _. apply IH.
    + eapply agree_bind; [apply agree_modify; reflexivity|]. intros _ _ _.
      apply IH.
    + apply IH.
Qed.

Lemma agree_buildAbiInterface (abi : list AbiItem) :
  agree (fun _ _ => True)
    (buildAbiInterface (JsonArray abi)) (buildAbiInterface (JsonArray abi)).
Proof.
  unfold buildAbiInterface.
  eapply agree_bind; [apply agree_buildAbiInterfaceFrom|]. intros p1 p2 _.
  intros g Hg. unfold bind, get, ret. simpl. auto.
Qed.

Lemma related_isOk {A} (R : A -> A -> Prop) r1 r2 :
  related R r1 r2 -> isOk r1 = isOk r2.
Proof. destruct r1, r2; simpl; intros; try contradiction; reflexivity. Qed.

(** C8.  Run over the same items and from the same generator, once with
    each supported provider, [buildAbiInterface] leaves the same accumulator
    (auxiliary interfaces, event names, method names) and fails or succeeds
    alike; every parameter list, with its parameter names, is the same text;
    and the method-name and event-name types are the same text.  What may
    differ is what the factories return. *)
Theorem provider_switch_keeps_extracted_names (abi : list AbiItem) g :
  let run p := buildAbiInterface (JsonArray abi) (withProvider p g) in
  accumulators (snd (run Provider.web3)) = accumulators (snd (run Provider.ethers))
  /\ isOk (fst (run Provider.web3)) = isOk (fst (run Provider.ethers))
  /\ (forall item,
        fst (buildParameters item (withProvider Provider.web3 g))
        = fst (buildParameters item (withProvider Provider.ethers g)))
  /\ fst (buildMethodNamesType (snd (run Provider.web3)))
     = fst (buildMethodNamesType (snd (run Provider.ethers)))
  /\ fst (buildEventsType (snd (run Provider.web3)))
     = fst (buildEventsType (snd (run Provider.ethers))).
Proof.
  cbv zeta.
  destruct (agree_buildAbiInterface abi (withProvider Provider.web3 g) eq_refl)
    as (Hs & _ & Hr).
  change (withProvider Provider.ethers (withProvider Provider.web3 g))
    with (withProvider Provider.ethers g) in *.
  rewrite Hs. repeat split.
  - now apply related_isOk in Hr.
  - intros item.
    destruct (agree_buildParameters item (withProvider Provider.web3 g) eq_refl)
      as (_ & _ & Hp).
    change (withProvider Provider.ethers (withProvider Provider.web3 g))
      with (withProvider Provider.ethers g) in *.
    unfold related in Hp.
    destruct (fst (buildParameters item (withProvider Provider.web3 g))),
      (fst (buildParameters item (withProvider Provider.ethers g)));
      try contradiction; now subst.
Qed.

End ProviderSwitch.

(** ** Invariants of the methods *)

Section Invariants.
Context `{Collaborators}.

Lemma keeps_ret {S A} (I : S -> Prop) (a : A) : keeps I (ret a).
Proof. intros s Hs. exact Hs. Qed.

Lemma keeps_throw {S A} (I : S -> Prop) e : keeps I (throw (A := A) e).
Proof. intros s Hs. exact Hs. Qed.

Lemma keeps_get {S} (I : S -> Prop) : keeps I get.
Proof. intros s Hs. exact Hs. Qed.

Lemma keeps_modify {S} (I : S -> Prop) (f : S -> S) :
  (forall s, I s -> I (f s)) -> keeps I (modify f).
Proof. intros Hf s Hs. now apply Hf. Qed.

Lemma keeps_bind {S A B} (I : S -> Prop) (m : M S A) (k : A -> M S B) :
  keeps I m -> (forall a, keeps I (k a)) -> keeps I (bind m k).
Proof.
  intros Hm Hk. eapply hoare_bind; [exact Hm | exact Hk | auto].
Qed.

Lemma keeps_tryCatch {S A} (I : S -> Prop) (m h : M S A) :
  keeps I m -> keeps I h -> keeps I (tryCatch m h).
Proof.
  intros Hm Hh. eapply hoare_tryCatch with (R := I); [|exact Hh].
  intros s Hs. specialize (Hm s Hs). destruct (fst (m s)); exact Hm.
Qed.

(** An invariant of the generator object is kept by every call into the
    world, and an invariant of the world by every method of the generator. *)
Lemma keeps_onWorld {A} (I : AbiGenerator -> Prop) (m : M World A) :
  keeps (fun s : AbiGenerator * World => I (fst s)) (onWorld m).
Proof. intros [g w] Hs. unfold onWorld. simpl. now destruct (m w). Qed.

Lemma keeps_onThis {A} (I : World -> Prop) (m : M AbiGenerator A) :
  keeps (fun s : AbiGenerator * World => I (snd s)) (onThis m).
Proof. intros [g w] Hs. unfold onThis. simpl. now destruct (m g). Qed.

Lemma keeps_onThis_lift {A} (I : AbiGenerator -> Prop) (m : M AbiGenerator A) :
  keeps I m -> keeps (fun s : AbiGenerator * World => I (fst s)) (onThis m).
Proof.
  intros Hm [g w] Hs. specialize (Hm g Hs). unfold onThis. simpl.
  now destruct (m g).
Qed.

Lemma keeps_onWorld_lift {A} (I : World -> Prop) (m : M World A) :
  keeps I m -> keeps (fun s : AbiGenerator * World => I (snd s)) (onWorld m).
Proof.
  intros Hm [g w] Hs. specialize (Hm w Hs). unfold onWorld. simpl.
  now destruct (m w).
Qed.

Lemma keeps_and {S A} (I J : S -> Prop) (m : M S A) :
  keeps I m -> keeps J m -> keeps (fun s => I s /\ J s) m.
Proof. intros HI HJ s [Hi Hj]. split; [now apply HI | now apply HJ]. Qed.

(** *** The building methods leave the context alone *)

Ltac keeps_step :=
  first
    [ apply keeps_ret
    | apply keeps_throw
    | apply keeps_get
    | apply keeps_bind; [|intros ?]
    | apply keeps_modify; intros ? ?; simpl; assumption ].

Lemma keeps_context_buildMethodReturnContext c type item :
  keeps (fun g => context g = c) (buildMethodReturnContext type item).
Proof.
  unfold buildMethodReturnContext. apply keeps_bind; [apply keeps_get|].
  intros g. destruct (provider (context g)); keeps_step.
Qed.

Lemma keeps_context_buildTupleParametersInterface c n x :
  keeps (fun g => context g = c) (buildTupleParametersInterface n x).
Proof.
  unfold buildTupleParametersInterface.
  destruct (in_components x); repeat keeps_step.
Qed.

Lemma keeps_context_buildParametersFrom c n xs :
  forall i input,
    keeps (fun g => context g = c) (buildParametersFrom n i xs input).
Proof.
  induction xs as [|x xs IH]; intros i input; simpl; [keeps_step|].
  destruct (String.eqb (in_type x) SolidityType_tuple); [|apply IH].
  apply keeps_bind; [apply keeps_context_buildTupleParametersInterface|].
  intros ref. apply IH.
Qed.

Lemma keeps_context_buildParametersAndReturnTypes c item :
  keeps (fun g => context g = c) (buildParametersAndReturnTypes item).
Proof.
  unfold buildParametersAndReturnTypes, buildParameters,
    buildPropertyReturnTypeInterface.
  apply keeps_bind.
  - apply keeps_bind; [|intros ?; keeps_step].
    destruct (item_inputs item);
      [apply keeps_context_buildParametersFrom | keeps_step].
  - intros parameters. apply keeps_bind; [|intros ?; keeps_step].
    destruct (item_outputs item) as [[|o1 [|o2 os]]|];
      try apply keeps_context_buildMethodReturnContext.
    apply keeps_bind; [keeps_step|].
    intros ?. apply keeps_context_buildMethodReturnContext.
Qed.

Lemma keeps_context_buildAbiInterfaceFrom c abi :
  forall properties,
    keeps (fun g => context g = c) (buildAbiInterfaceFrom abi properties).
Proof.
  induction abi as [|item abi IH]; intros properties; simpl; [keeps_step|].
  destruct (item_type item).
  - apply keeps_bind; [keeps_step|]. intros ?.
    apply keeps_bind; [apply keeps_context_buildParametersAndReturnTypes|].
    intros ?. apply IH.
  - apply keeps_bind; [keeps_step|]. intros ?.
    apply keeps_bind; [apply keeps_context_buildParametersAndReturnTypes|].
    intros ?. apply IH.
  - apply keeps_bind; [keeps_step|]. intros ?. apply IH.
  - apply IH.
Qed.

Lemma keeps_context_buildAbiInterface c abi :
  keeps (fun g => context g = c) (buildAbiInterface abi).
Proof.
  unfold buildAbiInterface. apply keeps_bind.
  - destruct abi as [items|[]]; try keeps_step.
    apply keeps_context_buildAbiInterfaceFrom.
  - intros ?. repeat keeps_step.
Qed.

Lemma keeps_context_buildFullTypings c abi text :
  keeps (fun g => context g = c) (buildFullTypings abi text).
Proof.
  unfold buildFullTypings, buildEventsType, buildEventsInterface,
    buildMethodNamesType, buildParametersAndReturnTypeInterfaces,
    eventInterfaceProperties.
  apply keeps_bind; [keeps_step|]. intros g.
  apply keeps_bind; [destruct (provider (context g)); keeps_step|]. intros ?.
  apply keeps_bind; [repeat keeps_step|]. intros ?.
  apply keeps_bind.
  { apply keeps_bind; [keeps_step|]. intros g'.
    destruct (provider (context g')); [ | |keeps_step];
      (apply keeps_bind; [|intros ?; keeps_step]);
      (destruct abi as [items|v]; [keeps_step|]);
      match goal with |- context [f_buildEventInterfaceProperties_other ?f ?v] =>
        destruct (f_buildEventInterfaceProperties_other f v) end; keeps_step. }
  intros ?. repeat keeps_step.
Qed.

End Invariants.

(** ** [generate] *)

Section Generate.
Context `{Collaborators}.

Lemma hoare_bind_any {S A B} (P : S -> Prop) (m : M S A) (k : A -> M S B)
  (Q : Result B -> S -> Prop) :
  (forall a, hoare (fun _ => True) (k a) Q) ->
  (forall e s, Q (Throw e) s) ->
  hoare P (bind m k) Q.
Proof.
  intros Hk He. eapply hoare_bind with (R := fun _ _ => True); auto.
  intros s _. exact I.
Qed.

Lemma hoare_of_keeps {S A} (I : S -> Prop) (m : M S A)
  (Q : Result A -> S -> Prop) :
  keeps I m -> (forall r s, I s -> Q r s) -> hoare I m Q.
Proof. intros Hm HQ s Hs. apply HQ, Hm, Hs. Qed.

Lemma keeps_accumulators_watchForChanges acc :
  keeps (fun s : AbiGenerator * World => accumulators (fst s) = acc)
    watchForChanges.
Proof.
  unfold watchForChanges. apply keeps_bind.
  - apply (keeps_onThis_lift (fun g => accumulators g = acc)).
    apply keeps_modify. intros g Hg. exact Hg.
  - intros _. apply keeps_bind; [apply keeps_get|]. intros s.
    apply (keeps_onWorld (fun g => accumulators g = acc)).
Qed.

Lemma generate_resets_accumulator :
  hoare (fun _ => True) generate
    (fun r s => isOk r = true -> accumulators (fst s) = ([], [], [])).
Proof.
  unfold generate.
  apply hoare_bind_any; [intros _ | discriminate].
  apply hoare_bind_any; [intros s0 | discriminate].
  apply hoare_bind_any; [intros isDir | discriminate].
  destruct (negb isDir); [intros s _; discriminate|].
  apply hoare_bind_any; [intros abi | discriminate].
  apply hoare_bind_any; [intros abiTypedInterface | discriminate].
  apply hoare_bind_any; [intros fullTypings | discriminate].
  apply hoare_bind_any; [intros fullTypingsFormatted | discriminate].
  apply hoare_bind_any; [intros s1 | discriminate].
  apply hoare_bind_any; [intros _ | discriminate].
  eapply hoare_bind
    with (R := fun _ s => accumulators (fst s) = ([], [], [])).
  - intros [g w] _. reflexivity.
  - intros _. apply hoare_of_keeps; [|auto].
    apply keeps_bind; [apply keeps_get|]. intros s2.
    apply keeps_bind.
    + destruct (watch (context (fst s2)));
        [apply keeps_accumulators_watchForChanges | apply keeps_ret].
    + intros _. apply keeps_bind; [apply keeps_get|]. intros s3.
      apply keeps_ret.
  - discriminate.
Qed.

Lemma runAll_accumulators worlds :
  forall g g',
    accumulators g = ([], [], []) ->
    runAll g worlds = Some g' ->
    accumulators g' = ([], [], []).
Proof.
  induction worlds as [|w worlds IH]; intros g g' Hg Hrun; simpl in Hrun.
  - now inversion Hrun; subst.
  - pose proof (generate_resets_accumulator (g, w) I) as Hreset.
    destruct (generate (g, w)) as [[r|e] [g1 w1]]; [|discriminate].
    simpl in Hreset. eapply IH; [|exact Hrun]. now apply Hreset.
Qed.

(** C3 (amended).  A generator starts with an empty accumulator, and every
    run of [generate] that returns leaves the accumulator empty.  So after
    any number of runs on one generator that all returned, the accumulator is
    empty, provided the generator was newly constructed or at least one run
    was made; the next run starts from the empty accumulator. *)
Theorem accumulator_empty_between_returning_runs g0 worlds g :
  runAll g0 worlds = Some g ->
  g0 = newAbiGenerator (context g0) \/ worlds <> [] ->
  accumulators g = ([], [], []).
Proof.
  intros Hrun Hstart. destruct worlds as [|w worlds].
  - destruct Hstart as [Hnew|Hne]; [|congruence].
    simpl in Hrun. inversion Hrun; subst g. now rewrite Hnew.
  - simpl in Hrun.
    pose proof (generate_resets_accumulator (g0, w) I) as Hreset.
    destruct (generate (g0, w)) as [[r|e] [g1 w1]]; [|discriminate].
    simpl in Hreset. eapply runAll_accumulators; [|exact Hrun]. now apply Hreset.
Qed.

(** *** What [generate] does to the caller's context *)

Lemma truthy_false d : Js.truthy (Some d) = false -> d = "".
Proof.
  unfold Js.truthy. intros E. apply negb_false_iff in E.
  now apply String.eqb_eq in E.
Qed.

Lemma hoare_get_bind {S B} (P : S -> Prop) (k : S -> M S B)
  (Q : Result B -> S -> Prop) :
  (forall s0, P s0 -> hoare (fun s => s = s0) (k s0) Q) ->
  hoare P (bind get k) Q.
Proof. intros Hk s Hs. unfold bind, get. now apply (Hk s Hs s). Qed.

Lemma keeps_of_context (J : GeneratorContext -> Prop) {A} (m : M AbiGenerator A) :
  (forall c, keeps (fun g => context g = c) m) ->
  keeps (fun g => J (context g)) m.
Proof.
  intros Hm g Hg. specialize (Hm (context g) g eq_refl). simpl in *.
  now rewrite Hm.
Qed.

Lemma keeps_generator_getAbiJson (I : AbiGenerator -> Prop) :
  keeps (fun s : AbiGenerator * World => I (fst s)) getAbiJson.
Proof.
  unfold getAbiJson. apply keeps_bind; [apply keeps_get|]. intros s.
  apply keeps_bind; [apply (keeps_onWorld I)|]. intros found.
  destruct (negb found); [apply keeps_throw|].
  apply keeps_tryCatch; [|apply keeps_throw].
  apply keeps_bind; [apply (keeps_onWorld I)|]. intros text.
  destruct (JSON_parse text); [apply keeps_ret | apply keeps_throw].
Qed.

Lemma clearAllQuotes_context g :
  contextAfter (context g) (prettierOptions (context g)) (watch (context g))
    (context (snd (clearAllQuotesFromContextInfo g))).
Proof.
  unfold clearAllQuotesFromContextInfo, modify, contextAfter. simpl.
  destruct (outputPathDirectory (context g)) as [d|] eqn:E; simpl.
  - destruct (Js.truthy (Some d)) eqn:T.
    + unfold Js.truthy in T. rewrite T. simpl. tauto.
    + apply truthy_false in T. subst d. simpl. tauto.
  - tauto.
Qed.

Lemma watchForChanges_context g w :
  context (fst (snd (watchForChanges (g, w)))) = context (setWatch false g).
Proof.
  unfold watchForChanges, bind, onThis, onWorld, modify, get. simpl.
  now destruct (fsWatch _ _) as [[|] w'].
Qed.

Lemma generate_context c0 :
  hoare (fun s : AbiGenerator * World => context (fst s) = c0) generate
    (fun r s =>
       (exists po wa,
          contextAfter c0 po wa (context (fst s))
          /\ (po = prettierOptions c0
              \/ po = setParser "typescript" <$> prettierOptions c0)
          /\ (wa = watch c0 \/ wa = false))
       /\ (isOk r = true ->
           contextAfter c0 (setParser "typescript" <$> prettierOptions c0) false
             (context (fst s)))).
Proof.
  set (I1 := fun s : AbiGenerator * World =>
               contextAfter c0 (prettierOptions c0) (watch c0) (context (fst s))).
  set (I2 := fun s : AbiGenerator * World =>
               contextAfter c0 (setParser "typescript" <$> prettierOptions c0)
                 (watch c0) (context (fst s))).
  assert (F1 : forall (e : Error) s, I1 s ->
            (exists po wa,
               contextAfter c0 po wa (context (fst s))
               /\ (po = prettierOptions c0
                   \/ po = setParser "typescript" <$> prettierOptions c0)
               /\ (wa = watch c0 \/ wa = false))
            /\ (isOk (Throw (A := GenerateResponse) e) = true ->
                contextAfter c0 (setParser "typescript" <$> prettierOptions c0)
                  false (context (fst s)))).
  { intros e s Hs. split; [|discriminate]. do 2 eexists. split; [exact Hs|tauto]. }
  assert (F2 : forall (e : Error) s, I2 s ->
            (exists po wa,
               contextAfter c0 po wa (context (fst s))
               /\ (po = prettierOptions c0
                   \/ po = setParser "typescript" <$> prettierOptions c0)
               /\ (wa = watch c0 \/ wa = false))
            /\ (isOk (Throw (A := GenerateResponse) e) = true ->
                contextAfter c0 (setParser "typescript" <$> prettierOptions c0)
                  false (context (fst s)))).
  { intros e s Hs. split; [|discriminate]. do 2 eexists. split; [exact Hs|tauto]. }
  unfold generate.
  eapply hoare_bind with (R := fun _ s => I1 s); [| |exact F1].
  { intros [g w] Hs. simpl in Hs. subst c0. unfold onThis, I1. simpl.
    apply clearAllQuotes_context. }
  intros _. eapply hoare_bind with (R := fun _ s => I1 s);
    [apply keeps_get| |exact F1].
  intros s0. eapply hoare_bind with (R := fun _ s => I1 s); [| |exact F1].
  { apply (keeps_onWorld (fun g => contextAfter c0 _ _ (context g))). }
  intros isDir. destruct (negb isDir).
  { intros s Hs. now apply F1. }
  eapply hoare_bind with (R := fun _ s => I1 s); [| |exact F1].
  { apply (keeps_generator_getAbiJson (fun g => contextAfter c0 _ _ (context g))). }
  intros abi. eapply hoare_bind with (R := fun _ s => I1 s); [| |exact F1].
  { apply (keeps_onThis_lift (fun g => contextAfter c0 _ _ (context g))).
    apply keeps_of_context. intros c. apply keeps_context_buildAbiInterface. }
  intros abiTypedInterface.
  eapply hoare_bind with (R := fun _ s => I1 s); [| |exact F1].
  { apply (keeps_onThis_lift (fun g => contextAfter c0 _ _ (context g))).
    apply keeps_of_context. intros c. apply keeps_context_buildFullTypings. }
  intros fullTypings.
  eapply hoare_bind with (R := fun _ s => I2 s); [| |exact F2].
  { apply hoare_tryCatch with (R := I2).
    - eapply hoare_bind with (R := fun _ s => I2 s).
      + intros [g w] Hs. unfold I1, I2, contextAfter in *.
        unfold onThis, getPrettierOptions, bind, get, modify, ret. simpl in *.
        destruct Hs as (? & ? & ? & ? & Hpo & ?).
        destruct (prettierOptions (context g)) as [o|] eqn:E; simpl;
          rewrite <- Hpo; simpl; tauto.
      + intros options s Hs. unfold prettierFormat.
        destruct (prettier_format fullTypings options); exact Hs.
      + intros e s Hs. exact Hs.
    - apply keeps_bind;
        [apply (keeps_onWorld (fun g => contextAfter c0 _ _ (context g)))|].
      intros _. apply keeps_bind;
        [apply (keeps_onWorld (fun g => contextAfter c0 _ _ (context g)))|].
      intros _. unfold prettierFormat.
      destruct (prettier_format fullTypings getDefaultPrettierOptions);
        [apply keeps_ret | apply keeps_throw]. }
  intros fullTypingsFormatted.
  eapply hoare_bind with (R := fun _ s => I2 s); [apply keeps_get| |exact F2].
  intros s1. eapply hoare_bind with (R := fun _ s => I2 s); [| |exact F2].
  { apply (keeps_onWorld (fun g => contextAfter c0 _ _ (context g))). }
  intros _. eapply hoare_bind with (R := fun _ s => I2 s); [| |exact F2].
  { apply (keeps_onThis_lift (fun g => contextAfter c0 _ _ (context g))).
    apply keeps_modify. intros g Hg. exact Hg. }
  intros _. apply hoare_get_bind. intros [g w] Hs s ->.
  unfold I2, contextAfter in Hs. simpl in Hs.
  destruct Hs as (Ha & Ho & Hn & Hp & Hpo & Hw).
  simpl fst. destruct (watch (context g)) eqn:W.
  - pose proof (watchForChanges_context g w) as Hc.
    unfold bind, get, ret.
    destruct (watchForChanges (g, w)) as [[u|e] [g' w']]; simpl in Hc;
      simpl; rewrite Hc; simpl;
      (split; [exists (setParser "typescript" <$> prettierOptions c0), false|]);
      unfold contextAfter; simpl; intuition congruence.
  - unfold bind, get, ret. simpl.
    split; [exists (setParser "typescript" <$> prettierOptions c0), false|];
      unfold contextAfter; simpl; intuition congruence.
Qed.

(** *** An unsupported provider *)

Lemma noWriteSince_record fs0 tr0 ev w :
  isWrite ev = false -> noWriteSince fs0 tr0 w -> noWriteSince fs0 tr0 (record ev w).
Proof.
  intros Hev (Hf & new & Ht & Hn). split; [exact Hf|].
  exists (new ++ [ev]). simpl. rewrite Ht, app_assoc. split; [reflexivity|].
  apply Forall_app. split; [exact Hn | now constructor].
Qed.

Lemma keeps_noWrite_existsSync fs0 tr0 p :
  keeps (noWriteSince fs0 tr0) (existsSync p).
Proof. intros w Hw. now apply noWriteSince_record. Qed.

Lemma keeps_noWrite_lstatIsDirectory fs0 tr0 p :
  keeps (noWriteSince fs0 tr0) (lstatIsDirectory p).
Proof.
  intros w Hw. unfold lstatIsDirectory.
  destruct (files w !! path_resolve p) as [[|text]|]; now apply noWriteSince_record.
Qed.

Lemma keeps_noWrite_readFileSync fs0 tr0 p :
  keeps (noWriteSince fs0 tr0) (readFileSync p).
Proof.
  intros w Hw. unfold readFileSync.
  destruct (files w !! path_resolve p) as [[|text]|]; now apply noWriteSince_record.
Qed.

Lemma keeps_noWrite_isDirectory fs0 tr0 p :
  keeps (noWriteSince fs0 tr0) (isDirectory p).
Proof.
  unfold isDirectory. apply keeps_bind; [apply keeps_noWrite_existsSync|].
  intros [|]; [apply keeps_noWrite_lstatIsDirectory | apply keeps_ret].
Qed.

Lemma keeps_noWrite_getAbiJson fs0 tr0 :
  keeps (fun s : AbiGenerator * World => noWriteSince fs0 tr0 (snd s)) getAbiJson.
Proof.
  unfold getAbiJson. apply keeps_bind; [apply keeps_get|]. intros s.
  apply keeps_bind;
    [apply keeps_onWorld_lift, keeps_noWrite_existsSync|]. intros found.
  destruct (negb found); [apply keeps_throw|].
  apply keeps_tryCatch; [|apply keeps_throw].
  apply keeps_bind;
    [apply keeps_onWorld_lift, keeps_noWrite_readFileSync|]. intros text.
  destruct (JSON_parse text); [apply keeps_ret | apply keeps_throw].
Qed.

Lemma keeps_provider_clearAllQuotes p :
  keeps (fun g => provider (context g) = p) clearAllQuotesFromContextInfo.
Proof.
  intros g Hg.
  change (provider (context (snd (clearAllQuotesFromContextInfo g))) = p).
  destruct (clearAllQuotes_context g) as (_ & _ & _ & Hp & _). congruence.
Qed.

Lemma buildFullTypings_unsupported tag abi text g :
  provider (context g) = Provider.unsupported tag ->
  buildFullTypings abi text g = (Throw (UnknownProvider tag), g).
Proof.
  intros E. unfold buildFullTypings, bind, get. now rewrite E.
Qed.

Lemma generate_unsupported tag fs0 tr0 :
  hoare
    (fun s : AbiGenerator * World =>
       provider (context (fst s)) = Provider.unsupported tag
       /\ noWriteSince fs0 tr0 (snd s))
    generate
    (fun r s => isOk r = false /\ noWriteSince fs0 tr0 (snd s)).
Proof.
  set (K := fun s : AbiGenerator * World =>
              provider (context (fst s)) = Provider.unsupported tag
              /\ noWriteSince fs0 tr0 (snd s)).
  assert (FK : forall (e : Error) s, K s ->
            isOk (Throw (A := GenerateResponse) e) = false
            /\ noWriteSince fs0 tr0 (snd s)).
  { intros e s [_ Hs]. now split. }
  unfold generate.
  eapply hoare_bind with (R := fun _ s => K s); [| |exact FK].
  { apply keeps_and.
    - apply (keeps_onThis_lift
               (fun g => provider (context g) = Provider.unsupported tag)).
      apply keeps_provider_clearAllQuotes.
    - apply (keeps_onThis (noWriteSince fs0 tr0)). }
  intros _. eapply hoare_bind with (R := fun _ s => K s);
    [apply keeps_get| |exact FK].
  intros s0. eapply hoare_bind with (R := fun _ s => K s); [| |exact FK].
  { apply keeps_and.
    - apply (keeps_onWorld
               (fun g => provider (context g) = Provider.unsupported tag)).
    - apply keeps_onWorld_lift, keeps_noWrite_isDirectory. }
  intros isDir. destruct (negb isDir).
  { intros s Hs. now apply FK. }
  eapply hoare_bind with (R := fun _ s => K s); [| |exact FK].
  { apply keeps_and.
    - apply (keeps_generator_getAbiJson
               (fun g => provider (context g) = Provider.unsupported tag)).
    - apply keeps_noWrite_getAbiJson. }
  intros abi. eapply hoare_bind with (R := fun _ s => K s); [| |exact FK].
  { apply keeps_and.
    - apply (keeps_onThis_lift
               (fun g => provider (context g) = Provider.unsupported tag)).
      apply (keeps_of_context (fun c => provider c = Provider.unsupported tag)).
      intros c. apply keeps_context_buildAbiInterface.
    - apply (keeps_onThis (noWriteSince fs0 tr0)). }
  intros abiTypedInterface.
  eapply hoare_bind with (R := fun r s => isOk r = false /\ K s).
  - intros [g w] [Hp Hw]. unfold onThis. simpl in *.
    rewrite (buildFullTypings_unsupported tag) by exact Hp. simpl.
    split; [reflexivity | split; assumption].
  - intros fullTypings s [Hfalse _]. discriminate.
  - intros e s [_ Hs]. now apply FK.
Qed.

(** *** Loading the ABI *)

Lemma bind_get {S B} (k : S -> M S B) s : bind get k s = k s s.
Proof. reflexivity. Qed.

Lemma isDirectory_dir d w :
  files w !! path_resolve d = Some Dir ->
  isDirectory d w = (Ok true, record (IoLstat d) (record (IoExists d) w)).
Proof.
  intros E. unfold isDirectory, bind, existsSync, lstatIsDirectory. simpl.
  rewrite E. rewrite bool_decide_eq_true_2 by eauto. simpl. now rewrite E.
Qed.

Lemma getAbiJson_read g w text :
  files w !! path_resolve (getAbiFileFullPathLocation (context g))
  = Some (File text) ->
  getAbiJson (g, w)
  = (match JSON_parse text with
     | Some v => Ok v
     | None => Throw (AbiFileNotJson (getAbiFileFullPathLocation (context g)))
     end,
     (g, record (IoRead (getAbiFileFullPathLocation (context g)))
           (record (IoExists (getAbiFileFullPathLocation (context g))) w))).
Proof.
  intros E. unfold getAbiJson, bind, get, tryCatch, onWorld, existsSync,
    readFileSync, throw, ret. simpl.
  rewrite E. rewrite bool_decide_eq_true_2 by eauto. simpl. rewrite E.
  now destruct (JSON_parse text).
Qed.

(** The state in which building starts once the directory was checked and
    the ABI file read. *)
Lemma generate_loaded g w text :
  let g1 := snd (clearAllQuotesFromContextInfo g) in
  let d := getOutputPathDirectory (context g1) in
  let p := getAbiFileFullPathLocation (context g1) in
  let w1 := record (IoRead p) (record (IoExists p)
              (record (IoLstat d) (record (IoExists d) w))) in
  files w !! path_resolve d = Some Dir ->
  files w !! path_resolve p = Some (File text) ->
  onWorld (isDirectory d) (g1, w)
  = (Ok true, (g1, record (IoLstat d) (record (IoExists d) w)))
  /\ getAbiJson (g1, record (IoLstat d) (record (IoExists d) w))
     = (match JSON_parse text with
        | Some v => Ok v
        | None => Throw (AbiFileNotJson p)
        end, (g1, w1)).
Proof.
  intros g1 d p w1 Hd Hp. split.
  - unfold onWorld. cbn [fst snd]. now rewrite (isDirectory_dir d w Hd).
  - now rewrite (getAbiJson_read g1 _ text) by exact Hp.
Qed.

Lemma generate_unparsable g w text :
  let g1 := snd (clearAllQuotesFromContextInfo g) in
  let d := getOutputPathDirectory (context g1) in
  let p := getAbiFileFullPathLocation (context g1) in
  files w !! path_resolve d = Some Dir ->
  files w !! path_resolve p = Some (File text) ->
  JSON_parse text = None ->
  generate (g, w)
  = (Throw (AbiFileNotJson p),
     (g1, record (IoRead p) (record (IoExists p)
            (record (IoLstat d) (record (IoExists d) w))))).
Proof.
  intros g1 d p Hd Hp Hparse.
  destruct (generate_loaded g w text Hd Hp) as [E1 E2].
  rewrite Hparse in E2. unfold generate.
  rewrite (bind_ok _ _ (g, w) tt (g1, w)) by reflexivity.
  rewrite bind_get. cbn [fst].
  rewrite (bind_ok _ _ _ _ _ E1). cbn [negb].
  now rewrite (bind_throw _ _ _ _ _ E2).
Qed.

(** *** What can be thrown once the ABI is loaded *)

Section Raises.
Variable P : Error -> Prop.
Hypothesis P_TypeError : forall what, P (TypeError what).
Hypothesis P_UnknownProvider : forall tag, P (UnknownProvider tag).

Lemma raises_ret {S A} (a : A) : raises (S := S) P (ret a).
Proof. intros s. exact I. Qed.

Lemma raises_get {S} : raises (S := S) P get.
Proof. intros s. exact I. Qed.

Lemma raises_modify {S} (f : S -> S) : raises P (modify f).
Proof. intros s. exact I. Qed.

Lemma raises_throw {S A} e : P e -> raises (S := S) P (throw (A := A) e).
Proof. intros He s. exact He. Qed.

Lemma raises_bind {S A B} (m : M S A) (k : A -> M S B) :
  raises P m -> (forall a, raises P (k a)) -> raises P (bind m k).
Proof.
  intros Hm Hk s. specialize (Hm s). unfold bind.
  destruct (m s) as [[a|e] s1]; simpl in *; [apply Hk | exact Hm].
Qed.

Lemma raises_tryCatch {S A} (m h : M S A) :
  raises P h -> raises P (tryCatch m h).
Proof.
  intros Hh s. unfold tryCatch.
  destruct (m s) as [[a|e] s1]; simpl; [exact I | apply Hh].
Qed.

Lemma raises_onThis {A} (m : M AbiGenerator A) :
  raises P m -> raises P (onThis m).
Proof.
  intros Hm [g w]. specialize (Hm g). unfold onThis. simpl.
  now destruct (m g).
Qed.

Lemma raises_onWorld {A} (m : M World A) :
  raises P m -> raises P (onWorld m).
Proof.
  intros Hm [g w]. specialize (Hm w). unfold onWorld. simpl.
  now destruct (m w).
Qed.

Lemma raises_buildMethodReturnContext type item :
  raises P (buildMethodReturnContext type item).
Proof.
  unfold buildMethodReturnContext. apply raises_bind; [apply raises_get|].
  intros g. destruct (provider (context g));
    [apply raises_ret | apply raises_ret | apply raises_throw, P_UnknownProvider].
Qed.

Lemma raises_buildTupleParametersInterface n x :
  raises P (buildTupleParametersInterface n x).
Proof.
  unfold buildTupleParametersInterface. destruct (in_components x).
  - apply raises_bind; [apply raises_modify|]. intros _. apply raises_ret.
  - apply raises_throw, P_TypeError.
Qed.

Lemma raises_buildParametersFrom n xs :
  forall i input, raises P (buildParametersFrom n i xs input).
Proof.
  induction xs as [|x xs IH]; intros i input; simpl; [apply raises_ret|].
  destruct (String.eqb (in_type x) SolidityType_tuple); [|apply IH].
  apply raises_bind; [apply raises_buildTupleParametersInterface|].
  intros ref. apply IH.
Qed.

Lemma raises_buildParametersAndReturnTypes item :
  raises P (buildParametersAndReturnTypes item).
Proof.
  unfold buildParametersAndReturnTypes, buildParameters,
    buildPropertyReturnTypeInterface.
  apply raises_bind.
  - apply raises_bind; [|intros ?; apply raises_ret].
    destruct (item_inputs item);
      [apply raises_buildParametersFrom | apply raises_ret].
  - intros parameters. apply raises_bind; [|intros ?; apply raises_ret].
    destruct (item_outputs item) as [[|o1 [|o2 os]]|];
      try apply raises_buildMethodReturnContext.
    apply raises_bind; [apply raises_modify|].
    intros ?. apply raises_buildMethodReturnContext.
Qed.

Lemma raises_buildAbiInterfaceFrom abi :
  forall properties, raises P (buildAbiInterfaceFrom abi properties).
Proof.
  induction abi as [|item abi IH]; intros properties; simpl; [apply raises_ret|].
  destruct (item_type item).
  - apply raises_bind; [apply raises_modify|]. intros ?.
    apply raises_bind; [apply raises_buildParametersAndReturnTypes|].
    intros ?. apply IH.
  - apply raises_bind; [apply raises_modify|]. intros ?.
    apply raises_bind; [apply raises_buildParametersAndReturnTypes|].
    intros ?. apply IH.
  - apply raises_bind; [apply raises_modify|]. intros ?. apply IH.
  - apply IH.
Qed.

Lemma raises_buildAbiInterface abi : raises P (buildAbiInterface abi).
Proof.
  unfold buildAbiInterface. apply raises_bind.
  - destruct abi as [items|[]]; try apply raises_ret.
    + apply raises_buildAbiInterfaceFrom.
    + apply raises_throw, P_TypeError.
  - intros ?. apply raises_bind; [apply raises_get|]. intros ?. apply raises_ret.
Qed.

Lemma raises_eventInterfaceProperties f abi :
  raises P (eventInterfaceProperties f abi).
Proof.
  unfold eventInterfaceProperties. destruct abi as [items|v]; [apply raises_ret|].
  destruct (f_buildEventInterfaceProperties_other f v);
    [apply raises_ret | apply raises_throw, P_TypeError].
Qed.

Lemma raises_buildFullTypings abi text : raises P (buildFullTypings abi text).
Proof.
  unfold buildFullTypings, buildEventsType, buildEventsInterface,
    buildMethodNamesType, buildParametersAndReturnTypeInterfaces.
  apply raises_bind; [apply raises_get|]. intros g.
  apply raises_bind.
  { destruct (provider (context g));
      [apply raises_ret | apply raises_ret | apply raises_throw, P_UnknownProvider]. }
  intros ?. apply raises_bind.
  { apply raises_bind; [apply raises_get|]. intros ?. apply raises_ret. }
  intros ?. apply raises_bind.
  { apply raises_bind; [apply raises_get|]. intros g'.
    destruct (provider (context g'));
      [ | |apply raises_throw, P_UnknownProvider];
      (apply raises_bind;
       [apply raises_eventInterfaceProperties | intros ?; apply raises_ret]). }
  intros ?. apply raises_bind.
  { apply raises_bind; [apply raises_get|]. intros ?. apply raises_ret. }
  intros ?. apply raises_bind.
  { apply raises_bind; [apply raises_get|]. intros ?. apply raises_ret. }
  intros ?. apply raises_ret.
Qed.

End Raises.

Lemma raises_no_source_error_tail (abi : AbiJson) (s : AbiGenerator * World) :
  throwsSourceError
    (fst ((let* abiTypedInterface := onThis (buildAbiInterface abi) in
           let* fullTypings := onThis (buildFullTypings abi abiTypedInterface) in
           let* fullTypingsFormatted :=
             tryCatch
               (let* options := onThis getPrettierOptions in
                prettierFormat fullTypings options)
               (let* _ := onWorld (loggerLog
                  "Your prettier options were not valid so falling back to default one.") in
                let* _ := onWorld (loggerLog "") in
                prettierFormat fullTypings getDefaultPrettierOptions) in
           let* s := get in
           let outputLocation := buildOutputLocation (context (fst s)) in
           let* _ := onWorld (writeFileSync outputLocation fullTypingsFormatted) in
           let* _ := onThis clearState in
           let* s := get in
           let* _ := if watch (context (fst s)) then watchForChanges else ret tt in
           let* s := get in
           ret {| outputLocation := outputLocation;
                  abiJsonFileLocation :=
                    getAbiFileFullPathLocation (context (fst s)) |}) s))
  = false.
Proof.
  set (P := fun e => isSourceError e = false).
  assert (HT : forall what, P (TypeError what)) by reflexivity.
  assert (HU : forall tag, P (UnknownProvider tag)) by reflexivity.
  match goal with |- throwsSourceError (fst (?m s)) = false =>
    assert (Hm : raises P m); [|specialize (Hm s); destruct (fst (m s)); auto]
  end.
  apply raises_bind; [apply raises_onThis, raises_buildAbiInterface; assumption|].
  intros abiTypedInterface.
  apply raises_bind; [apply raises_onThis, raises_buildFullTypings; assumption|].
  intros fullTypings. apply raises_bind.
  { apply raises_tryCatch.
    apply raises_bind; [apply raises_onWorld, raises_modify|]. intros _.
    apply raises_bind; [apply raises_onWorld, raises_modify|]. intros _.
    unfold prettierFormat.
    destruct (prettier_format fullTypings getDefaultPrettierOptions);
      [apply raises_ret | now apply raises_throw]. }
  intros fullTypingsFormatted. apply raises_bind; [apply raises_get|].
  intros s1. cbv zeta. apply raises_bind.
  { apply raises_onWorld. intros w. unfold writeFileSync.
    now destruct (files w !! path_resolve _) as [[|]|]. }
  intros _. apply raises_bind; [apply raises_onThis, raises_modify|].
  intros _. apply raises_bind; [apply raises_get|]. intros s2.
  apply raises_bind.
  { destruct (watch (context (fst s2))); [|apply raises_ret].
    unfold watchForChanges.
    apply raises_bind; [apply raises_onThis, raises_modify|]. intros _.
    apply raises_bind; [apply raises_get|]. intros s3.
    apply raises_onWorld. intros w. unfold fsWatch.
    now destruct (files w !! path_resolve _). }
  intros _. apply raises_bind; [apply raises_get|]. intros s3.
  apply raises_ret.
Qed.

Lemma generate_parsed_no_source_error g w text v :
  let g1 := snd (clearAllQuotesFromContextInfo g) in
  files w !! path_resolve (getOutputPathDirectory (context g1)) = Some Dir ->
  files w !! path_resolve (getAbiFileFullPathLocation (context g1))
  = Some (File text) ->
  JSON_parse text = Some v ->
  throwsSourceError (fst (generate (g, w))) = false.
Proof.
  intros g1 Hd Hp Hparse.
  destruct (generate_loaded g w text Hd Hp) as [E1 E2].
  rewrite Hparse in E2. unfold generate.
  rewrite (bind_ok _ _ (g, w) tt (g1, w)) by reflexivity.
  rewrite bind_get. cbn [fst].
  rewrite (bind_ok _ _ _ _ _ E1). cbn [negb].
  rewrite (bind_ok _ _ _ _ _ E2).
  apply raises_no_source_error_tail.
Qed.

(** C1 (amended).  With the output directory in place and the ABI file
    present: when the content of the file does not parse as JSON, [generate]
    aborts with the source-format error, no file is written and the
    accumulator is untouched; when it parses, to an array or to anything
    else, [getAbiJson] returns the parsed value as it is and [generate]
    raises no source-format error. *)
Theorem source_format_error_iff_unparsable g w text :
  let g1 := snd (clearAllQuotesFromContextInfo g) in
  let d := getOutputPathDirectory (context g1) in
  let p := getAbiFileFullPathLocation (context g1) in
  files w !! path_resolve d = Some Dir ->
  files w !! path_resolve p = Some (File text) ->
  (JSON_parse text = None ->
     fst (generate (g, w)) = Throw (AbiFileNotJson p)
     /\ files (snd (snd (generate (g, w)))) = files w
     /\ accumulators (fst (snd (generate (g, w)))) = accumulators g)
  /\ (forall v, JSON_parse text = Some v ->
        fst (getAbiJson (g1, w)) = Ok v
        /\ throwsSourceError (fst (generate (g, w))) = false).
Proof.
  intros g1 d p Hd Hp. split.
  - intros Hparse. rewrite (generate_unparsable g w text Hd Hp Hparse).
    repeat split.
  - intros v Hparse. split.
    + rewrite (getAbiJson_read g1 w text Hp). now rewrite Hparse.
    + exact (generate_parsed_no_source_error g w text v Hd Hp Hparse).
Qed.

(** *** The error an unsupported provider ends in *)

Lemma buildPropertyReturnTypeInterface_unsupported tag item g :
  provider (context g) = Provider.unsupported tag ->
  exists g',
    buildPropertyReturnTypeInterface item g = (Throw (UnknownProvider tag), g').
Proof.
  intros Hp. unfold buildPropertyReturnTypeInterface.
  destruct (item_outputs item) as [[|o1 [|o2 os]]|];
    eexists; apply buildMethodReturnContext_unsupported; exact Hp.
Qed.

Lemma buildParametersAndReturnTypes_unsupported tag item g :
  provider (context g) = Provider.unsupported tag ->
  Forall wellFormedInput (inputsOf item) ->
  exists g',
    buildParametersAndReturnTypes item g = (Throw (UnknownProvider tag), g').
Proof.
  intros Hp Hwf. unfold buildParametersAndReturnTypes.
  erewrite bind_ok by (apply buildParameters_spec, Hwf).
  destruct (buildPropertyReturnTypeInterface_unsupported tag item
              (addInterfaces (requestInterfaces (item_name item) (inputsOf item)) g)
              Hp) as [g' E].
  erewrite bind_throw by exact E. eauto.
Qed.

Lemma buildAbiInterfaceFrom_unsupported tag abi :
  wellFormedAbi abi ->
  forall properties g,
    provider (context g) = Provider.unsupported tag ->
    (exists g', buildAbiInterfaceFrom abi properties g
                = (Throw (UnknownProvider tag), g'))
    \/ (exists text g',
          buildAbiInterfaceFrom abi properties g = (Ok text, g')
          /\ context g' = context g).
Proof.
  assert (Hcall : forall item g (k : string -> M AbiGenerator string),
            provider (context g) = Provider.unsupported tag ->
            Forall wellFormedInput (inputsOf item) ->
            exists g', bind (buildParametersAndReturnTypes item) k g
                       = (Throw (UnknownProvider tag), g')).
  { intros item g k Hp Hwf.
    destruct (buildParametersAndReturnTypes_unsupported tag item g Hp Hwf)
      as [g' E].
    erewrite bind_throw by exact E. eauto. }
  induction 1 as [|item abi Hitem _ IH]; intros properties g Hp.
  - right. simpl. eauto.
  - simpl. unfold isCallable in Hitem. destruct (item_type item).
    + left. unfold bind at 1. unfold modify.
      apply Hcall; [exact Hp | now apply Hitem].
    + left. unfold bind at 1. unfold modify.
      apply Hcall; [exact Hp | now apply Hitem].
    + unfold bind at 1. unfold modify.
      destruct (IH properties (pushEvent (item_name item) g) Hp)
        as [[g' E]|(text & g' & E & Hc)]; [left|right]; eauto.
    + apply IH, Hp.
Qed.

Lemma onThis_eq {A} (m : M AbiGenerator A) g w r g' :
  m g = (r, g') -> onThis m (g, w) = (r, (g', w)).
Proof. intros E. unfold onThis. simpl. now rewrite E. Qed.

Lemma generate_unsupported_loaded tag g w text abi :
  let g1 := snd (clearAllQuotesFromContextInfo g) in
  let d := getOutputPathDirectory (context g1) in
  let p := getAbiFileFullPathLocation (context g1) in
  provider (context g) = Provider.unsupported tag ->
  files w !! path_resolve d = Some Dir ->
  files w !! path_resolve p = Some (File text) ->
  JSON_parse text = Some (JsonArray abi) ->
  wellFormedAbi abi ->
  exists g',
    generate (g, w)
    = (Throw (UnknownProvider tag),
       (g', record (IoRead p) (record (IoExists p)
              (record (IoLstat d) (record (IoExists d) w))))).
Proof.
  intros g1 d p Hprov Hd Hp Hparse Hwf.
  assert (Hprov1 : provider (context g1) = Provider.unsupported tag).
  { exact (keeps_provider_clearAllQuotes _ g Hprov). }
  destruct (generate_loaded g w text Hd Hp) as [E1 E2].
  rewrite Hparse in E2. unfold generate.
  rewrite (bind_ok _ _ (g, w) tt (g1, w)) by reflexivity.
  rewrite bind_get. cbn [fst].
  rewrite (bind_ok _ _ _ _ _ E1). cbn [negb].
  rewrite (bind_ok _ _ _ _ _ E2).
  destruct (buildAbiInterfaceFrom_unsupported tag abi Hwf "" g1 Hprov1)
    as [[g' E]|(properties & g' & E & Hc)].
  - exists g'. erewrite bind_throw; [reflexivity|].
    apply onThis_eq. unfold buildAbiInterface.
    now erewrite bind_throw by exact E.
  - exists g'. erewrite bind_ok.
    2: { apply onThis_eq. unfold buildAbiInterface.
         erewrite bind_ok by exact E. reflexivity. }
    erewrite bind_throw; [reflexivity|].
    apply onThis_eq. apply buildFullTypings_unsupported. now rewrite Hc.
Qed.

(** C4 (amended).  With a provider that is not one of the two supported
    values, [generate] never returns and never writes a file: the files are
    as before and the calls it made into the file system are no writes.  The
    provider is looked at only while building: when the output directory is
    in place and the ABI file holds a well-formed item array, the error is
    the unknown-provider configuration error, raised after the directory was
    checked and the ABI file was read. *)
Theorem unsupported_provider_aborts_without_writing g w tag :
  provider (context g) = Provider.unsupported tag ->
  isOk (fst (generate (g, w))) = false
  /\ noWriteSince (files w) (trace w) (snd (snd (generate (g, w))))
  /\ (forall text abi,
        let g1 := snd (clearAllQuotesFromContextInfo g) in
        let d := getOutputPathDirectory (context g1) in
        let p := getAbiFileFullPathLocation (context g1) in
        files w !! path_resolve d = Some Dir ->
        files w !! path_resolve p = Some (File text) ->
        JSON_parse text = Some (JsonArray abi) ->
        wellFormedAbi abi ->
        fst (generate (g, w)) = Throw (UnknownProvider tag)
        /\ trace (snd (snd (generate (g, w))))
           = trace w ++ [IoExists d; IoLstat d; IoExists p; IoRead p]).
Proof.
  intros Hprov.
  assert (H0 : noWriteSince (files w) (trace w) w).
  { split; [reflexivity|]. exists []. now rewrite app_nil_r. }
  destruct (generate_unsupported tag (files w) (trace w) (g, w) (conj Hprov H0))
    as [Hfail Hnw].
  split; [exact Hfail|]. split; [exact Hnw|].
  intros text abi g1 d p Hd Hp Hparse Hwf.
  destruct (generate_unsupported_loaded tag g w text abi Hprov Hd Hp Hparse Hwf)
    as [g' E].
  rewrite E. split; [reflexivity|].
  simpl. now rewrite <- !app_assoc.
Qed.

End Generate.

(** ** Paths and names *)

Section Names.
Context `{Collaborators}.

Lemma quoteFree_removeQuotes s : quoteFree (Js.removeQuotes s) = true.
Proof.
  induction s as [|c s IH]; [reflexivity|]. simpl.
  destruct (Ascii.eqb c "'") eqn:E; [exact IH|]. simpl. now rewrite E.
Qed.

Lemma removeQuotes_quoteFree s : quoteFree s = true -> Js.removeQuotes s = s.
Proof.
  induction s as [|c s IH]; [reflexivity|]. simpl.
  destruct (Ascii.eqb c "'"); simpl; [discriminate|].
  intros E. now rewrite IH.
Qed.

Lemma clearAllQuotes_quoteFree g :
  quoteFree (abiFileLocation (context g)) = true ->
  (forall d, outputPathDirectory (context g) = Some d -> quoteFree d = true) ->
  snd (clearAllQuotesFromContextInfo g) = g.
Proof.
  destruct g as [[loc dir nm prov po wa] ds es ms]. simpl. intros Hloc Hdir.
  unfold clearAllQuotesFromContextInfo, modify, setContext. simpl.
  rewrite (removeQuotes_quoteFree loc Hloc).
  destruct dir as [d|]; [|reflexivity].
  destruct (negb (String.eqb d "")); [|reflexivity].
  simpl. now rewrite (removeQuotes_quoteFree d (Hdir d eq_refl)).
Qed.

(** X12.  After [clearAllQuotesFromContextInfo] neither the ABI location nor
    the output directory of the context contains a single quote; applying it
    again changes nothing; and a context whose two paths had no single quote
    is left exactly as it was. *)
Theorem clearing_quotes_is_idempotent g :
  let g1 := snd (clearAllQuotesFromContextInfo g) in
  quoteFree (abiFileLocation (context g1)) = true
  /\ (forall d, outputPathDirectory (context g1) = Some d -> quoteFree d = true)
  /\ snd (clearAllQuotesFromContextInfo g1) = g1
  /\ (quoteFree (abiFileLocation (context g)) = true ->
      (forall d, outputPathDirectory (context g) = Some d -> quoteFree d = true) ->
      g1 = g).
Proof.
  intros g1.
  destruct (clearAllQuotes_context g) as (Hloc & Hdir & _).
  fold g1 in Hloc, Hdir.
  assert (H1 : quoteFree (abiFileLocation (context g1)) = true).
  { rewrite Hloc. apply quoteFree_removeQuotes. }
  assert (H2 : forall d, outputPathDirectory (context g1) = Some d ->
                         quoteFree d = true).
  { intros d Hd. rewrite Hdir in Hd.
    destruct (outputPathDirectory (context g)) as [d0|]; [|discriminate].
    simpl in Hd. inversion Hd. apply quoteFree_removeQuotes. }
  repeat split; try assumption.
  - now apply clearAllQuotes_quoteFree.
  - apply clearAllQuotes_quoteFree.
Qed.

Lemma split_head sep s :
  exists h t,
    Js.split sep s = h :: t
    /\ without sep h = true
    /\ (s = h \/ exists rest, s = h +:+ String sep rest).
Proof.
  induction s as [|c s (h & t & E & Hh & Hs)].
  - exists "", []. simpl. auto.
  - simpl. destruct (Ascii.eqb c sep) eqn:Ec.
    + apply Ascii.eqb_eq in Ec. subst c.
      exists "", (Js.split sep s). repeat split. right. now exists s.
    + rewrite E. exists (String c h), t. simpl. rewrite Ec, Hh.
      repeat split. destruct Hs as [->|[rest ->]]; [now left|].
      right. now exists rest.
Qed.

(** X13.  The raw name derived from the ABI location is its base name cut at
    the first dot: it contains no dot, and the base name is the raw name,
    alone or followed by a dot and the rest. *)
Theorem raw_name_is_base_name_up_to_first_dot c :
  let base := path_basename (abiFileLocation c) in
  let raw := getAbiFileLocationRawName c in
  without "." raw = true
  /\ (base = raw \/ exists rest, base = raw +:+ "." +:+ rest).
Proof.
  intros base raw. unfold raw, getAbiFileLocationRawName. fold base.
  destruct (split_head "." base) as (h & t & E & Hh & Hs).
  rewrite E. split; [exact Hh|]. exact Hs.
Qed.

Lemma without_app c a b :
  without c (a +:+ b) = without c a && without c b.
Proof.
  induction a as [|x a IH]; [reflexivity|].
  rewrite string_app_cons. simpl. rewrite IH. now rewrite andb_assoc.
Qed.

Lemma without_join c parts :
  Forall (fun h => without c h = true) parts -> without c (Js.join parts) = true.
Proof.
  induction 1 as [|h parts Hh _ IH]; [reflexivity|].
  unfold Js.join in *. simpl. rewrite without_app, Hh. exact IH.
Qed.

Lemma split_parts_without sep s :
  Forall (fun h => without sep h = true) (Js.split sep s).
Proof.
  induction s as [|c s IH]; simpl; [repeat constructor|].
  destruct (Ascii.eqb c sep) eqn:Ec; [now constructor|].
  destruct (Js.split sep s) as [|h t]; [repeat constructor; simpl; now rewrite Ec|].
  inversion IH as [|? ? Hh Ht]; subst. constructor; [|exact Ht].
  simpl. now rewrite Ec, Hh.
Qed.

Lemma split_keeps_without c sep s :
  without c s = true -> Forall (fun h => without c h = true) (Js.split sep s).
Proof.
  induction s as [|x s IH]; simpl; [repeat constructor|].
  intros Hs. apply andb_true_iff in Hs as [Hx Hs]. specialize (IH Hs).
  destruct (Ascii.eqb x sep); [now constructor|].
  destruct (Js.split sep s) as [|h t]; [repeat constructor; simpl; now rewrite Hx|].
  inversion IH as [|? ? Hh Ht]; subst. constructor; [|exact Ht].
  simpl. now rewrite Hx, Hh.
Qed.

Lemma Forall_map_capitalize c parts :
  (forall s, without c s = true -> without c (capitalize s) = true) ->
  Forall (fun h => without c h = true) parts ->
  Forall (fun h => without c h = true) (map capitalize parts).
Proof.
  intros Hcap. induction 1; simpl; constructor; auto.
Qed.

(** X14.  Provided [capitalize] puts no hyphen and no dot into a string that
    has none, the name [formatAbiName] makes of any string has neither a
    hyphen nor a dot, and so has the ABI name of every context. *)
Theorem abi_name_has_no_hyphen_or_dot :
  (forall s, without "-" s = true -> without "-" (capitalize s) = true) ->
  (forall s, without "." s = true -> without "." (capitalize s) = true) ->
  (forall n, without "-" (formatAbiName n) = true
             /\ without "." (formatAbiName n) = true)
  /\ (forall c, without "-" (getAbiName c) = true
                /\ without "." (getAbiName c) = true).
Proof.
  intros Hhyphen Hdot.
  assert (Hformat : forall n, without "-" (formatAbiName n) = true
                              /\ without "." (formatAbiName n) = true).
  { intros n. unfold formatAbiName. split.
    - apply without_join, Forall_map_capitalize; [exact Hhyphen|].
      apply split_keeps_without.
      apply without_join, Forall_map_capitalize; [exact Hhyphen|].
      apply split_parts_without.
    - apply without_join, Forall_map_capitalize; [exact Hdot|].
      apply split_parts_without. }
  split; [exact Hformat|].
  intros c. unfold getAbiName.
  destruct (name c) as [n|]; [destruct (Js.truthy (Some n))|]; apply Hformat.
Qed.

End Names.

(** ** The stages of [generate], one at a time *)

Section Stages.
Context `{Collaborators}.

Lemma generate_stages :
  generate
  = (let* _ := onThis clearAllQuotesFromContextInfo in
     let* s := get in
     let* isDir := onWorld (isDirectory (getOutputPathDirectory (context (fst s)))) in
     if negb isDir then throw OutputPathNotDirectory
     else let* abi := getAbiJson in buildAndWrite abi).
Proof. reflexivity. Qed.

Lemma onWorld_eq {A} (m : M World A) g w r w' :
  m w = (r, w') -> onWorld m (g, w) = (r, (g, w')).
Proof. intros E. unfold onWorld. simpl. now rewrite E. Qed.

(** *** Validating and loading *)

Lemma isDirectory_missing d w :
  files w !! path_resolve d = None ->
  isDirectory d w = (Ok false, record (IoExists d) w).
Proof.
  intros E. unfold isDirectory, bind, existsSync, ret. simpl.
  rewrite E. rewrite bool_decide_eq_false_2; [reflexivity|].
  intros [x Hx]. discriminate.
Qed.

Lemma isDirectory_file d text w :
  files w !! path_resolve d = Some (File text) ->
  isDirectory d w = (Ok false, record (IoLstat d) (record (IoExists d) w)).
Proof.
  intros E. unfold isDirectory, bind, existsSync, lstatIsDirectory. simpl.
  rewrite E. rewrite bool_decide_eq_true_2 by eauto. simpl. now rewrite E.
Qed.

Lemma generate_not_a_directory g w :
  let g1 := snd (clearAllQuotesFromContextInfo g) in
  let d := getOutputPathDirectory (context g1) in
  files w !! path_resolve d <> Some Dir ->
  exists w',
    generate (g, w) = (Throw OutputPathNotDirectory, (g1, w'))
    /\ files w' = files w
    /\ watchers w' = watchers w
    /\ (trace w' = trace w ++ [IoExists d]
        \/ trace w' = trace w ++ [IoExists d; IoLstat d]).
Proof.
  intros g1 d Hd. rewrite generate_stages.
  rewrite (bind_ok _ _ (g, w) tt (g1, w)) by reflexivity.
  rewrite bind_get. cbn [fst].
  destruct (files w !! path_resolve d) as [[|text]|] eqn:E; [congruence| |].
  - exists (record (IoLstat d) (record (IoExists d) w)).
    rewrite (bind_ok _ _ _ false _
               (onWorld_eq _ g1 w _ _ (isDirectory_file d text w E))).
    cbn [negb]. repeat split. right. simpl. now rewrite <- app_assoc.
  - exists (record (IoExists d) w).
    rewrite (bind_ok _ _ _ false _
               (onWorld_eq _ g1 w _ _ (isDirectory_missing d w E))).
    cbn [negb]. repeat split. now left.
Qed.

(** X2.  When the output path does not name a directory (nothing is there,
    or a file is), [generate] throws 'output path must be a directory'
    straight after inspecting that path: the ABI file is not looked at,
    nothing is written or watched, and the accumulator is as it was. *)
Theorem output_path_must_be_a_directory g w :
  let g1 := snd (clearAllQuotesFromContextInfo g) in
  let d := getOutputPathDirectory (context g1) in
  files w !! path_resolve d <> Some Dir ->
  fst (generate (g, w)) = Throw OutputPathNotDirectory
  /\ files (snd (snd (generate (g, w)))) = files w
  /\ watchers (snd (snd (generate (g, w)))) = watchers w
  /\ accumulators (fst (snd (generate (g, w)))) = accumulators g
  /\ (trace (snd (snd (generate (g, w)))) = trace w ++ [IoExists d]
      \/ trace (snd (snd (generate (g, w)))) = trace w ++ [IoExists d; IoLstat d]).
Proof.
  intros g1 d Hd.
  destruct (generate_not_a_directory g w Hd) as (w' & E & Hf & Hw & Ht).
  rewrite E. simpl. repeat split; assumption.
Qed.

Lemma getAbiJson_missing g w :
  files w !! path_resolve (getAbiFileFullPathLocation (context g)) = None ->
  getAbiJson (g, w)
  = (Throw (AbiFileNotFound (getAbiFileFullPathLocation (context g))),
     (g, record (IoExists (getAbiFileFullPathLocation (context g))) w)).
Proof.
  intros E. unfold getAbiJson, bind, get, onWorld, existsSync, throw. simpl.
  rewrite E. rewrite bool_decide_eq_false_2; [reflexivity|].
  intros [x Hx]. discriminate.
Qed.

Lemma getAbiJson_directory g w :
  files w !! path_resolve (getAbiFileFullPathLocation (context g)) = Some Dir ->
  getAbiJson (g, w)
  = (Throw (AbiFileNotJson (getAbiFileFullPathLocation (context g))),
     (g, record (IoRead (getAbiFileFullPathLocation (context g)))
           (record (IoExists (getAbiFileFullPathLocation (context g))) w))).
Proof.
  intros E. unfold getAbiJson, bind, get, tryCatch, onWorld, existsSync,
    readFileSync, throw. simpl.
  rewrite E. rewrite bool_decide_eq_true_2 by eauto. simpl. now rewrite E.
Qed.

(** X3.  With the output directory in place: when nothing exists at the
    resolved ABI location, [generate] throws 'can not find abi file' naming
    the resolved path, without trying to read it; when a directory is there,
    the failed read is reported as 'is not a json file'.  Either way nothing
    is written. *)
Theorem abi_file_missing_or_unreadable g w :
  let g1 := snd (clearAllQuotesFromContextInfo g) in
  let d := getOutputPathDirectory (context g1) in
  let p := getAbiFileFullPathLocation (context g1) in
  files w !! path_resolve d = Some Dir ->
  (files w !! path_resolve p = None ->
     fst (generate (g, w)) = Throw (AbiFileNotFound p)
     /\ files (snd (snd (generate (g, w)))) = files w
     /\ trace (snd (snd (generate (g, w))))
        = trace w ++ [IoExists d; IoLstat d; IoExists p])
  /\ (files w !! path_resolve p = Some Dir ->
        fst (generate (g, w)) = Throw (AbiFileNotJson p)
        /\ files (snd (snd (generate (g, w)))) = files w
        /\ trace (snd (snd (generate (g, w))))
           = trace w ++ [IoExists d; IoLstat d; IoExists p; IoRead p]).
Proof.
  intros g1 d p Hd.
  assert (E1 : onWorld (isDirectory d) (g1, w)
               = (Ok true, (g1, record (IoLstat d) (record (IoExists d) w)))).
  { apply onWorld_eq. now apply isDirectory_dir. }
  split; intros Hp; rewrite generate_stages;
    rewrite (bind_ok _ _ (g, w) tt (g1, w)) by reflexivity;
    rewrite bind_get; cbn [fst];
    rewrite (bind_ok _ _ _ _ _ E1); cbn [negb].
  - erewrite bind_throw by (apply getAbiJson_missing; exact Hp).
    simpl. repeat split. now rewrite <- !app_assoc.
  - erewrite bind_throw by (apply getAbiJson_directory; exact Hp).
    simpl. repeat split. now rewrite <- !app_assoc.
Qed.

Lemma generate_loaded_eq g w text abi :
  let g1 := snd (clearAllQuotesFromContextInfo g) in
  let d := getOutputPathDirectory (context g1) in
  let p := getAbiFileFullPathLocation (context g1) in
  files w !! path_resolve d = Some Dir ->
  files w !! path_resolve p = Some (File text) ->
  JSON_parse text = Some abi ->
  generate (g, w) = buildAndWrite abi (g1, loadedWorld (context g1) w).
Proof.
  intros g1 d p Hd Hp Hparse.
  destruct (generate_loaded g w text Hd Hp) as [E1 E2].
  rewrite Hparse in E2. rewrite generate_stages.
  rewrite (bind_ok _ _ (g, w) tt (g1, w)) by reflexivity.
  rewrite bind_get. cbn [fst].
  rewrite (bind_ok _ _ _ _ _ E1). cbn [negb].
  now rewrite (bind_ok _ _ _ _ _ E2).
Qed.

(** *** Formatting *)

Lemma getPrettierOptions_spec g :
  getPrettierOptions g = (Ok (formatterOptions (context g)), parserForced g).
Proof.
  unfold getPrettierOptions, formatterOptions, parserForced, bind, get, modify, ret.
  destruct g as [[loc dir nm prov [o|] wa] ds es ms]; reflexivity.
Qed.

Lemma formatTypings_accepted full formatted g w :
  prettier_format full (formatterOptions (context g)) = Some formatted ->
  formatTypings full (g, w) = (Ok formatted, (parserForced g, w)).
Proof.
  intros E. unfold formatTypings, tryCatch.
  erewrite bind_ok by (apply onThis_eq, getPrettierOptions_spec).
  unfold prettierFormat. now rewrite E.
Qed.

Lemma formatTypings_rejected full g w :
  prettier_format full (formatterOptions (context g)) = None ->
  formatTypings full (g, w)
  = (match prettier_format full getDefaultPrettierOptions with
     | Some formatted => Ok formatted
     | None => Throw FormatError
     end,
     (parserForced g, logLines [fallbackMessage; ""] w)).
Proof.
  intros E. unfold formatTypings, tryCatch.
  erewrite bind_ok by (apply onThis_eq, getPrettierOptions_spec).
  unfold prettierFormat at 1. rewrite E.
  unfold throw, bind, onWorld, loggerLog, modify, prettierFormat, logLines. simpl.
  rewrite <- app_assoc. simpl.
  now destruct (prettier_format full getDefaultPrettierOptions).
Qed.

(** *** Writing and finishing *)

Lemma writeAndFinish_refused text g w :
  files w !! path_resolve (buildOutputLocation (context g)) = Some Dir ->
  writeAndFinish text (g, w)
  = (Throw (FsError (buildOutputLocation (context g))),
     (g, record (IoWrite (buildOutputLocation (context g))) w)).
Proof.
  intros E. unfold writeAndFinish. rewrite bind_get. cbn [fst].
  erewrite bind_throw; [reflexivity|].
  apply onWorld_eq. unfold writeFileSync. now rewrite E.
Qed.

Lemma writeFileSync_ok p text w :
  files w !! path_resolve p <> Some Dir ->
  writeFileSync p text w = (Ok tt, written p text w).
Proof.
  intros E. unfold writeFileSync, written.
  destruct (files w !! path_resolve p) as [[|old]|]; [congruence | reflexivity..].
Qed.

Lemma writeAndFinish_ok text g w :
  let out := buildOutputLocation (context g) in
  let p := getAbiFileFullPathLocation (context g) in
  files w !! path_resolve out <> Some Dir ->
  is_Some (files w !! path_resolve p) ->
  writeAndFinish text (g, w)
  = (Ok {| outputLocation := out; abiJsonFileLocation := p |},
     if watch (context g)
     then (setWatch false (cleared g), watched p (written out text w))
     else (cleared g, written out text w)).
Proof.
  intros out p Hout Hp. unfold writeAndFinish. rewrite bind_get. cbn [fst].
  erewrite bind_ok by (apply onWorld_eq, writeFileSync_ok; exact Hout).
  rewrite (bind_ok _ _ _ tt (cleared g, written out text w)) by reflexivity.
  rewrite bind_get. cbn [fst cleared context].
  destruct (watch (context g)) eqn:W; [|reflexivity].
  assert (Hp' : is_Some (files (written out text w) !! path_resolve p)).
  { unfold written. cbn [files]. rewrite lookup_insert.
    destruct (decide (path_resolve out = path_resolve p)); [eauto | exact Hp]. }
  destruct Hp' as [node Hnode].
  erewrite bind_ok.
  2: { unfold watchForChanges.
       rewrite (bind_ok _ _ _ tt (setWatch false (cleared g), written out text w))
         by reflexivity.
       rewrite bind_get. cbn [fst]. apply onWorld_eq.
       unfold fsWatch.
       change (getAbiFileFullPathLocation (context (setWatch false (cleared g))))
         with p.
       rewrite Hnode. reflexivity. }
  reflexivity.
Qed.

(** *** The whole pipeline *)

Lemma buildAndWrite_built abi main g1 g2 full g3 w :
  buildAbiInterface abi g1 = (Ok main, g2) ->
  buildFullTypings abi main g2 = (Ok full, g3) ->
  buildAndWrite abi (g1, w)
  = (let* fullTypingsFormatted := formatTypings full in
     writeAndFinish fullTypingsFormatted) (g3, w)
  /\ context g3 = context g1.
Proof.
  intros Hmain Hfull. split.
  - unfold buildAndWrite.
    rewrite (bind_ok _ _ _ _ _ (onThis_eq _ g1 w _ _ Hmain)).
    now rewrite (bind_ok _ _ _ _ _ (onThis_eq _ g2 w _ _ Hfull)).
  - pose proof (keeps_context_buildAbiInterface (context g1) abi g1 eq_refl) as K1.
    rewrite Hmain in K1. simpl in K1.
    pose proof (keeps_context_buildFullTypings (context g2) abi main g2 eq_refl)
      as K2.
    rewrite Hfull in K2. simpl in K2. congruence.
Qed.

(** X4.  The run that returns.  With the output directory in place, the ABI
    file parsed, both building steps returned and no directory in the way of
    the output file: when prettier accepts the options of the context, or
    rejects them and accepts the built-in ones, [generate] returns the output
    location and the resolved ABI location, the file at the output location
    holds the formatted typings and no other file changed, the accumulator is
    empty, the two fallback lines are logged exactly in the second case, and
    a watcher on the ABI file is registered exactly when the watch flag was
    set. *)
Theorem generate_returns_and_writes g w text abi main g2 full g3 formatted lines :
  let g1 := snd (clearAllQuotesFromContextInfo g) in
  let c := context g1 in
  let d := getOutputPathDirectory c in
  let p := getAbiFileFullPathLocation c in
  let out := buildOutputLocation c in
  files w !! path_resolve d = Some Dir ->
  files w !! path_resolve p = Some (File text) ->
  JSON_parse text = Some abi ->
  buildAbiInterface abi g1 = (Ok main, g2) ->
  buildFullTypings abi main g2 = (Ok full, g3) ->
  (prettier_format full (formatterOptions c) = Some formatted /\ lines = []
   \/ prettier_format full (formatterOptions c) = None
      /\ prettier_format full getDefaultPrettierOptions = Some formatted
      /\ lines = [fallbackMessage; ""]) ->
  files w !! path_resolve out <> Some Dir ->
  fst (generate (g, w)) = Ok {| outputLocation := out; abiJsonFileLocation := p |}
  /\ files (snd (snd (generate (g, w))))
     = <[path_resolve out := File formatted]> (files w)
  /\ accumulators (fst (snd (generate (g, w)))) = ([], [], [])
  /\ logged (snd (snd (generate (g, w)))) = logged w ++ lines
  /\ watchers (snd (snd (generate (g, w))))
     = watchers w ++ (if watch (context g) then [path_resolve p] else [])
  /\ trace (snd (snd (generate (g, w))))
     = trace w ++ [IoExists d; IoLstat d; IoExists p; IoRead p; IoWrite out]
         ++ (if watch (context g) then [IoWatch p] else []).
Proof.
  intros g1 c d p out Hd Hp Hparse Hmain Hfull Hformat Hout.
  assert (Eg : generate (g, w) = buildAndWrite abi (g1, loadedWorld c w))
    by exact (generate_loaded_eq g w text abi Hd Hp Hparse).
  rewrite Eg. clear Eg.
  destruct (buildAndWrite_built abi main g1 g2 full g3 (loadedWorld c w)
              Hmain Hfull) as [E Hc].
  rewrite E. clear E. fold c in Hc.
  assert (Hw : watch c = watch (context g)).
  { now destruct (clearAllQuotes_context g) as (_ & _ & _ & _ & _ & Hwatch). }
  assert (Hfinish : forall w2,
            files w2 = files w ->
            writeAndFinish formatted (parserForced g3, w2)
            = (Ok {| outputLocation := out; abiJsonFileLocation := p |},
               if watch (context g)
               then (setWatch false (cleared (parserForced g3)),
                     watched p (written out formatted w2))
               else (cleared (parserForced g3), written out formatted w2))).
  { intros w2 Hfiles.
    assert (Hwf :
      files w2 !! path_resolve (buildOutputLocation (context g3)) <> Some Dir ->
      is_Some (files w2 !! path_resolve (getAbiFileFullPathLocation (context g3))) ->
      writeAndFinish formatted (parserForced g3, w2)
      = (Ok {| outputLocation := buildOutputLocation (context g3);
               abiJsonFileLocation := getAbiFileFullPathLocation (context g3) |},
         if watch (context g3)
         then (setWatch false (cleared (parserForced g3)),
               watched (getAbiFileFullPathLocation (context g3))
                 (written (buildOutputLocation (context g3)) formatted w2))
         else (cleared (parserForced g3),
               written (buildOutputLocation (context g3)) formatted w2)))
      by exact (writeAndFinish_ok formatted (parserForced g3) w2).
    rewrite Hc, Hw in Hwf.
    apply Hwf; rewrite Hfiles; [exact Hout | exists (File text); exact Hp]. }
  destruct Hformat as [[Hacc ->]|(Hrej & Hdef & ->)].
  - erewrite bind_ok
      by (apply formatTypings_accepted; rewrite Hc; exact Hacc).
    rewrite Hfinish by reflexivity.
    destruct (watch (context g)); simpl; rewrite ?app_nil_r;
      repeat split; now rewrite <- ?app_assoc.
  - erewrite bind_ok.
    2: { rewrite formatTypings_rejected by (rewrite Hc; exact Hrej).
         rewrite Hdef. reflexivity. }
    rewrite Hfinish by reflexivity.
    destruct (watch (context g)); simpl; rewrite ?app_nil_r;
      repeat split; now rewrite <- ?app_assoc.
Qed.

(** X5.  When prettier rejects the options of the context and the built-in
    ones too, [generate] throws the formatter's error after logging the two
    fallback lines; no file is written, no watcher is registered, and the
    accumulator keeps what building collected: it is not reset. *)
Theorem formatter_rejecting_twice_aborts g w text abi main g2 full g3 :
  let g1 := snd (clearAllQuotesFromContextInfo g) in
  let c := context g1 in
  let d := getOutputPathDirectory c in
  let p := getAbiFileFullPathLocation c in
  files w !! path_resolve d = Some Dir ->
  files w !! path_resolve p = Some (File text) ->
  JSON_parse text = Some abi ->
  buildAbiInterface abi g1 = (Ok main, g2) ->
  buildFullTypings abi main g2 = (Ok full, g3) ->
  prettier_format full (formatterOptions c) = None ->
  prettier_format full getDefaultPrettierOptions = None ->
  fst (generate (g, w)) = Throw FormatError
  /\ files (snd (snd (generate (g, w)))) = files w
  /\ watchers (snd (snd (generate (g, w)))) = watchers w
  /\ logged (snd (snd (generate (g, w)))) = logged w ++ [fallbackMessage; ""]
  /\ accumulators (fst (snd (generate (g, w)))) = accumulators g3
  /\ trace (snd (snd (generate (g, w))))
     = trace w ++ [IoExists d; IoLstat d; IoExists p; IoRead p].
Proof.
  intros g1 c d p Hd Hp Hparse Hmain Hfull Hrej Hdef.
  assert (Eg : generate (g, w) = buildAndWrite abi (g1, loadedWorld c w))
    by exact (generate_loaded_eq g w text abi Hd Hp Hparse).
  rewrite Eg. clear Eg.
  destruct (buildAndWrite_built abi main g1 g2 full g3 (loadedWorld c w)
              Hmain Hfull) as [E Hc].
  rewrite E. clear E. fold c in Hc.
  erewrite bind_throw.
  2: { rewrite formatTypings_rejected by (rewrite Hc; exact Hrej).
       rewrite Hdef. reflexivity. }
  simpl. repeat split. now rewrite <- !app_assoc.
Qed.

(** X6.  When building returned, prettier accepted the options of the
    context or, having rejected them, the built-in ones, and a directory
    stands where the output file should go, the write is refused:
    [generate] throws the file-system error for the output location, no file
    changes, no watcher is registered, the accumulator keeps what building
    collected, and the two fallback lines are logged exactly when the
    options of the context were rejected. *)
Theorem refused_write_aborts g w text abi main g2 full g3 formatted lines :
  let g1 := snd (clearAllQuotesFromContextInfo g) in
  let c := context g1 in
  let d := getOutputPathDirectory c in
  let p := getAbiFileFullPathLocation c in
  let out := buildOutputLocation c in
  files w !! path_resolve d = Some Dir ->
  files w !! path_resolve p = Some (File text) ->
  JSON_parse text = Some abi ->
  buildAbiInterface abi g1 = (Ok main, g2) ->
  buildFullTypings abi main g2 = (Ok full, g3) ->
  (prettier_format full (formatterOptions c) = Some formatted /\ lines = []
   \/ prettier_format full (formatterOptions c) = None
      /\ prettier_format full getDefaultPrettierOptions = Some formatted
      /\ lines = [fallbackMessage; ""]) ->
  files w !! path_resolve out = Some Dir ->
  fst (generate (g, w)) = Throw (FsError out)
  /\ files (snd (snd (generate (g, w)))) = files w
  /\ watchers (snd (snd (generate (g, w)))) = watchers w
  /\ accumulators (fst (snd (generate (g, w)))) = accumulators g3
  /\ logged (snd (snd (generate (g, w)))) = logged w ++ lines.
Proof.
  intros g1 c d p out Hd Hp Hparse Hmain Hfull Hformat Hout.
  assert (Eg : generate (g, w) = buildAndWrite abi (g1, loadedWorld c w))
    by exact (generate_loaded_eq g w text abi Hd Hp Hparse).
  rewrite Eg. clear Eg.
  destruct (buildAndWrite_built abi main g1 g2 full g3 (loadedWorld c w)
              Hmain Hfull) as [E Hc].
  rewrite E. clear E. fold c in Hc.
  assert (Hrefused : forall w2,
            files w2 = files w ->
            writeAndFinish formatted (parserForced g3, w2)
            = (Throw (FsError out), (parserForced g3, record (IoWrite out) w2))).
  { intros w2 Hfiles.
    assert (Hwf :
      files w2 !! path_resolve (buildOutputLocation (context g3)) = Some Dir ->
      writeAndFinish formatted (parserForced g3, w2)
      = (Throw (FsError (buildOutputLocation (context g3))),
         (parserForced g3,
          record (IoWrite (buildOutputLocation (context g3))) w2)))
      by exact (writeAndFinish_refused formatted (parserForced g3) w2).
    rewrite Hc in Hwf. apply Hwf. rewrite Hfiles. exact Hout. }
  destruct Hformat as [[Hacc ->]|(Hrej & Hdef & ->)].
  - erewrite bind_ok
      by (apply formatTypings_accepted; rewrite Hc; exact Hacc).
    rewrite Hrefused by reflexivity.
    simpl. rewrite app_nil_r. repeat split.
  - erewrite bind_ok.
    2: { rewrite formatTypings_rejected by (rewrite Hc; exact Hrej).
         rewrite Hdef. reflexivity. }
    rewrite Hrefused by reflexivity.
    simpl. repeat split.
Qed.

(** *** What a run does to the file system, whatever happens *)

Lemma keeps_onThis_context (J : GeneratorContext -> World -> Prop) {A}
  (m : M AbiGenerator A) :
  (forall c, keeps (fun g => context g = c) m) ->
  keeps (fun s : AbiGenerator * World => J (context (fst s)) (snd s)) (onThis m).
Proof.
  intros Hm [g w] Hs. specialize (Hm (context g) g eq_refl).
  unfold onThis. simpl in *. destruct (m g) as [r g']. simpl in *.
  now rewrite Hm.
Qed.

Section WorldInvariant.
Variable I : World -> Prop.
Hypothesis I_record : forall ev w, I w -> I (record ev w).

Lemma keeps_world_existsSync p : keeps I (existsSync p).
Proof. intros w Hw. now apply I_record. Qed.

Lemma keeps_world_lstatIsDirectory p : keeps I (lstatIsDirectory p).
Proof.
  intros w Hw. unfold lstatIsDirectory.
  destruct (files w !! path_resolve p) as [[|text]|]; now apply I_record.
Qed.

Lemma keeps_world_isDirectory p : keeps I (isDirectory p).
Proof.
  unfold isDirectory. apply keeps_bind; [apply keeps_world_existsSync|].
  intros [|]; [apply keeps_world_lstatIsDirectory | apply keeps_ret].
Qed.

End WorldInvariant.

Lemma generate_world fs0 ws0 wa0 :
  hoare
    (fun s : AbiGenerator * World =>
       watch (context (fst s)) = wa0
       /\ files (snd s) = fs0 /\ watchers (snd s) = ws0)
    generate
    (fun r s =>
       match r with
       | Throw _ => files (snd s) = fs0 /\ watchers (snd s) = ws0
       | Ok response =>
           (exists text,
              files (snd s)
              = <[path_resolve (outputLocation response) := File text]> fs0)
           /\ watchers (snd s)
              = ws0 ++ (if wa0
                        then [path_resolve (abiJsonFileLocation response)]
                        else [])
       end).
Proof.
  set (J0 := fun (c : GeneratorContext) (w : World) =>
               watch c = wa0 /\ files w = fs0 /\ watchers w = ws0).
  set (J := fun (c : GeneratorContext) (w : World) =>
              J0 c w
              /\ is_Some (files w !! path_resolve (getAbiFileFullPathLocation c))).
  set (Q := fun (r : Result GenerateResponse) (s : AbiGenerator * World) =>
              match r with
              | Throw _ => files (snd s) = fs0 /\ watchers (snd s) = ws0
              | Ok response =>
                  (exists text,
                     files (snd s)
                     = <[path_resolve (outputLocation response) := File text]> fs0)
                  /\ watchers (snd s)
                     = ws0 ++ (if wa0
                               then [path_resolve (abiJsonFileLocation response)]
                               else [])
              end).
  change (hoare (fun s : AbiGenerator * World => J0 (context (fst s)) (snd s))
            generate Q).
  assert (F0 : forall e s, J0 (context (fst s)) (snd s) -> Q (Throw e) s).
  { intros e s (_ & Hf & Hw). now split. }
  assert (F : forall e s, J (context (fst s)) (snd s) -> Q (Throw e) s).
  { intros e s [H0 _]. now apply F0. }
  rewrite generate_stages.
  eapply hoare_bind
    with (R := fun _ s => J0 (context (fst s)) (snd s)); [| |exact F0].
  { intros [g w] (Hwa & Hf & Hw). unfold onThis. simpl.
    destruct (clearAllQuotes_context g) as (_ & _ & _ & _ & _ & Hwatch).
    unfold clearAllQuotesFromContextInfo, modify in Hwatch. simpl in Hwatch.
    repeat split; try assumption. now rewrite Hwatch. }
  intros _. eapply hoare_bind
    with (R := fun _ s => J0 (context (fst s)) (snd s));
    [apply keeps_get| |exact F0].
  intros s0. eapply hoare_bind
    with (R := fun _ s => J0 (context (fst s)) (snd s)); [| |exact F0].
  { apply keeps_and.
    - apply (keeps_onWorld (fun g => watch (context g) = wa0)).
    - apply (keeps_onWorld_lift (fun w => files w = fs0 /\ watchers w = ws0)).
      apply keeps_world_isDirectory. intros ev w Hw. exact Hw. }
  intros isDir. destruct (negb isDir).
  { intros s Hs. now apply F0. }
  eapply hoare_bind
    with (R := fun r s => match r with
                          | Ok _ => J (context (fst s)) (snd s)
                          | Throw _ => J0 (context (fst s)) (snd s)
                          end).
  { intros [g w] HJ. simpl in HJ.
    destruct (files w !! path_resolve (getAbiFileFullPathLocation (context g)))
      as [[|text]|] eqn:E.
    - rewrite (getAbiJson_directory g w E). exact HJ.
    - rewrite (getAbiJson_read g w text E).
      destruct (JSON_parse text); simpl; [|exact HJ].
      split; [exact HJ|]. exists (File text). exact E.
    - rewrite (getAbiJson_missing g w E). exact HJ. }
  2: { intros e s Hs. now apply F0. }
  intros abi. unfold buildAndWrite.
  eapply hoare_bind
    with (R := fun _ s => J (context (fst s)) (snd s)); [| |exact F].
  { apply (keeps_onThis_context J). intros c.
    apply keeps_context_buildAbiInterface. }
  intros main. eapply hoare_bind
    with (R := fun _ s => J (context (fst s)) (snd s)); [| |exact F].
  { apply (keeps_onThis_context J). intros c.
    apply keeps_context_buildFullTypings. }
  intros full. eapply hoare_bind
    with (R := fun _ s => J (context (fst s)) (snd s)); [| |exact F].
  { intros [g w] HJ. simpl in HJ.
    destruct (prettier_format full (formatterOptions (context g))) as [t|] eqn:E.
    - rewrite (formatTypings_accepted full t g w E). exact HJ.
    - rewrite (formatTypings_rejected full g w E). exact HJ. }
  intros formatted [g w] ((Hwa & Hf & Hw) & Hp). simpl in Hwa, Hf, Hw, Hp.
  assert (Hcase : files w !! path_resolve (buildOutputLocation (context g))
                  = Some Dir
                  \/ files w !! path_resolve (buildOutputLocation (context g))
                     <> Some Dir).
  { destruct (files w !! path_resolve (buildOutputLocation (context g)))
      as [[|old]|]; [now left | now right..]. }
  destruct Hcase as [Hdir|Hout].
  - rewrite (writeAndFinish_refused formatted g w Hdir). simpl. now split.
  - rewrite (writeAndFinish_ok formatted g w Hout Hp). rewrite Hwa.
    destruct wa0; simpl; rewrite Hf, Hw; rewrite ?app_nil_r; eauto.
Qed.

(** X7.  Whatever its input, a run of [generate] changes at most one file.
    If it throws, the files and the registered watchers are as before: it
    leaves no partial output.  If it returns, the files differ from before
    only at the output location it answers, and it has registered one
    watcher, on the ABI location it answers, exactly when the watch flag was
    set. *)
Theorem generate_touches_only_the_output_file g w :
  match fst (generate (g, w)) with
  | Throw _ =>
      files (snd (snd (generate (g, w)))) = files w
      /\ watchers (snd (snd (generate (g, w)))) = watchers w
  | Ok response =>
      (exists text,
         files (snd (snd (generate (g, w))))
         = <[path_resolve (outputLocation response) := File text]> (files w))
      /\ watchers (snd (snd (generate (g, w))))
         = watchers w ++ (if watch (context g)
                          then [path_resolve (abiJsonFileLocation response)]
                          else [])
  end.
Proof.
  exact (generate_world (files w) (watchers w) (watch (context g)) (g, w)
           (conj eq_refl (conj eq_refl eq_refl))).
Qed.

(** X8.  The watcher is registered once.  After a run that returned, the
    watch flag of the context is off, and a further run on the same
    generator, in whatever world, registers no watcher. *)
Theorem watcher_is_registered_once g w w2 :
  isOk (fst (generate (g, w))) = true ->
  watch (context (fst (snd (generate (g, w))))) = false
  /\ watchers (snd (snd (generate (fst (snd (generate (g, w))), w2))))
     = watchers w2.
Proof.
  intros Hok.
  destruct (generate_context (context g) (g, w) eq_refl) as [_ Hafter].
  destruct (Hafter Hok) as (_ & _ & _ & _ & _ & Hwatch).
  split; [exact Hwatch|].
  pose proof (generate_world (files w2) (watchers w2) false
                (fst (snd (generate (g, w))), w2)
                (conj Hwatch (conj eq_refl eq_refl))) as Hw.
  destruct (fst (generate (fst (snd (generate (g, w))), w2))).
  - destruct Hw as [_ Hw]. now rewrite app_nil_r in Hw.
  - now destruct Hw.
Qed.

(** *** Valid input *)

Lemma buildFullTypings_ok F (abi : list AbiItem) main g :
  factoryOf (provider (context g)) = Some F ->
  exists full, buildFullTypings (JsonArray abi) main g = (Ok full, g).
Proof.
  intros HF. unfold factoryOf in HF.
  destruct (provider (context g)) eqn:P; inversion HF; subst F;
    unfold buildFullTypings, buildEventsType, buildEventsInterface,
      buildMethodNamesType, buildParametersAndReturnTypeInterfaces,
      eventInterfaceProperties, bind, get, ret;
    repeat first [rewrite P | progress simpl]; eauto.
Qed.

(** X9.  For a supported provider and an ABI file holding an item array
    whose composite inputs carry their components, building cannot fail:
    with the output directory in place, [generate] either returns, or
    throws the formatter's error, or throws the file-system error of the
    refused write. *)
Theorem valid_abi_fails_only_in_formatting_or_writing g w text abi F :
  let g1 := snd (clearAllQuotesFromContextInfo g) in
  let c := context g1 in
  let d := getOutputPathDirectory c in
  let p := getAbiFileFullPathLocation c in
  let out := buildOutputLocation c in
  files w !! path_resolve d = Some Dir ->
  files w !! path_resolve p = Some (File text) ->
  JSON_parse text = Some (JsonArray abi) ->
  wellFormedAbi abi ->
  factoryOf (provider (context g)) = Some F ->
  fst (generate (g, w)) = Ok {| outputLocation := out; abiJsonFileLocation := p |}
  \/ fst (generate (g, w)) = Throw FormatError
  \/ fst (generate (g, w)) = Throw (FsError out).
Proof.
  intros g1 c d p out Hd Hp Hparse Hwf HF.
  assert (HF1 : factoryOf (provider c) = Some F).
  { destruct (clearAllQuotes_context g) as (_ & _ & _ & Hprov & _).
    unfold c, g1. now rewrite Hprov. }
  destruct (buildAbiInterfaceFrom_ok F abi Hwf "" g1 HF1) as [properties E].
  set (g2 := extend (auxiliaryInterfaces abi) (eventNamesOf abi)
               (methodNamesOf abi) g1) in *.
  assert (Hmain : buildAbiInterface (JsonArray abi) g1
                  = (Ok (buildInterface (getAbiName (context g2)) properties), g2)).
  { unfold buildAbiInterface. erewrite bind_ok by exact E. reflexivity. }
  destruct (buildFullTypings_ok F abi
              (buildInterface (getAbiName (context g2)) properties) g2 HF1)
    as [full Hfull].
  assert (Eg : generate (g, w)
               = buildAndWrite (JsonArray abi) (g1, loadedWorld c w))
    by exact (generate_loaded_eq g w text (JsonArray abi) Hd Hp Hparse).
  rewrite Eg. clear Eg.
  destruct (buildAndWrite_built (JsonArray abi) _ g1 g2 full g2
              (loadedWorld c w) Hmain Hfull) as [Eb Hc].
  rewrite Eb. clear Eb.
  assert (Hfinish : forall formatted w2,
            files w2 = files w ->
            fst (writeAndFinish formatted (parserForced g2, w2))
            = Ok {| outputLocation := out; abiJsonFileLocation := p |}
            \/ fst (writeAndFinish formatted (parserForced g2, w2))
               = Throw (FsError out)).
  { intros formatted w2 Hfiles.
    destruct (files w2 !! path_resolve out) as [[|old]|] eqn:Eo.
    - right. now rewrite (writeAndFinish_refused formatted (parserForced g2) w2 Eo).
    - left. rewrite (writeAndFinish_ok formatted (parserForced g2) w2).
      + reflexivity.
      + change (files w2 !! path_resolve out <> Some Dir). now rewrite Eo.
      + exists (File text). rewrite Hfiles. exact Hp.
    - left. rewrite (writeAndFinish_ok formatted (parserForced g2) w2).
      + reflexivity.
      + change (files w2 !! path_resolve out <> Some Dir). now rewrite Eo.
      + exists (File text). rewrite Hfiles. exact Hp. }
  destruct (prettier_format full (formatterOptions (context g2)))
    as [formatted|] eqn:E1.
  - erewrite bind_ok by (apply formatTypings_accepted; exact E1).
    destruct (Hfinish formatted (loadedWorld c w) eq_refl) as [Hr|Hr];
      rewrite Hr; auto.
  - destruct (prettier_format full getDefaultPrettierOptions)
      as [formatted|] eqn:E2.
    + erewrite bind_ok.
      2: { rewrite formatTypings_rejected by exact E1. rewrite E2. reflexivity. }
      destruct (Hfinish formatted
                  (logLines [fallbackMessage; ""] (loadedWorld c w)) eq_refl)
        as [Hr|Hr]; rewrite Hr; auto.
    + erewrite bind_throw.
      2: { rewrite formatTypings_rejected by exact E1. rewrite E2. reflexivity. }
      auto.
Qed.

(** *** Building only appends *)

Section Frame.
Variable I : AbiGenerator -> Prop.
Hypothesis I_pushInterface : forall d g, I g -> I (pushInterface d g).
Hypothesis I_pushEvent : forall n g, I g -> I (pushEvent n g).
Hypothesis I_pushMethodName : forall n g, I g -> I (pushMethodName n g).

Lemma frame_buildMethodReturnContext type item :
  keeps I (buildMethodReturnContext type item).
Proof.
  unfold buildMethodReturnContext. apply keeps_bind; [apply keeps_get|].
  intros g. destruct (provider (context g));
    [apply keeps_ret | apply keeps_ret | apply keeps_throw].
Qed.

Lemma frame_buildTupleParametersInterface n x :
  keeps I (buildTupleParametersInterface n x).
Proof.
  unfold buildTupleParametersInterface.
  destruct (in_components x); [|apply keeps_throw].
  apply keeps_bind; [|intros _; apply keeps_ret].
  apply keeps_modify. intros g. apply I_pushInterface.
Qed.

Lemma frame_buildParametersFrom n xs :
  forall i input, keeps I (buildParametersFrom n i xs input).
Proof.
  induction xs as [|x xs IH]; intros i input; simpl; [apply keeps_ret|].
  destruct (String.eqb (in_type x) SolidityType_tuple); [|apply IH].
  apply keeps_bind; [apply frame_buildTupleParametersInterface|].
  intros ref. apply IH.
Qed.

Lemma frame_buildParametersAndReturnTypes item :
  keeps I (buildParametersAndReturnTypes item).
Proof.
  unfold buildParametersAndReturnTypes, buildParameters,
    buildPropertyReturnTypeInterface.
  apply keeps_bind.
  - apply keeps_bind; [|intros ?; apply keeps_ret].
    destruct (item_inputs item);
      [apply frame_buildParametersFrom | apply keeps_ret].
  - intros parameters. apply keeps_bind; [|intros ?; apply keeps_ret].
    destruct (item_outputs item) as [[|o1 [|o2 os]]|];
      try apply frame_buildMethodReturnContext.
    apply keeps_bind.
    + apply keeps_modify. intros g. apply I_pushInterface.
    + intros ?. apply frame_buildMethodReturnContext.
Qed.

Lemma frame_buildAbiInterfaceFrom abi :
  forall properties, keeps I (buildAbiInterfaceFrom abi properties).
Proof.
  induction abi as [|item abi IH]; intros properties; simpl; [apply keeps_ret|].
  destruct (item_type item).
  - apply keeps_bind; [apply keeps_modify; intros g; apply I_pushMethodName|].
    intros ?. apply keeps_bind; [apply frame_buildParametersAndReturnTypes|].
    intros ?. apply IH.
  - apply keeps_bind; [apply keeps_modify; intros g; apply I_pushMethodName|].
    intros ?. apply keeps_bind; [apply frame_buildParametersAndReturnTypes|].
    intros ?. apply IH.
  - apply keeps_bind; [apply keeps_modify; intros g; apply I_pushEvent|].
    intros ?. apply IH.
  - apply IH.
Qed.

Lemma frame_buildAbiInterface abi : keeps I (buildAbiInterface abi).
Proof.
  unfold buildAbiInterface. apply keeps_bind.
  - destruct abi as [items|[]];
      [apply frame_buildAbiInterfaceFrom | apply keeps_throw | apply keeps_ret..].
  - intros ?. apply keeps_bind; [apply keeps_get|]. intros ?. apply keeps_ret.
Qed.

End Frame.

Lemma grows_refl g : grows g g.
Proof. exists [], [], []. now rewrite extend_nil. Qed.

Lemma grows_extend g g' ds es ms : grows g g' -> grows g (extend ds es ms g').
Proof.
  intros (a & b & c & ->). exists (a ++ ds), (b ++ es), (c ++ ms).
  apply extend_extend.
Qed.

Lemma buildFullTypings_reads_only abi main g :
  snd (buildFullTypings abi main g) = g.
Proof.
  unfold buildFullTypings, buildEventsType, buildEventsInterface,
    buildMethodNamesType, buildParametersAndReturnTypeInterfaces,
    eventInterfaceProperties, bind, get, ret, throw.
  destruct (provider (context g)) eqn:P; simpl; rewrite ?P; simpl;
    try reflexivity;
    destruct abi as [items|v]; simpl; try reflexivity;
    match goal with |- context [f_buildEventInterfaceProperties_other ?f v] =>
      destruct (f_buildEventInterfaceProperties_other f v) end; reflexivity.
Qed.

(** X10.  Building only appends to the accumulator.  Whatever the ABI and
    whether it returns or throws, [buildAbiInterface] leaves a generator
    whose three lists are the lists before followed by what it collected,
    and whose context is the one before; [buildFullTypings] leaves the
    generator exactly as it was. *)
Theorem building_only_appends abi main g :
  (exists ds es ms,
     parametersAndReturnTypeInterfaces (snd (buildAbiInterface abi g))
     = parametersAndReturnTypeInterfaces g ++ ds
     /\ events (snd (buildAbiInterface abi g)) = events g ++ es
     /\ methodNames (snd (buildAbiInterface abi g)) = methodNames g ++ ms
     /\ context (snd (buildAbiInterface abi g)) = context g)
  /\ snd (buildFullTypings abi main g) = g.
Proof.
  split; [|apply buildFullTypings_reads_only].
  assert (Hg : grows g (snd (buildAbiInterface abi g))).
  { apply (frame_buildAbiInterface (grows g)).
    - intros d g' Hg'. change (pushInterface d g') with (addInterfaces [d] g').
      rewrite addInterfaces_extend. now apply grows_extend.
    - intros n g' Hg'. rewrite pushEvent_extend. now apply grows_extend.
    - intros n g' Hg'. rewrite pushMethodName_extend. now apply grows_extend.
    - apply grows_refl. }
  destruct Hg as (ds & es & ms & ->). exists ds, es, ms. repeat split.
Qed.

(** X11.  Items whose type is none of constructor, function and event are
    skipped: [buildAbiInterface] returns the same text and leaves the same
    generator as on the sequence without them. *)
Theorem items_without_a_case_are_skipped (abi : list AbiItem) g :
  buildAbiInterface (JsonArray abi) g
  = buildAbiInterface (JsonArray (filter (fun item => hasCase item = true) abi)) g.
Proof.
  unfold buildAbiInterface.
  assert (E : forall properties g',
            buildAbiInterfaceFrom abi properties g'
            = buildAbiInterfaceFrom
                (filter (fun item => hasCase item = true) abi) properties g').
  { induction abi as [|item abi IH]; intros properties g'; [reflexivity|].
    unfold hasCase at 1.
    destruct (item_type item) eqn:T.
    - rewrite filter_cons_True by (unfold hasCase; now rewrite T).
      simpl. rewrite T. unfold bind. simpl.
      destruct (buildParametersAndReturnTypes item _) as [[sig|e] g2];
        [apply IH | reflexivity].
    - rewrite filter_cons_True by (unfold hasCase; now rewrite T).
      simpl. rewrite T. unfold bind. simpl.
      destruct (buildParametersAndReturnTypes item _) as [[sig|e] g2];
        [apply IH | reflexivity].
    - rewrite filter_cons_True by (unfold hasCase; now rewrite T).
      simpl. rewrite T. unfold bind. simpl. apply IH.
    - rewrite filter_cons_False by (unfold hasCase; now rewrite T).
      simpl. rewrite T. apply IH. }
  unfold bind. now rewrite E.
Qed.

(** *** A composite input without components *)

Lemma buildParametersFrom_missing n pre x post :
  Forall wellFormedInput pre ->
  isTuple x = true ->
  in_components x = None ->
  forall i input g,
    buildParametersFrom n i (pre ++ x :: post) input g
    = (Throw (TypeError "components"),
       addInterfaces (requestInterfaces n pre) g).
Proof.
  intros Hpre Tx Ex. induction Hpre as [|y pre Hy _ IH]; intros i input g.
  - simpl. unfold isTuple in Tx. rewrite Tx.
    erewrite bind_throw
      by (apply buildTupleParametersInterface_missing; exact Ex).
    now rewrite addInterfaces_nil.
  - simpl. destruct (isTuple y) eqn:T; unfold isTuple in T; rewrite T.
    + destruct (Hy T) as [cs Ecs].
      erewrite bind_ok by (apply buildTupleParametersInterface_spec, Ecs).
      rewrite IH, addInterfaces_app.
      rewrite requestInterfaces_cons_tuple by exact T.
      unfold requestInterface. now rewrite Ecs.
    + rewrite IH. now rewrite requestInterfaces_cons_other by exact T.
Qed.

(** X15.  A composite input that carries no components makes
    [buildParameters] throw a type error; the request interfaces of the
    composite inputs before it are registered by then and stay in the
    accumulator, and nothing is registered for the inputs after it. *)
Theorem composite_input_without_components_throws item pre x post g :
  item_inputs item = Some (pre ++ x :: post) ->
  Forall wellFormedInput pre ->
  isTuple x = true ->
  in_components x = None ->
  buildParameters item g
  = (Throw (TypeError "components"),
     addInterfaces (requestInterfaces (item_name item) pre) g).
Proof.
  intros Hin Hpre Tx Ex. unfold buildParameters. rewrite Hin.
  erewrite bind_throw; [reflexivity|].
  now apply buildParametersFrom_missing.
Qed.

(** *** What a run does to the caller's context, stage by stage *)

Lemma bind_split {S A B C} (m : M S A) (k : A -> M S C) (k' : A -> M S B)
  (h : B -> M S C) s :
  (forall a s', k a s' = bind (k' a) h s') ->
  bind m k s = bind (bind m k') h s.
Proof.
  intros Hk. unfold bind at 1 3. unfold bind at 1.
  destruct (m s) as [[a|e] s']; [|reflexivity].
  apply Hk.
Qed.

(** [generate] is [loadAndBuild], then the formatting, then the rest. *)
Lemma generate_split s :
  generate s
  = (let* fullTypings := loadAndBuild in
     let* fullTypingsFormatted := formatTypings fullTypings in
     writeAndFinish fullTypingsFormatted) s.
Proof.
  rewrite generate_stages. unfold loadAndBuild, buildAndWrite.
  apply bind_split; intros _ s1.
  apply bind_split; intros s0 s2.
  apply bind_split; intros isDir s3.
  destruct (negb isDir); [reflexivity|].
  apply bind_split; intros abi s4.
  apply bind_split; intros main s5.
  reflexivity.
Qed.

Lemma loadAndBuild_context c0 :
  hoare (fun s : AbiGenerator * World => context (fst s) = c0) loadAndBuild
    (fun _ s =>
       contextAfter c0 (prettierOptions c0) (watch c0) (context (fst s))).
Proof.
  set (I1 := fun s : AbiGenerator * World =>
               contextAfter c0 (prettierOptions c0) (watch c0) (context (fst s))).
  assert (F1 : forall (e : Error) (s : AbiGenerator * World), I1 s -> I1 s)
    by (intros _ s Hs; exact Hs).
  unfold loadAndBuild.
  eapply hoare_bind with (R := fun _ s => I1 s); [| |exact F1].
  { intros [g w] Hs. simpl in Hs. subst c0. unfold onThis, I1. simpl.
    apply clearAllQuotes_context. }
  intros _. eapply hoare_bind with (R := fun _ s => I1 s);
    [apply keeps_get| |exact F1].
  intros s0. eapply hoare_bind with (R := fun _ s => I1 s); [| |exact F1].
  { apply (keeps_onWorld (fun g => contextAfter c0 _ _ (context g))). }
  intros isDir. destruct (negb isDir).
  { intros s Hs. exact Hs. }
  eapply hoare_bind with (R := fun _ s => I1 s); [| |exact F1].
  { apply (keeps_generator_getAbiJson (fun g => contextAfter c0 _ _ (context g))). }
  intros abi. eapply hoare_bind with (R := fun _ s => I1 s); [| |exact F1].
  { apply (keeps_onThis_lift (fun g => contextAfter c0 _ _ (context g))).
    apply keeps_of_context. intros c. apply keeps_context_buildAbiInterface. }
  intros abiTypedInterface.
  apply (keeps_onThis_lift (fun g => contextAfter c0 _ _ (context g))).
  apply keeps_of_context. intros c. apply keeps_context_buildFullTypings.
Qed.

Lemma formatTypings_generator full g w :
  fst (snd (formatTypings full (g, w))) = parserForced g.
Proof.
  destruct (prettier_format full (formatterOptions (context g))) as [t|] eqn:E.
  - now rewrite (formatTypings_accepted full t g w E).
  - now rewrite (formatTypings_rejected full g w E).
Qed.

Lemma writeAndFinish_options po text :
  keeps (fun s : AbiGenerator * World => prettierOptions (context (fst s)) = po)
    (writeAndFinish text).
Proof.
  unfold writeAndFinish.
  apply keeps_bind; [apply keeps_get|]. intros s0.
  apply keeps_bind;
    [apply (keeps_onWorld (fun g => prettierOptions (context g) = po))|].
  intros _. apply keeps_bind.
  { apply (keeps_onThis_lift (fun g => prettierOptions (context g) = po)).
    apply keeps_modify. intros g Hg. exact Hg. }
  intros _. apply keeps_bind; [apply keeps_get|]. intros s1.
  apply keeps_bind; [|intros _; apply keeps_bind; [apply keeps_get|];
                      intros s2; apply keeps_ret].
  destruct (watch (context (fst s1))); [|apply keeps_ret].
  unfold watchForChanges. apply keeps_bind.
  { apply (keeps_onThis_lift (fun g => prettierOptions (context g) = po)).
    apply keeps_modify. intros g Hg. exact Hg. }
  intros _. apply keeps_bind; [apply keeps_get|]. intros s2.
  apply (keeps_onWorld (fun g => prettierOptions (context g) = po)).
Qed.

(** C10 (amended).  [generate] updates the caller's context in place.  After
    every call, returning or throwing, the ABI location and the output
    directory are the given ones stripped of single quotes, and the name and
    the provider are as given.  Whenever the formatting is reached, that is,
    whenever all that comes before it returned, the formatter options are
    the given ones with the parser overwritten by typescript, also when the
    run throws afterwards; when it is not reached, the options and the watch
    flag are as given.  The watch flag is never anything but as given or
    false, and a call that returns has reached the formatting and leaves the
    watch flag false. *)
Theorem generate_updates_context_in_place g w :
  let c0 := context g in
  let c := context (fst (snd (generate (g, w)))) in
  abiFileLocation c = Js.removeQuotes (abiFileLocation c0)
  /\ outputPathDirectory c = Js.removeQuotes <$> outputPathDirectory c0
  /\ name c = name c0
  /\ provider c = provider c0
  /\ (formattingReached g w = true ->
      prettierOptions c = setParser "typescript" <$> prettierOptions c0)
  /\ (formattingReached g w = false ->
      prettierOptions c = prettierOptions c0 /\ watch c = watch c0)
  /\ (prettierOptions c = prettierOptions c0
      \/ prettierOptions c = setParser "typescript" <$> prettierOptions c0)
  /\ (watch c = watch c0 \/ watch c = false)
  /\ (isOk (fst (generate (g, w))) = true ->
      formattingReached g w = true
      /\ prettierOptions c = setParser "typescript" <$> prettierOptions c0
      /\ watch c = false).
Proof.
  cbv zeta.
  destruct (generate_context (context g) (g, w) eq_refl)
    as [(po & wa & Hc & Hpo & Hwa) Hok].
  unfold contextAfter in Hc, Hok. destruct Hc as (Ha & Ho & Hn & Hp & Hq & Hw).
  pose proof (loadAndBuild_context (context g) (g, w) eq_refl) as Hload.
  pose proof (generate_split (g, w)) as Hsplit.
  unfold formattingReached.
  destruct (loadAndBuild (g, w)) as [[full|e] [g3 w3]] eqn:E.
  - rewrite (bind_ok _ _ _ _ _ E) in Hsplit. simpl in Hload.
    destruct Hload as (_ & _ & _ & _ & Hq3 & _).
    assert (Hreached : prettierOptions (context (fst (snd (generate (g, w)))))
                       = setParser "typescript" <$> prettierOptions (context g)).
    { rewrite Hsplit. unfold bind.
      pose proof (formatTypings_generator full g3 w3) as Hg.
      destruct (formatTypings full (g3, w3)) as [[formatted|e] [g4 w4]];
        simpl in Hg; subst g4.
      - apply (writeAndFinish_options
                 (setParser "typescript" <$> prettierOptions (context g))
                 formatted (parserForced g3, w4)).
        simpl. now rewrite Hq3.
      - simpl. now rewrite Hq3. }
    simpl.
    split; [exact Ha|]. split; [exact Ho|]. split; [exact Hn|].
    split; [exact Hp|]. split; [intros _; exact Hreached|].
    split; [discriminate|]. split; [right; exact Hreached|].
    split; [rewrite Hw; exact Hwa|].
    intros Hr. split; [reflexivity|]. split; [exact Hreached|].
    now apply Hok.
  - rewrite (bind_throw _ _ _ _ _ E) in Hsplit. simpl in Hload.
    destruct Hload as (_ & _ & _ & _ & Hq3 & Hw3).
    assert (Hc : context (fst (snd (generate (g, w)))) = context g3)
      by now rewrite Hsplit.
    assert (Hthrow : isOk (fst (generate (g, w))) = false)
      by now rewrite Hsplit.
    simpl. rewrite Hthrow, Hc.
    split; [rewrite <- Hc; exact Ha|]. split; [rewrite <- Hc; exact Ho|].
    split; [rewrite <- Hc; exact Hn|]. split; [rewrite <- Hc; exact Hp|].
    split; [discriminate|]. split; [intros _; split; assumption|].
    split; [left; exact Hq3|]. split; [left; exact Hw3|].
    discriminate.
Qed.

End Stages.

(** ** The text of the main interface *)

Section MainInterface.
Context `{Collaborators}.

Lemma buildPropertyReturnTypeInterface_text F item g :
  factoryOf (provider (context g)) = Some F ->
  buildPropertyReturnTypeInterface item g
  = (Ok (f_buildMethodReturnContext F (returnTypeName item) item),
     addInterfaces (responseInterfaces item) g).
Proof.
  intros HF.
  unfold buildPropertyReturnTypeInterface, responseInterfaces, returnTypeName,
    responseName, outputFields, outputsOf.
  destruct (item_outputs item) as [[|o1 [|o2 os]]|]; cbn [default];
    rewrite ?addInterfaces_nil;
    try (apply buildMethodReturnContext_known; exact HF).
  unfold bind at 1. unfold modify.
  rewrite (buildMethodReturnContext_known F) by exact HF.
  now rewrite foldl_addProperty.
Qed.

Lemma buildParametersAndReturnTypes_text F item g :
  factoryOf (provider (context g)) = Some F ->
  Forall wellFormedInput (inputsOf item) ->
  buildParametersAndReturnTypes item g
  = (Ok (signatureOf F item),
     addInterfaces
       (requestInterfaces (item_name item) (inputsOf item)
          ++ responseInterfaces item) g).
Proof.
  intros HF Hwf. unfold buildParametersAndReturnTypes, signatureOf.
  erewrite bind_ok by (apply buildParameters_spec, Hwf).
  erewrite bind_ok by (apply (buildPropertyReturnTypeInterface_text F), HF).
  unfold ret. now rewrite addInterfaces_app.
Qed.

Lemma buildAbiInterfaceFrom_text F abi :
  wellFormedAbi abi ->
  forall properties g,
    factoryOf (provider (context g)) = Some F ->
    buildAbiInterfaceFrom abi properties g
    = (Ok (properties +:+ Js.join (map (propertyOf F) abi)),
       extend (auxiliaryInterfaces abi) (eventNamesOf abi) (methodNamesOf abi) g).
Proof.
  induction 1 as [|item abi Hitem _ IH]; intros properties g HF.
  - simpl. now rewrite extend_nil, string_app_nil_r.
  - simpl. unfold isCallable, propertyOf in *.
    destruct (item_type item) eqn:T.
    + unfold bind at 1. unfold modify.
      erewrite bind_ok
        by (apply (buildParametersAndReturnTypes_text F);
            [exact HF | exact (Hitem eq_refl)]).
      rewrite IH by exact HF.
      rewrite addInterfaces_extend, pushMethodName_extend, !extend_extend.
      simpl. now rewrite !string_app_assoc.
    + unfold bind at 1. unfold modify.
      erewrite bind_ok
        by (apply (buildParametersAndReturnTypes_text F);
            [exact HF | exact (Hitem eq_refl)]).
      rewrite IH by exact HF.
      rewrite addInterfaces_extend, pushMethodName_extend, !extend_extend.
      simpl. now rewrite !string_app_assoc.
    + unfold bind at 1. unfold modify.
      rewrite IH by exact HF.
      rewrite pushEvent_extend, !extend_extend. simpl.
      now rewrite string_app_nil_l.
    + rewrite IH by exact HF. now rewrite string_app_nil_l.
Qed.

(** X16.  For a supported provider and items whose composite inputs carry
    their components, the main interface is named after the ABI and its body
    is the concatenation, in item order, of one property per callable item:
    the documentation block, then the item's name (the quoted 'new' for a
    constructor), then the parameter list and the provider's return
    expression, then a semicolon.  Events and items of other kinds
    contribute no text, and the property of an item depends neither on the
    other items nor on what the accumulator held. *)
Theorem main_interface_lists_callable_items_in_order F (abi : list AbiItem) g :
  factoryOf (provider (context g)) = Some F ->
  wellFormedAbi abi ->
  buildAbiInterface (JsonArray abi) g
  = (Ok (buildInterface (getAbiName (context g))
           (Js.join (map (propertyOf F) abi))),
     extend (auxiliaryInterfaces abi) (eventNamesOf abi) (methodNamesOf abi) g)
  /\ Forall (fun item => isCallable item = false -> propertyOf F item = "") abi.
Proof.
  intros HF Hwf. split.
  - unfold buildAbiInterface.
    erewrite bind_ok by (apply (buildAbiInterfaceFrom_text F); assumption).
    unfold bind, get, ret. simpl. now rewrite string_app_nil_l.
  - clear. induction abi as [|item abi IH]; constructor; [|exact IH].
    unfold isCallable, propertyOf.
    destruct (item_type item); intros E; try discriminate; reflexivity.
Qed.

End MainInterface.

(** * The model run on concrete inputs *)

Section Concrete.
#[local] Existing Instance Sample.collaborators.

(** C1, counterexample.  The ABI file holds the JSON object [{}]: it parses,
    [generate] returns, and the output file, absent before, is written. *)
Lemma object_source_is_generated_from :
  let run := generate (newAbiGenerator (Sample.ctx Provider.web3), Sample.world "{}") in
  JSON_parse "{}" = Some (JsonOther JsonEmptyObject)
  /\ fst run = Ok {| outputLocation := "/out/token.ts";
                     abiJsonFileLocation := "/work/abis/token.json" |}
  /\ throwsSourceError (fst run) = false
  /\ files (Sample.world "{}") !! "/out/token.ts" = None
  /\ files (snd (snd run)) !! "/out/token.ts"
     = Some (File "/* web3 Token */ type TokenEvents = never; interface TokenEventsContext {  } type TokenMethodNames = never; interface Token {  } ").
Proof. vm_compute. repeat split. Qed.

(** C1, witness: a file whose content is no JSON. *)
Lemma source_format_error_witness :
  (files (Sample.world "not json") !! path_resolve "/out" = Some Dir
   /\ files (Sample.world "not json") !! path_resolve "/work/abis/token.json"
      = Some (File "not json")
   /\ JSON_parse "not json" = None)
  /\ fst (generate (newAbiGenerator (Sample.ctx Provider.web3),
                    Sample.world "not json"))
     = Throw (AbiFileNotJson "/work/abis/token.json")
  /\ files (snd (snd (generate (newAbiGenerator (Sample.ctx Provider.web3),
                                Sample.world "not json"))))
     = files (Sample.world "not json").
Proof.
  split; [vm_compute; repeat split|].
  assert (Hd : files (Sample.world "not json")
               !! path_resolve
                    (getOutputPathDirectory
                       (context (snd (clearAllQuotesFromContextInfo
                          (newAbiGenerator (Sample.ctx Provider.web3))))))
               = Some Dir) by (vm_compute; reflexivity).
  assert (Hp : files (Sample.world "not json")
               !! path_resolve
                    (getAbiFileFullPathLocation
                       (context (snd (clearAllQuotesFromContextInfo
                          (newAbiGenerator (Sample.ctx Provider.web3))))))
               = Some (File "not json")) by (vm_compute; reflexivity).
  destruct (source_format_error_iff_unparsable
              (newAbiGenerator (Sample.ctx Provider.web3))
              (Sample.world "not json") "not json" Hd Hp)
    as [Hnone _].
  destruct (Hnone eq_refl) as (E1 & E2 & _).
  split; [exact E1 | exact E2].
Defined.

(** C3, counterexample.  A run that throws while writing leaves the event
    name it collected in the accumulator; the next run on the same generator
    starts from it and writes the name twice. *)
Lemma failed_run_leaks_into_next_run :
  let run1 := generate (newAbiGenerator (Sample.ctx Provider.web3),
                        Sample.blockedWorld Sample.eventsText) in
  let run2 := generate (fst (snd run1), Sample.world Sample.eventsText) in
  fst run1 = Throw (FsError "/out/token.ts")
  /\ accumulators (fst (snd run1)) = ([], ["Transfer"], [])
  /\ isOk (fst run2) = true
  /\ files (snd (snd run2)) !! "/out/token.ts"
     = Some (File "/* web3 Token */ type TokenEvents = 'Transfer' | 'Transfer' | never; interface TokenEventsContext { Transfer: Event;  } type TokenMethodNames = never; interface Token {  } ").
Proof. vm_compute. repeat split. Qed.

(** C3, witness: two runs that return. *)
Lemma accumulator_empty_witness :
  runAll (newAbiGenerator (Sample.ctx Provider.web3))
    [Sample.world Sample.abiText; Sample.world Sample.eventsText]
  = Some (newAbiGenerator
            {| abiFileLocation := "abis/token.json";
               outputPathDirectory := Some "/out";
               name := None;
               provider := Provider.web3;
               prettierOptions := None;
               watch := false |})
  /\ accumulators
       (newAbiGenerator
          {| abiFileLocation := "abis/token.json";
             outputPathDirectory := Some "/out";
             name := None;
             provider := Provider.web3;
             prettierOptions := None;
             watch := false |})
     = ([], [], []).
Proof.
  assert (Hrun : runAll (newAbiGenerator (Sample.ctx Provider.web3))
                   [Sample.world Sample.abiText; Sample.world Sample.eventsText]
                 = Some (newAbiGenerator
                           {| abiFileLocation := "abis/token.json";
                              outputPathDirectory := Some "/out";
                              name := None;
                              provider := Provider.web3;
                              prettierOptions := None;
                              watch := false |}))
    by (vm_compute; reflexivity).
  split; [exact Hrun|].
  exact (accumulator_empty_between_returning_runs _ _ _ Hrun (or_introl eq_refl)).
Defined.

(** C4, counterexample.  With an unsupported provider the error comes after
    the directory was inspected and the ABI file read; and when the ABI file
    is missing the error is the missing-file error, no configuration error. *)
Lemma unsupported_provider_is_found_after_reading :
  let run := generate (newAbiGenerator (Sample.ctx (Provider.unsupported "x")),
                       Sample.world Sample.abiText) in
  let run' := generate (newAbiGenerator (Sample.ctx (Provider.unsupported "x")),
                        Sample.emptyWorld) in
  fst run = Throw (UnknownProvider "x")
  /\ trace (snd (snd run))
     = [ IoExists "/out"; IoLstat "/out"; IoExists "/work/abis/token.json";
         IoRead "/work/abis/token.json" ]
  /\ fst run' = Throw (AbiFileNotFound "/work/abis/token.json")
  /\ throwsConfigurationError (fst run') = false.
Proof. vm_compute. repeat split. Qed.

(** C4, witness. *)
Lemma unsupported_provider_witness :
  provider (context (newAbiGenerator (Sample.ctx (Provider.unsupported "x"))))
  = Provider.unsupported "x"
  /\ isOk (fst (generate (newAbiGenerator (Sample.ctx (Provider.unsupported "x")),
                          Sample.world Sample.abiText))) = false
  /\ files (snd (snd (generate
                        (newAbiGenerator (Sample.ctx (Provider.unsupported "x")),
                         Sample.world Sample.abiText))))
     = files (Sample.world Sample.abiText).
Proof.
  split; [reflexivity|].
  destruct (unsupported_provider_aborts_without_writing
              (newAbiGenerator (Sample.ctx (Provider.unsupported "x")))
              (Sample.world Sample.abiText) "x" eq_refl)
    as (E1 & (E2 & _) & _).
  split; [exact E1 | exact E2].
Defined.


(** C6, counterexample.  The only component of the input is composite; one
    declaration is appended, with the component mapped by the type mapper
    (to any), and none for the component itself. *)
Lemma nested_component_is_not_expanded :
  buildTupleParametersInterface "swap" Sample.nested
    (newAbiGenerator (Sample.ctx Provider.web3))
  = (Ok "SwapRequest",
     addInterfaces ["interface SwapRequest { maker: any; } "]
       (newAbiGenerator (Sample.ctx Provider.web3))).
Proof. vm_compute. reflexivity. Qed.

(** C6, witness. *)
Lemma composite_components_witness :
  in_components Sample.nested
  = Some [ mkAbiInput "maker" "tuple" None
             (Some [ mkAbiInput "account" "address" None None ]) ]
  /\ length (parametersAndReturnTypeInterfaces
               (snd (buildTupleParametersInterface "swap" Sample.nested
                       (newAbiGenerator (Sample.ctx Provider.web3)))))
     = 1.
Proof.
  split; [reflexivity|].
  exact (proj2 (composite_components_are_mapped_not_expanded "swap" Sample.nested
                  _ (newAbiGenerator (Sample.ctx Provider.web3)) eq_refl)).
Defined.

(** C7, witness: an item with three outputs, under web3. *)
Lemma return_type_witness :
  factoryOf (provider (context (newAbiGenerator (Sample.ctx Provider.web3))))
  = Some Sample.web3Factory
  /\ buildPropertyReturnTypeInterface Sample.swap
       (newAbiGenerator (Sample.ctx Provider.web3))
     = (Ok ": MethodReturnContext<SwapResponse>",
        addInterfaces
          ["interface SwapResponse { ok: boolean;to: string;memo: string; } "]
          (newAbiGenerator (Sample.ctx Provider.web3))).
Proof.
  assert (HF : factoryOf
                 (provider (context (newAbiGenerator (Sample.ctx Provider.web3))))
               = Some Sample.web3Factory) by reflexivity.
  split; [exact HF|].
  destruct (return_type_follows_output_count Sample.swap Sample.web3Factory
              (newAbiGenerator (Sample.ctx Provider.web3)) HF)
    as (_ & _ & E).
  exact (E _ eq_refl (le_S _ _ (le_n 2))).
Defined.

(** C9, witness: the sample ABI under web3. *)
Lemma full_typings_witness :
  (factoryOf (provider (Sample.ctx Provider.web3)) = Some Sample.web3Factory
   /\ wellFormedAbi Sample.abiItems)
  /\ exists main,
       buildAbiInterface (JsonArray Sample.abiItems)
         (newAbiGenerator (Sample.ctx Provider.web3))
       = (Ok main,
          {| context := Sample.ctx Provider.web3;
             parametersAndReturnTypeInterfaces := [];
             events := ["Transfer"];
             methodNames := ["transfer"] |}).
Proof.
  assert (Hwf : wellFormedAbi Sample.abiItems) by solve_wellFormed.
  assert (HF : factoryOf (provider (Sample.ctx Provider.web3))
               = Some Sample.web3Factory) by reflexivity.
  split; [split; [exact HF | exact Hwf]|].
  destruct (full_typings_declare_one_name_type_each (Sample.ctx Provider.web3)
              Sample.web3Factory Sample.abiItems HF Hwf)
    as [(properties & E & _) _].
  eexists. exact E.
Defined.

(** C10, counterexample.  The caller's formatter options name the parser
    babel; after [generate] they name typescript. *)
Lemma formatter_options_are_overwritten :
  let run := generate (newAbiGenerator Sample.ctxWithOptions,
                       Sample.world Sample.eventsText) in
  prettierOptions Sample.ctxWithOptions
  = Some (mkOptions (Some "babel") None None None None)
  /\ isOk (fst run) = true
  /\ prettierOptions (context (fst (snd run)))
     = Some (mkOptions (Some "typescript") None None None None).
Proof. vm_compute. repeat split. Qed.

(** X1, witness: the second input of the item has no name. *)
Lemma unnamed_input_witness :
  Forall wellFormedInput (inputsOf Sample.swap)
  /\ fst (buildParameters Sample.swap (newAbiGenerator (Sample.ctx Provider.web3)))
     = Ok "(pair: SwapRequest, parameter1: boolean, order: SwapRequest)".
Proof.
  assert (Hwf : Forall wellFormedInput (inputsOf Sample.swap))
    by solve_wellFormed.
  split; [exact Hwf|].
  exact (proj1 (unnamed_input_is_named_by_position Sample.swap
                  (newAbiGenerator (Sample.ctx Provider.web3)) Hwf)).
Defined.

End Concrete.

(** ** The stages of [generate] on the sample files *)

Section ConcreteStages.
#[local] Existing Instance Sample.collaborators.

(** X2, witness: the output directory [/out] is not there. *)
Lemma output_path_witness :
  files Sample.noDirectoryWorld !! "/out" = None
  /\ fst (generate (newAbiGenerator (Sample.ctx Provider.web3),
                    Sample.noDirectoryWorld))
     = Throw OutputPathNotDirectory
  /\ files (snd (snd (generate (newAbiGenerator (Sample.ctx Provider.web3),
                                Sample.noDirectoryWorld))))
     = files Sample.noDirectoryWorld.
Proof.
  split; [vm_compute; reflexivity|].
  assert (Hd : files Sample.noDirectoryWorld
               !! path_resolve
                    (getOutputPathDirectory
                       (context (snd (clearAllQuotesFromContextInfo
                          (newAbiGenerator (Sample.ctx Provider.web3))))))
               <> Some Dir) by (vm_compute; discriminate).
  destruct (output_path_must_be_a_directory
              (newAbiGenerator (Sample.ctx Provider.web3))
              Sample.noDirectoryWorld Hd) as (E & Hf & _).
  split; [exact E | exact Hf].
Defined.

(** X3, witness: the output directory is there and the ABI file is not. *)
Lemma abi_file_missing_witness :
  (files Sample.emptyWorld !! "/out" = Some Dir
   /\ files Sample.emptyWorld !! "/work/abis/token.json" = None)
  /\ fst (generate (newAbiGenerator (Sample.ctx Provider.web3),
                    Sample.emptyWorld))
     = Throw (AbiFileNotFound "/work/abis/token.json").
Proof.
  split; [vm_compute; split; reflexivity|].
  assert (Hd : files Sample.emptyWorld
               !! path_resolve
                    (getOutputPathDirectory
                       (context (snd (clearAllQuotesFromContextInfo
                          (newAbiGenerator (Sample.ctx Provider.web3))))))
               = Some Dir) by (vm_compute; reflexivity).
  assert (Hp : files Sample.emptyWorld
               !! path_resolve
                    (getAbiFileFullPathLocation
                       (context (snd (clearAllQuotesFromContextInfo
                          (newAbiGenerator (Sample.ctx Provider.web3))))))
               = None) by (vm_compute; reflexivity).
  destruct (abi_file_missing_or_unreadable
              (newAbiGenerator (Sample.ctx Provider.web3))
              Sample.emptyWorld Hd) as [Hmissing _].
  destruct (Hmissing Hp) as (E & _).
  exact E.
Defined.

(** C10 on a run that stops before the formatting: the options are as
    given. *)
Lemma options_are_kept_when_the_abi_file_is_missing :
  let run := generate (newAbiGenerator Sample.ctxWithOptions, Sample.emptyWorld) in
  formattingReached (newAbiGenerator Sample.ctxWithOptions) Sample.emptyWorld
  = false
  /\ fst run = Throw (AbiFileNotFound "/work/abis/token.json")
  /\ prettierOptions (context (fst (snd run)))
     = Some (mkOptions (Some "babel") None None None None)
  /\ watch (context (fst (snd run))) = true.
Proof. vm_compute. repeat split. Qed.

End ConcreteStages.

Section ConcreteWrites.
#[local] Existing Instance Sample.collaborators.

(** X8, witness: the first run has the watch flag set and returns; the
    second run on the same generator registers nothing. *)
Lemma watcher_witness :
  watch Sample.ctxWithOptions = true
  /\ isOk (fst (generate (newAbiGenerator Sample.ctxWithOptions,
                          Sample.world Sample.eventsText))) = true
  /\ watchers (snd (snd (generate (newAbiGenerator Sample.ctxWithOptions,
                                   Sample.world Sample.eventsText))))
     = ["/work/abis/token.json"]
  /\ watchers (snd (snd (generate
                 (fst (snd (generate (newAbiGenerator Sample.ctxWithOptions,
                                      Sample.world Sample.eventsText))),
                  Sample.world Sample.abiText))))
     = [].
Proof.
  assert (Hok : isOk (fst (generate (newAbiGenerator Sample.ctxWithOptions,
                                     Sample.world Sample.eventsText))) = true)
    by (vm_compute; reflexivity).
  split; [reflexivity|]. split; [exact Hok|].
  split; [vm_compute; reflexivity|].
  exact (proj2 (watcher_is_registered_once
                  (newAbiGenerator Sample.ctxWithOptions)
                  (Sample.world Sample.eventsText)
                  (Sample.world Sample.abiText) Hok)).
Defined.

(** X9, witness: the sample ABI under web3. *)
Lemma valid_abi_witness :
  (JSON_parse Sample.abiText = Some (JsonArray Sample.abiItems)
   /\ wellFormedAbi Sample.abiItems)
  /\ (fst (generate (newAbiGenerator (Sample.ctx Provider.web3),
                     Sample.world Sample.abiText))
      = Ok {| outputLocation := "/out/token.ts";
              abiJsonFileLocation := "/work/abis/token.json" |}
      \/ fst (generate (newAbiGenerator (Sample.ctx Provider.web3),
                        Sample.world Sample.abiText))
         = Throw FormatError
      \/ fst (generate (newAbiGenerator (Sample.ctx Provider.web3),
                        Sample.world Sample.abiText))
         = Throw (FsError "/out/token.ts")).
Proof.
  assert (Hwf : wellFormedAbi Sample.abiItems) by solve_wellFormed.
  split; [split; [reflexivity | exact Hwf]|].
  pose (g := newAbiGenerator (Sample.ctx Provider.web3)).
  pose (w := Sample.world Sample.abiText).
  pose (g1 := snd (clearAllQuotesFromContextInfo g)).
  assert (Hd : files w !! path_resolve (getOutputPathDirectory (context g1))
               = Some Dir) by (vm_compute; reflexivity).
  assert (Hp : files w !! path_resolve (getAbiFileFullPathLocation (context g1))
               = Some (File Sample.abiText)) by (vm_compute; reflexivity).
  assert (Hparse : JSON_parse Sample.abiText
                   = Some (JsonArray Sample.abiItems)) by reflexivity.
  exact (valid_abi_fails_only_in_formatting_or_writing g w Sample.abiText
           Sample.abiItems web3Factory Hd Hp Hparse Hwf eq_refl).
Defined.

(** The sample [capitalize] brings in neither a hyphen nor a dot. *)
Lemma capitalize_without_hyphen s :
  without "-" s = true -> without "-" (Sample.capitalize s) = true.
Proof.
  destruct s as [|a r]; [trivial|].
  destruct a as [[] [] [] [] [] [] [] []]; simpl; intros H; exact H.
Qed.

Lemma capitalize_without_dot s :
  without "." s = true -> without "." (Sample.capitalize s) = true.
Proof.
  destruct s as [|a r]; [trivial|].
  destruct a as [[] [] [] [] [] [] [] []]; simpl; intros H; exact H.
Qed.

(** X14, witness: a location with hyphens and dots. *)
Lemma abi_name_witness :
  formatAbiName "my-token.abi" = "MyTokenAbi"
  /\ without "-" (formatAbiName "my-token.abi") = true
  /\ without "." (formatAbiName "my-token.abi") = true.
Proof.
  split; [vm_compute; reflexivity|].
  exact (proj1 (abi_name_has_no_hyphen_or_dot
                  capitalize_without_hyphen capitalize_without_dot)
           "my-token.abi").
Defined.

(** X15, witness: the second composite input of [Sample.malformed] has no
    components; the interface of the first one is registered. *)
Lemma composite_without_components_witness :
  (isTuple (mkAbiInput "order" "tuple" None None) = true
   /\ in_components (mkAbiInput "order" "tuple" None None) = None)
  /\ buildParameters Sample.malformed (newAbiGenerator (Sample.ctx Provider.web3))
     = (Throw (TypeError "components"),
        addInterfaces ["interface SwapRequest { left: string;right: boolean; } "]
          (newAbiGenerator (Sample.ctx Provider.web3))).
Proof.
  split; [split; reflexivity|].
  assert (Hpre : Forall wellFormedInput [Sample.pair])
    by (constructor; [intros _; eexists; reflexivity | constructor]).
  exact (composite_input_without_components_throws Sample.malformed
           [Sample.pair] (mkAbiInput "order" "tuple" None None) [Sample.nested]
           (newAbiGenerator (Sample.ctx Provider.web3))
           eq_refl Hpre eq_refl eq_refl).
Defined.

(** X16, witness: the sample ABI, a function followed by an event. *)
Lemma main_interface_witness :
  wellFormedAbi Sample.abiItems
  /\ propertyOf web3Factory Sample.Transfer = ""
  /\ fst (buildAbiInterface (JsonArray Sample.abiItems)
            (newAbiGenerator (Sample.ctx Provider.web3)))
     = Ok (buildInterface (getAbiName (Sample.ctx Provider.web3))
             (Js.join (map (propertyOf web3Factory) Sample.abiItems)))
  /\ methodNames (snd (buildAbiInterface (JsonArray Sample.abiItems)
                         (newAbiGenerator (Sample.ctx Provider.web3))))
     = ["transfer"].
Proof.
  assert (Hwf : wellFormedAbi Sample.abiItems) by solve_wellFormed.
  split; [exact Hwf|]. split; [reflexivity|].
  destruct (main_interface_lists_callable_items_in_order web3Factory
              Sample.abiItems (newAbiGenerator (Sample.ctx Provider.web3))
              eq_refl Hwf) as [E _].
  rewrite E. split; reflexivity.
Defined.

End ConcreteWrites.

Section ConcreteFallback.
#[local] Existing Instance Sample.strictCollaborators.

(** X4, witness: prettier rejects the trailing-comma setting of the context
    and accepts the built-in options; the run returns after logging the two
    fallback lines. *)
Lemma generate_returns_witness :
  (prettier_format Sample.eventsTypings
     (formatterOptions Sample.ctxUnknownOptions) = None
   /\ prettier_format Sample.eventsTypings getDefaultPrettierOptions
      = Some Sample.eventsTypings)
  /\ fst (generate (newAbiGenerator Sample.ctxUnknownOptions,
                    Sample.world Sample.eventsText))
     = Ok {| outputLocation := "/out/token.ts";
             abiJsonFileLocation := "/work/abis/token.json" |}
  /\ logged (snd (snd (generate (newAbiGenerator Sample.ctxUnknownOptions,
                                 Sample.world Sample.eventsText))))
     = [fallbackMessage; ""]
  /\ accumulators (fst (snd (generate (newAbiGenerator Sample.ctxUnknownOptions,
                                       Sample.world Sample.eventsText))))
     = ([], [], []).
Proof.
  split; [split; reflexivity|].
  pose (g := newAbiGenerator Sample.ctxUnknownOptions).
  pose (w := Sample.world Sample.eventsText).
  pose (g1 := snd (clearAllQuotesFromContextInfo g)).
  assert (Hd : files w !! path_resolve (getOutputPathDirectory (context g1))
               = Some Dir) by (vm_compute; reflexivity).
  assert (Hp : files w !! path_resolve (getAbiFileFullPathLocation (context g1))
               = Some (File Sample.eventsText)) by (vm_compute; reflexivity).
  assert (Hparse : JSON_parse Sample.eventsText
                   = Some (JsonArray [Sample.Transfer])) by reflexivity.
  assert (Hmain : buildAbiInterface (JsonArray [Sample.Transfer]) g1
                  = (Ok Sample.eventsMain, extend [] ["Transfer"] [] g1))
    by (vm_compute; reflexivity).
  assert (Hfull : buildFullTypings (JsonArray [Sample.Transfer]) Sample.eventsMain
                    (extend [] ["Transfer"] [] g1)
                  = (Ok Sample.eventsTypings, extend [] ["Transfer"] [] g1))
    by (vm_compute; reflexivity).
  assert (Hformat :
            prettier_format Sample.eventsTypings (formatterOptions (context g1))
            = Some Sample.eventsTypings /\ [fallbackMessage; ""] = []
            \/ prettier_format Sample.eventsTypings
                 (formatterOptions (context g1)) = None
               /\ prettier_format Sample.eventsTypings getDefaultPrettierOptions
                  = Some Sample.eventsTypings
               /\ [fallbackMessage; ""] = [fallbackMessage; ""])
    by (right; repeat split).
  assert (Hout : files w !! path_resolve (buildOutputLocation (context g1))
                 <> Some Dir) by (vm_compute; discriminate).
  destruct (generate_returns_and_writes g w Sample.eventsText
              (JsonArray [Sample.Transfer]) Sample.eventsMain
              (extend [] ["Transfer"] [] g1) Sample.eventsTypings
              (extend [] ["Transfer"] [] g1) Sample.eventsTypings
              [fallbackMessage; ""]
              Hd Hp Hparse Hmain Hfull Hformat Hout)
    as (E & _ & Ha & Hl & _).
  split; [exact E|]. split; [exact Hl | exact Ha].
Defined.

(** X6, witness: a directory stands at [/out/token.ts], and the write is
    reached through the fallback to the built-in options. *)
Lemma refused_write_witness :
  (files (Sample.blockedWorld Sample.eventsText) !! "/out" = Some Dir
   /\ files (Sample.blockedWorld Sample.eventsText) !! "/out/token.ts" = Some Dir
   /\ prettier_format Sample.eventsTypings
        (formatterOptions Sample.ctxUnknownOptions) = None
   /\ prettier_format Sample.eventsTypings getDefaultPrettierOptions
      = Some Sample.eventsTypings)
  /\ fst (generate (newAbiGenerator Sample.ctxUnknownOptions,
                    Sample.blockedWorld Sample.eventsText))
     = Throw (FsError "/out/token.ts")
  /\ accumulators (fst (snd (generate (newAbiGenerator Sample.ctxUnknownOptions,
                                       Sample.blockedWorld Sample.eventsText))))
     = ([], ["Transfer"], [])
  /\ logged (snd (snd (generate (newAbiGenerator Sample.ctxUnknownOptions,
                                 Sample.blockedWorld Sample.eventsText))))
     = [fallbackMessage; ""].
Proof.
  split; [vm_compute; repeat split|].
  pose (g := newAbiGenerator Sample.ctxUnknownOptions).
  pose (w := Sample.blockedWorld Sample.eventsText).
  pose (g1 := snd (clearAllQuotesFromContextInfo g)).
  assert (Hd : files w !! path_resolve (getOutputPathDirectory (context g1))
               = Some Dir) by (vm_compute; reflexivity).
  assert (Hp : files w !! path_resolve (getAbiFileFullPathLocation (context g1))
               = Some (File Sample.eventsText)) by (vm_compute; reflexivity).
  assert (Hparse : JSON_parse Sample.eventsText
                   = Some (JsonArray [Sample.Transfer])) by reflexivity.
  assert (Hmain : buildAbiInterface (JsonArray [Sample.Transfer]) g1
                  = (Ok Sample.eventsMain, extend [] ["Transfer"] [] g1))
    by (vm_compute; reflexivity).
  assert (Hfull : buildFullTypings (JsonArray [Sample.Transfer]) Sample.eventsMain
                    (extend [] ["Transfer"] [] g1)
                  = (Ok Sample.eventsTypings, extend [] ["Transfer"] [] g1))
    by (vm_compute; reflexivity).
  assert (Hformat :
            prettier_format Sample.eventsTypings (formatterOptions (context g1))
            = Some Sample.eventsTypings /\ [fallbackMessage; ""] = []
            \/ prettier_format Sample.eventsTypings
                 (formatterOptions (context g1)) = None
               /\ prettier_format Sample.eventsTypings getDefaultPrettierOptions
                  = Some Sample.eventsTypings
               /\ [fallbackMessage; ""] = [fallbackMessage; ""])
    by (right; repeat split).
  assert (Hout : files w !! path_resolve (buildOutputLocation (context g1))
                 = Some Dir) by (vm_compute; reflexivity).
  destruct (refused_write_aborts g w Sample.eventsText
              (JsonArray [Sample.Transfer]) Sample.eventsMain
              (extend [] ["Transfer"] [] g1) Sample.eventsTypings
              (extend [] ["Transfer"] [] g1) Sample.eventsTypings
              [fallbackMessage; ""]
              Hd Hp Hparse Hmain Hfull Hformat Hout)
    as (E & _ & _ & Ha & Hl).
  split; [exact E|]. split; [exact Ha | exact Hl].
Defined.

End ConcreteFallback.

Section ConcreteRejected.
#[local] Existing Instance Sample.brokenCollaborators.

(** X5, witness: prettier accepts nothing; the event name collected while
    building stays in the accumulator. *)
Lemma formatter_rejecting_witness :
  (prettier_format Sample.eventsTypings
     (formatterOptions (Sample.ctx Provider.web3)) = None
   /\ prettier_format Sample.eventsTypings getDefaultPrettierOptions = None)
  /\ fst (generate (newAbiGenerator (Sample.ctx Provider.web3),
                    Sample.world Sample.eventsText))
     = Throw FormatError
  /\ accumulators (fst (snd (generate (newAbiGenerator (Sample.ctx Provider.web3),
                                       Sample.world Sample.eventsText))))
     = ([], ["Transfer"], []).
Proof.
  split; [split; reflexivity|].
  pose (g := newAbiGenerator (Sample.ctx Provider.web3)).
  pose (w := Sample.world Sample.eventsText).
  pose (g1 := snd (clearAllQuotesFromContextInfo g)).
  assert (Hd : files w !! path_resolve (getOutputPathDirectory (context g1))
               = Some Dir) by (vm_compute; reflexivity).
  assert (Hp : files w !! path_resolve (getAbiFileFullPathLocation (context g1))
               = Some (File Sample.eventsText)) by (vm_compute; reflexivity).
  assert (Hparse : JSON_parse Sample.eventsText
                   = Some (JsonArray [Sample.Transfer])) by reflexivity.
  assert (Hmain : buildAbiInterface (JsonArray [Sample.Transfer]) g1
                  = (Ok Sample.eventsMain, extend [] ["Transfer"] [] g1))
    by (vm_compute; reflexivity).
  assert (Hfull : buildFullTypings (JsonArray [Sample.Transfer]) Sample.eventsMain
                    (extend [] ["Transfer"] [] g1)
                  = (Ok Sample.eventsTypings, extend [] ["Transfer"] [] g1))
    by (vm_compute; reflexivity).
  destruct (formatter_rejecting_twice_aborts g w Sample.eventsText
              (JsonArray [Sample.Transfer]) Sample.eventsMain
              (extend [] ["Transfer"] [] g1) Sample.eventsTypings
              (extend [] ["Transfer"] [] g1)
              Hd Hp Hparse Hmain Hfull eq_refl eq_refl)
    as (E & _ & _ & _ & Ha & _).
  split; [exact E | exact Ha].
Defined.

(** C10 on a run that reaches the formatting and throws there: the parser
    of the caller's options is overwritten already, the watch flag is not. *)
Lemma options_are_overwritten_before_the_formatter_throws :
  let run := generate (newAbiGenerator Sample.ctxWithOptions,
                       Sample.world Sample.eventsText) in
  formattingReached (newAbiGenerator Sample.ctxWithOptions)
    (Sample.world Sample.eventsText) = true
  /\ fst run = Throw FormatError
  /\ prettierOptions (context (fst (snd run)))
     = Some (mkOptions (Some "typescript") None None None None)
  /\ watch (context (fst (snd run))) = true.
Proof. vm_compute. repeat split. Qed.

End ConcreteRejected.
